(** * Royal Shisha Bar: order and table status derivation

    A shallow embedding of the admin console's derivation and guard logic:

    - [Grid]: [processTableData] of
      [src/components/admin/SimpleLiveTableGrid.tsx] (the variant that joins
      tables, today's orders and seated reservations);
    - [SimpleGrid]: [calculateTableStatuses] and [calculateStats] of the
      simpler table grid (the variant that looks at the latest order of a
      table and at the clock);
    - [OrderManagement]: [updateOrderStatus], [deleteOrder] and
      [verifyLoyaltyDiscount] of [src/components/admin/OrderManagement.tsx];
    - [BarOperations]: [processOrdersWithMenuItems] of the bar view.

    Amounts and prices are the doubles they are in the code (binary64
    floats, added as the code adds them); table numbers, counts and
    millisecond timestamps are integers, which doubles hold exactly; a [Map]
    is a [gmap]; an optional field is an [option]. *)

From Stdlib Require Import ZArith Lia PrimFloat.
From stdpp Require Import gmap strings list fin_maps pretty sorting.

#[local] Set Warnings "-clear-no-such-hyp,-inexact-float".

(** ** Data model *)

(** Modelled from the spec: the declarations of [types/order],
    [types/reservation] and [types/menu] are not part of the sources at hand;
    the records carry the fields the components read. *)
Inductive OrderStatus :=
  | pending | confirmed | preparing | ready | delivered | cancelled.

Inductive PaymentStatus := unpaid | partial | paid.

#[global] Instance OrderStatus_eq_dec : EqDecision OrderStatus.
Proof. solve_decision. Defined.

#[global] Instance PaymentStatus_eq_dec : EqDecision PaymentStatus.
Proof. solve_decision. Defined.

Record Payment := { pay_status : PaymentStatus; pay_amount : float }.

Record CartItem := {
  menuItemId : string;
  quantity : Z;
  specialInstructions : option string
}.

Record Order := {
  o_id : string;
  o_tableNumber : Z;
  o_items : list CartItem;
  o_totalAmount : float;
  o_status : OrderStatus;
  o_payment : option Payment;
  o_createdAt : Z;
  o_updatedAt : Z
}.

Record Table := {
  t_id : string;
  t_number : Z;
  t_capacity : Z;
  t_location : string
}.

Record Reservation := { r_id : string; r_tableNumber : Z }.

Record MenuItem := {
  m_id : string;
  m_name : string;
  m_category : string;
  m_price : float
}.

Inductive TableStatusType := AVAILABLE | SEATED | ACTIVE_ORDER | OPEN_BILL.

#[global] Instance TableStatusType_eq_dec : EqDecision TableStatusType.
Proof. solve_decision. Defined.

(** [o.payment?.status] *)
Definition paymentStatus (o : Order) : option PaymentStatus :=
  pay_status <$> o_payment o.

(** [o.payment?.amount ?? o.totalAmount ?? 0]: the amount of the payment
    record, the order total when there is none. *)
Definition amountOf (o : Order) : float :=
  match o_payment o with
  | Some p => pay_amount p
  | None => o_totalAmount o
  end.

(** [xs.reduce((sum, x) => sum + f(x), 0)]: the amounts are added as the
    doubles they are, from the left. *)
Definition reduceSum {A} (f : A → float) (xs : list A) : float :=
  foldl (λ sum x, (sum + f x)%float) 0%float xs.

(** ** The grid with reservations: [processTableData] *)

Module Grid.

Record TableStatus := {
  table : Table;
  hasActiveOrder : bool;
  orderAmount : option float;
  isOpenBill : bool;
  isSeated : bool;
  statusType : TableStatusType
}.

Record GridStats := {
  totalTables : nat;
  available : nat;
  occupied : nat;
  openBills : nat;
  totalRevenue : float
}.

Record Processed := { tableStatuses : list TableStatus; stats : GridStats }.

(** [for (const r of reservations) seatedMap.set(r.tableNumber, true)] *)
Definition seatedMapOf (reservations : list Reservation) : gmap Z bool :=
  foldl (λ m r, <[r_tableNumber r := true]> m) ∅ reservations.

(** The grouping loop: fetch the table's array (or a fresh one), push the
    order, store the array back. *)
Definition ordersMapOf (orders : list Order) : gmap Z (list Order) :=
  foldl
    (λ m o,
       let tableOrders := default [] (m !! o_tableNumber o) in
       <[o_tableNumber o := tableOrders ++ [o]]> m)
    ∅ orders.

Definition activeStatus (o : Order) : Prop :=
  o_status o ≠ cancelled ∧ o_status o ≠ delivered.

Definition notPaid (o : Order) : Prop := paymentStatus o ≠ Some paid.

Definition isPaid (o : Order) : Prop := paymentStatus o = Some paid.

(** The callback of [tables.map]. *)
Definition tableStatusOf
    (seatedMap : gmap Z bool) (ordersMap : gmap Z (list Order))
    (tbl : Table) : TableStatus :=
  let tableOrders := default [] (ordersMap !! t_number tbl) in
  let hasActiveOrder := bool_decide (Exists activeStatus tableOrders) in
  let isOpenBill := bool_decide (Exists notPaid tableOrders) in
  let unpaidAmount := reduceSum amountOf (filter notPaid tableOrders) in
  let isSeated := default false (seatedMap !! t_number tbl) in
  let statusType :=
    if isOpenBill then OPEN_BILL
    else if hasActiveOrder then ACTIVE_ORDER
    else if isSeated then SEATED
    else AVAILABLE in
  {| table := tbl;
     hasActiveOrder := hasActiveOrder;
     isOpenBill := isOpenBill;
     isSeated := isSeated;
     statusType := statusType;
     orderAmount :=
       if (0 <? unpaidAmount)%float then Some unpaidAmount else None |}.

Definition processTableData
    (tables : list Table) (orders : list Order)
    (reservations : list Reservation) : Processed :=
  let seatedMap := seatedMapOf reservations in
  let ordersMap := ordersMapOf orders in
  let tableStatuses := tableStatusOf seatedMap ordersMap <$> tables in
  let totalTables := length tables in
  let available :=
    length (filter (λ t, statusType t = AVAILABLE) tableStatuses) in
  let occupied := totalTables - available in
  let openBills :=
    length (filter (λ t, statusType t = OPEN_BILL) tableStatuses) in
  let totalRevenue := reduceSum amountOf (filter isPaid orders) in
  {| tableStatuses := tableStatuses;
     stats := {| totalTables := totalTables;
                 available := available;
                 occupied := occupied;
                 openBills := openBills;
                 totalRevenue := totalRevenue |} |}.

End Grid.

(** ** The simpler grid: [calculateTableStatuses] and [calculateStats] *)

(** [Array.prototype.sort] with a comparator: a stable sort that puts [x]
    before [y] unless [cmp x y] is positive. *)
Fixpoint insertBy {A} (cmp : A → A → Z) (x : A) (l : list A) : list A :=
  match l with
  | [] => [x]
  | y :: l' =>
      if bool_decide (cmp x y ≤ 0)%Z then x :: y :: l'
      else y :: insertBy cmp x l'
  end.

Definition Array_sort {A} (cmp : A → A → Z) (l : list A) : list A :=
  foldr (insertBy cmp) [] l.

Module SimpleGrid.

Record SimpleTableStatus := {
  table : Table;
  hasActiveOrder : bool;
  orderAmount : option float;
  isOpenBill : bool;
  isSeated : bool;
  statusType : TableStatusType
}.

Record SimpleStats := {
  totalTables : nat;
  available : nat;
  occupied : nat;
  openBills : nat;
  totalRevenue : float
}.

(** The callback of the first [orders.filter]. *)
Definition keepsOrder (tbl : Table) (order : Order) : bool :=
  if bool_decide (o_tableNumber order ≠ t_number tbl) then false
  else if bool_decide (o_status order = delivered
                       ∧ paymentStatus order = Some paid) then false
  else bool_decide (o_status order ∈ [pending; confirmed; preparing])
       || bool_decide (o_status order = delivered).

Definition tableOrdersOf (tbl : Table) (orders : list Order) : list Order :=
  filter (λ o, keepsOrder tbl o = true) orders.

(** [(a, b) => b.createdAt.getTime() - a.createdAt.getTime()] *)
Definition newestFirst (a b : Order) : Z := (o_createdAt b - o_createdAt a)%Z.

(** [tableOrders.sort(...)[0]] *)
Definition activeOrderOf (tbl : Table) (orders : list Order) : option Order :=
  head (Array_sort newestFirst (tableOrdersOf tbl orders)).

(** [2 * 60 * 60 * 1000] *)
Definition TWO_HOURS : Z := 2 * 60 * 60 * 1000.

(** The callback of the second [orders.filter]; [now] is the reading of
    [Date.now()]. *)
Definition recentPaidOrder (now : Z) (tbl : Table) (o : Order) : Prop :=
  o_tableNumber o = t_number tbl
  ∧ o_status o = delivered
  ∧ paymentStatus o = Some paid
  ∧ (now - o_createdAt o < TWO_HOURS)%Z.

#[global] Instance recentPaidOrder_dec now tbl o :
  Decision (recentPaidOrder now tbl o).
Proof. unfold recentPaidOrder. apply _. Defined.

(** [activeOrder?.status === "delivered" &&
     (activeOrder.payment?.status === "unpaid" ||
      activeOrder.payment?.status === "partial")] *)
Definition openBillOrder (activeOrder : option Order) : bool :=
  match activeOrder with
  | None => false
  | Some a =>
      bool_decide (o_status a = delivered)
      && (bool_decide (paymentStatus a = Some unpaid)
          || bool_decide (paymentStatus a = Some partial))
  end.

(** The callback of [tables.map]. *)
Definition simpleStatusOf (now : Z) (orders : list Order) (tbl : Table)
    : SimpleTableStatus :=
  let activeOrder := activeOrderOf tbl orders in
  let isOpenBill := openBillOrder activeOrder in
  let hasActiveOrder := bool_decide (is_Some activeOrder) && negb isOpenBill in
  let recentPaid := filter (recentPaidOrder now tbl) orders in
  let isSeated :=
    negb hasActiveOrder && negb isOpenBill
    && bool_decide (0 < length recentPaid) in
  let statusType :=
    if isOpenBill then OPEN_BILL
    else if hasActiveOrder then ACTIVE_ORDER
    else if isSeated then SEATED
    else AVAILABLE in
  {| table := tbl;
     hasActiveOrder := hasActiveOrder;
     orderAmount := o_totalAmount <$> activeOrder;
     isOpenBill := isOpenBill;
     isSeated := isSeated;
     statusType := statusType |}.

Definition calculateTableStatuses
    (now : Z) (tables : list Table) (orders : list Order)
    : list SimpleTableStatus :=
  simpleStatusOf now orders <$> tables.

(** [s.orderAmount || 0]: zero for a missing amount and for the amounts that
    are falsy, zero itself and NaN. *)
Definition amountOrZero (a : option float) : float :=
  match a with
  | Some x => if (x =? 0)%float || is_nan x then 0%float else x
  | None => 0%float
  end.

Definition occupiedStatus (s : SimpleTableStatus) : Prop :=
  hasActiveOrder s || isSeated s = true.

Definition calculateStats (statuses : list SimpleTableStatus) : SimpleStats :=
  {| totalTables := length statuses;
     occupied := length (filter occupiedStatus statuses);
     available := length statuses - length (filter occupiedStatus statuses);
     openBills := length (filter (λ s, isOpenBill s = true) statuses);
     totalRevenue := reduceSum (λ s, amountOrZero (orderAmount s)) statuses |}.

End SimpleGrid.

(** ** A state monad for the event handlers *)

Definition Handler (S A : Type) : Type := S → A * S.

#[global] Instance Handler_ret S : MRet (Handler S) := λ A a s, (a, s).

#[global] Instance Handler_bind S : MBind (Handler S) :=
  λ A B k c s, let '(a, s') := c s in k a s'.

Definition modify {S} (f : S → S) : Handler S unit := λ s, (tt, f s).

Definition when {S} (b : bool) (c : Handler S unit) : Handler S unit :=
  if b then c else mret tt.

(** The state a handler leaves behind. *)
Definition exec {S A} (c : Handler S A) (s : S) : S := (c s).2.

(** ** Order management: transitions, delete, loyalty verification *)

(** Modelled from the spec: [services/orderService] is not part of the
    sources at hand.  A call either fails with a message (the promise
    rejects) or succeeds; the writes return the new store. *)
Module OrderService.

Record OrderStats := {
  pendingOrders : nat;
  preparingOrders : nat;
  readyOrders : nat;
  deliveredOrders : nat;
  cancelledOrders : nat;
  unpaidRevenue : float;
  paidRevenue : float
}.

Class API (Store Filters : Type) := {
  getOrdersWithFilters : Filters → Store → string + list Order;
  getOrderStats : Store → string + OrderStats;
  updateOrderStatus : string → OrderStatus → Store → string + Store;
  deleteOrder : string → Store → string + Store;
  verifyLoyaltyDiscount : string → Store → string + Store
}.

End OrderService.

Module OrderManagement.

Import OrderService.

Inductive TabType := inProgress | completed.

(** A request sent to the backing store. *)
Inductive StoreCall :=
  | CallGetOrders
  | CallGetStats
  | CallUpdateStatus (orderId : string) (newStatus : OrderStatus)
  | CallDelete (orderId : string)
  | CallVerifyLoyalty (orderId : string).

(** What a handler does besides changing the component state, in order. *)
Inductive Effect :=
  | ToastError (msg : string)
  | ToastSuccess (msg : string)
  | ConsoleLog (msg : string)
  | ConsoleError (msg : string)
  | Confirm (question : string) (answer : bool)
  | Store_call (c : StoreCall).

Definition isStoreCall (e : Effect) : Prop :=
  match e with Store_call _ => True | _ => False end.

Definition MSG_BUSY : string :=
  "Bitte warten Sie, bis die vorherige Aktion abgeschlossen ist".
Definition MSG_NOT_DELETABLE : string :=
  "Bestätigte, in Bearbeitung befindliche oder erledigte Bestellungen können nicht gelöscht werden".
Definition MSG_CONFIRM_DELETE : string :=
  "Sind Sie sicher, dass Sie diese Bestellung löschen möchten?".
Definition MSG_CONFIRM_DELETE_AGAIN : string := "Bestellung wirklich löschen?".
Definition MSG_STATUS_UPDATED : string :=
  "Bestellstatus erfolgreich aktualisiert".
Definition MSG_STATUS_FAILED : string :=
  "Fehler beim Aktualisieren des Bestellstatus".
Definition MSG_DELETED : string := "Bestellung erfolgreich gelöscht".
Definition MSG_DELETE_FAILED : string := "Fehler beim Löschen der Bestellung".
Definition MSG_LOYALTY_OK : string := "Loyalty Rabatt bestätigt".
Definition MSG_LOYALTY_FAILED : string :=
  "Fehler beim Bestätigen des Loyalty Rabatts".
Definition MSG_LOAD_FAILED : string := "Fehler beim Laden der Bestellungen: ".

(** An asynchronous handler is run to completion: the request it awaits is
    answered before anything else happens.  The [isMounted], [isUpdating] and
    [filters] a handler tests are the ones its closure holds, that is the
    state's values when the handler starts.  [Promise.allSettled] over
    [loadOrders()] and [loadStats()] runs the two loads one after the other;
    they touch different state hooks. *)
Section Component.

Context {Store Filters : Type} `{!API Store Filters}.

(** The component's state hooks, the backing store, the effects so far and
    the answers the user will give to [window.confirm]. *)
Record State := {
  orders : list Order;
  stats : option OrderStats;
  loading : bool;
  filters : Filters;
  activeTab : TabType;
  isMounted : bool;
  isUpdating : bool;
  store : Store;
  effects : list Effect;
  answers : list bool
}.

Definition setOrders (v : list Order) (s : State) : State :=
  {| orders := v; stats := stats s; loading := loading s;
     filters := filters s; activeTab := activeTab s;
     isMounted := isMounted s; isUpdating := isUpdating s;
     store := store s; effects := effects s; answers := answers s |}.

Definition setStats (v : option OrderStats) (s : State) : State :=
  {| orders := orders s; stats := v; loading := loading s;
     filters := filters s; activeTab := activeTab s;
     isMounted := isMounted s; isUpdating := isUpdating s;
     store := store s; effects := effects s; answers := answers s |}.

Definition setLoading (v : bool) (s : State) : State :=
  {| orders := orders s; stats := stats s; loading := v;
     filters := filters s; activeTab := activeTab s;
     isMounted := isMounted s; isUpdating := isUpdating s;
     store := store s; effects := effects s; answers := answers s |}.

Definition setIsUpdating (v : bool) (s : State) : State :=
  {| orders := orders s; stats := stats s; loading := loading s;
     filters := filters s; activeTab := activeTab s;
     isMounted := isMounted s; isUpdating := v;
     store := store s; effects := effects s; answers := answers s |}.

Definition setStore (v : Store) (s : State) : State :=
  {| orders := orders s; stats := stats s; loading := loading s;
     filters := filters s; activeTab := activeTab s;
     isMounted := isMounted s; isUpdating := isUpdating s;
     store := v; effects := effects s; answers := answers s |}.

Definition setEffects (v : list Effect) (s : State) : State :=
  {| orders := orders s; stats := stats s; loading := loading s;
     filters := filters s; activeTab := activeTab s;
     isMounted := isMounted s; isUpdating := isUpdating s;
     store := store s; effects := v; answers := answers s |}.

Definition setAnswers (v : list bool) (s : State) : State :=
  {| orders := orders s; stats := stats s; loading := loading s;
     filters := filters s; activeTab := activeTab s;
     isMounted := isMounted s; isUpdating := isUpdating s;
     store := store s; effects := effects s; answers := v |}.

Definition emit (e : Effect) : Handler State unit :=
  modify (λ s, setEffects (effects s ++ [e]) s).

Definition toast_error (msg : string) := emit (ToastError msg).
Definition toast_success (msg : string) := emit (ToastSuccess msg).

(** [window.confirm]: the user's next answer; a dialog nobody answers is
    dismissed. *)
Definition window_confirm (question : string) : Handler State bool :=
  λ s,
    let answer := default false (head (answers s)) in
    (answer,
     setEffects (effects s ++ [Confirm question answer])
       (setAnswers (tail (answers s)) s)).

(** A write request: logged, and on success the store changes. *)
Definition storeWrite (c : StoreCall) (run : Store → string + Store)
    : Handler State bool :=
  λ s,
    let s1 := setEffects (effects s ++ [Store_call c]) s in
    match run (store s) with
    | inr store' => (true, setStore store' s1)
    | inl _ => (false, s1)
    end.

(** A read request. *)
Definition storeRead {A} (c : StoreCall) (run : Store → string + A)
    : Handler State (string + A) :=
  λ s, (run (store s), setEffects (effects s ++ [Store_call c]) s).

(** [canDeleteOrder] *)
Definition canDeleteOrder (order : Order) : bool :=
  bool_decide (o_status order = pending).

(** [loadOrders], with the [isMounted] and [filters] its closure holds. *)
Definition loadOrders (mounted : bool) (fs : Filters) : Handler State unit :=
  if negb mounted then mret tt
  else
    emit (ConsoleLog "Loading orders with filters");;
    modify (setLoading true);;
    r ← storeRead CallGetOrders (getOrdersWithFilters fs);
    match r with
    | inr ordersData =>
        emit (ConsoleLog "Orders loaded successfully");;
        modify (setOrders ordersData)
    | inl message =>
        emit (ConsoleError "Error loading orders");;
        toast_error (MSG_LOAD_FAILED +:+ message)
    end;;
    modify (setLoading false).

(** [loadStats] *)
Definition loadStats (mounted : bool) : Handler State unit :=
  if negb mounted then mret tt
  else
    r ← storeRead CallGetStats getOrderStats;
    match r with
    | inr statsData => modify (setStats (Some statsData))
    | inl _ => emit (ConsoleError "Error loading stats")
    end.

(** The part the three handlers share once the busy flag is taken: the
    write, then on success the toast or log entry and the reload of orders
    and stats, on failure the error toast, and last the release of the
    flag.  [mounted] and [fs] are the values the handler's closure holds. *)
Definition guardedWrite (mounted : bool) (fs : Filters)
    (c : StoreCall) (run : Store → string + Store)
    (onSuccess : Effect) (failLog failToast : string) : Handler State unit :=
  modify (setIsUpdating true);;
  storeWrite c run ≫= λ ok : bool,
  (if ok then
     when mounted
       (emit onSuccess;; loadOrders mounted fs;; loadStats mounted)
   else
     when mounted (emit (ConsoleError failLog);; toast_error failToast));;
  when mounted (modify (setIsUpdating false)).

(** [updateOrderStatus] *)
Definition updateOrderStatus (orderId : string) (newStatus : OrderStatus)
    : Handler State unit :=
  λ s,
    if isUpdating s then toast_error MSG_BUSY s
    else
      guardedWrite (isMounted s) (filters s)
        (CallUpdateStatus orderId newStatus)
        (OrderService.updateOrderStatus orderId newStatus)
        (ToastSuccess MSG_STATUS_UPDATED)
        "Error updating order status" MSG_STATUS_FAILED s.

(** [deleteOrder] *)
Definition deleteOrder (orderId : string) : Handler State unit :=
  λ s,
    match List.find (λ o, bool_decide (o_id o = orderId)) (orders s) with
    | None => (tt, s)
    | Some order =>
        if negb (canDeleteOrder order) then toast_error MSG_NOT_DELETABLE s
        else
          (window_confirm MSG_CONFIRM_DELETE ≫= λ sure : bool,
           if negb sure then mret tt
           else if isUpdating s then toast_error MSG_BUSY
           else
             window_confirm MSG_CONFIRM_DELETE_AGAIN ≫= λ really : bool,
             if negb really then mret tt
             else
               guardedWrite (isMounted s) (filters s)
                 (CallDelete orderId) (OrderService.deleteOrder orderId)
                 (ToastSuccess MSG_DELETED)
                 "Error deleting order" MSG_DELETE_FAILED) s
    end.

(** [verifyLoyaltyDiscount] *)
Definition verifyLoyaltyDiscount (orderId : string) : Handler State unit :=
  λ s,
    if isUpdating s then toast_error MSG_BUSY s
    else
      guardedWrite (isMounted s) (filters s)
        (CallVerifyLoyalty orderId)
        (OrderService.verifyLoyaltyDiscount orderId)
        (ConsoleLog MSG_LOYALTY_OK)
        "Error verifying loyalty discount" MSG_LOYALTY_FAILED s.

(** The buttons of an order row: the in-progress tab offers delete for a
    pending order, the completed tab offers it for a cancelled one; both
    call [deleteOrder]. *)
Definition deleteButtonShown (tab : TabType) (order : Order) : bool :=
  match tab with
  | inProgress =>
      bool_decide (o_status order = pending) && canDeleteOrder order
  | completed => bool_decide (o_status order = cancelled)
  end.

(** What a refused request leaves behind: the state as it was, with one
    error toast more. *)
Definition refusedWith (msg : string) (s s' : State) : Prop :=
  s' = setEffects (effects s ++ [ToastError msg]) s.

(** Delete on [order] is refused by the guard. *)
Definition deleteRefused (s : State) (order : Order) : Prop :=
  refusedWith MSG_NOT_DELETABLE s (exec (deleteOrder (o_id order)) s).

(** A handler that only ever adds to the record of effects. *)
Definition grows {A} (c : Handler State A) : Prop :=
  ∀ s, ∃ es, effects (c s).2 = effects s ++ es.

End Component.

Arguments State : clear implicits.

End OrderManagement.

(** ** Bar operations: the categorisation of open orders *)

Module BarOperations.

(** [JSON.stringify] on the array of [{id, status, updatedAt}] records is a
    built-in of the runtime; the model takes it as given. *)
Class JSON := { JSON_stringify : list (string * OrderStatus * Z) → string }.

(** [CATEGORIES] *)
Definition DRINKS : gset string := {[ "drinks"; "beverages" ]}.
Definition SHISHA : gset string := {[ "shisha"; "hookah"; "tobacco" ]}.

(** [{...order, currentItem: {...orderItem, ...menuItem}}]: the order
    together with the line item and the menu item spread over it. *)
Record OrderWithItem := {
  owi_order : Order;
  currentItem : CartItem * MenuItem
}.

(** The component's state hooks and refs, the timers it has set and the
    warnings it has written to the console. *)
Record State := {
  drinkOrders : list OrderWithItem;
  shishaOrders : list OrderWithItem;
  isProcessingRef : bool;
  lastProcessedOrdersRef : string;
  timers : list nat;
  warnings : list string
}.

(** The first render: empty lists, nothing processed yet. *)
Definition initialState : State :=
  {| drinkOrders := []; shishaOrders := []; isProcessingRef := false;
     lastProcessedOrdersRef := ""; timers := []; warnings := [] |}.

(** [new Map(menuItems.map((item) => [item.id, item]))]: a later item
    replaces an earlier one with the same id. *)
Definition menuItemsMapOf (menuItems : list MenuItem) : gmap string MenuItem :=
  foldl (λ m item, <[m_id item := item]> m) ∅ menuItems.

(** The two arrays the loops push to, and the console. *)
Record Buckets := {
  drinks : list OrderWithItem;
  shisha : list OrderWithItem;
  warned : list string
}.

(** The body of the inner [forEach]. *)
Definition categorizeItem (menuItemsMap : gmap string MenuItem)
    (order : Order) (acc : Buckets) (orderItem : CartItem) : Buckets :=
  match menuItemsMap !! menuItemId orderItem with
  | Some menuItem =>
      let orderWithMenuItem :=
        {| owi_order := order; currentItem := (orderItem, menuItem) |} in
      if bool_decide (m_category menuItem ∈ DRINKS) then
        {| drinks := drinks acc ++ [orderWithMenuItem];
           shisha := shisha acc; warned := warned acc |}
      else if bool_decide (m_category menuItem ∈ SHISHA) then
        {| drinks := drinks acc;
           shisha := shisha acc ++ [orderWithMenuItem]; warned := warned acc |}
      else acc
  | None =>
      {| drinks := drinks acc; shisha := shisha acc;
         warned := warned acc ++ [menuItemId orderItem] |}
  end.

(** The two nested [forEach] loops. *)
Definition categorize (menuItemsMap : gmap string MenuItem)
    (orders : list Order) : Buckets :=
  foldl
    (λ acc order, foldl (categorizeItem menuItemsMap order) acc (o_items order))
    {| drinks := []; shisha := []; warned := [] |} orders.

(** [orders.map((o) => ({id: o.id, status: o.status, updatedAt: o.updatedAt}))] *)
Definition fingerprintOf (orders : list Order)
    : list (string * OrderStatus * Z) :=
  (λ o, (o_id o, o_status o, o_updatedAt o)) <$> orders.

Section Processing.

Context `{!JSON}.

(** [JSON.stringify(orders.map((o) => ({id, status, updatedAt})))] *)
Definition ordersHashOf (orders : list Order) : string :=
  JSON_stringify (fingerprintOf orders).

(** [processOrdersWithMenuItems] *)
Definition processOrdersWithMenuItems
    (orders : list Order) (menuItems : list MenuItem) (s : State) : State :=
  if isProcessingRef s then s
  else
    let ordersHash := ordersHashOf orders in
    if bool_decide (ordersHash = lastProcessedOrdersRef s) then s
    else
      let menuItemsMap := menuItemsMapOf menuItems in
      let b := categorize menuItemsMap orders in
      {| isProcessingRef := true;
         lastProcessedOrdersRef := ordersHash;
         drinkOrders := drinks b;
         shishaOrders := shisha b;
         timers := timers s ++ [100];
         warnings := warnings s ++ warned b |}.

End Processing.

(** The callback of the 100 ms timer. *)
Definition timerFires (s : State) : State :=
  {| isProcessingRef := false;
     lastProcessedOrdersRef := lastProcessedOrdersRef s;
     drinkOrders := drinkOrders s; shishaOrders := shishaOrders s;
     timers := tail (timers s); warnings := warnings s |}.

(** [totalOrders] *)
Definition totalOrders (s : State) : nat :=
  length (drinkOrders s) + length (shishaOrders s).

(** What can happen to the component: a snapshot arrives and is handed to
    [processOrdersWithMenuItems] with the menu of the moment, or the timer
    fires. *)
Inductive step `{!JSON} : State → State → Prop :=
  | step_process orders menuItems s :
      step s (processOrdersWithMenuItems orders menuItems s)
  | step_timer s : step s (timerFires s).

(** Every entry of the drinks list is a drink, every entry of the shisha
    list a shisha that is not also a drink. *)
Definition listedOnly (s : State) : Prop :=
  Forall (λ e, m_category (currentItem e).2 ∈ DRINKS) (drinkOrders s)
  ∧ Forall (λ e, m_category (currentItem e).2 ∈ SHISHA
                 ∧ m_category (currentItem e).2 ∉ DRINKS) (shishaOrders s).

(** A line item reaches the drinks list, the shisha list, or neither. *)
Definition drinkItem (menuItemsMap : gmap string MenuItem) (i : CartItem)
    : option MenuItem :=
  m ← menuItemsMap !! menuItemId i;
  guard (m_category m ∈ DRINKS);;
  Some m.

Definition shishaItem (menuItemsMap : gmap string MenuItem) (i : CartItem)
    : option MenuItem :=
  m ← menuItemsMap !! menuItemId i;
  guard (m_category m ∉ DRINKS);;
  guard (m_category m ∈ SHISHA);;
  Some m.

(** The id the console is warned about, for a line item that is not on the
    menu. *)
Definition missingItem (menuItemsMap : gmap string MenuItem) (i : CartItem)
    : option string :=
  match menuItemsMap !! menuItemId i with
  | Some _ => None
  | None => Some (menuItemId i)
  end.

(** The entries of one order that a selection of line items yields. *)
Definition entriesOf_items (pick : CartItem → option MenuItem)
    (order : Order) (items : list CartItem) : list OrderWithItem :=
  omap (λ i, (λ m, {| owi_order := order; currentItem := (i, m) |}) <$> pick i)
       items.

Definition entriesOf (pick : CartItem → option MenuItem) (order : Order)
    : list OrderWithItem :=
  entriesOf_items pick order (o_items order).

End BarOperations.

(** ** Scenario data *)

Definition mkTable (n : Z) : Table :=
  {| t_id := "t"; t_number := n; t_capacity := 4; t_location := "indoor" |}.

Definition mkOrder (id : string) (tbl : Z) (total : float) (st : OrderStatus)
    (pay : option Payment) (created : Z) : Order :=
  {| o_id := id; o_tableNumber := tbl; o_items := []; o_totalAmount := total;
     o_status := st; o_payment := pay; o_createdAt := created;
     o_updatedAt := created |}.

(** Table 3 with one delivered and paid order of 20 and a later pending
    order of 15 that has no payment record. *)
Definition table3 : Table := mkTable 3.

Definition order20 : Order :=
  mkOrder "a" 3 20 delivered
    (Some {| pay_status := paid; pay_amount := 20 |}) 1000.

Definition order15 : Order := mkOrder "b" 3 15 pending None 2000.

(** A ready order of table 3 that is already paid. *)
Definition orderReadyPaid : Order :=
  mkOrder "c" 3 12 ready (Some {| pay_status := paid; pay_amount := 12 |}) 3000.

(** Two delivered orders of table 5 whose payment is still unpaid. *)
Definition unpaid42 : Order :=
  mkOrder "d" 5 42 delivered
    (Some {| pay_status := unpaid; pay_amount := 42 |}) 1000.

Definition unpaid10 : Order :=
  mkOrder "e" 5 10 delivered
    (Some {| pay_status := unpaid; pay_amount := 10 |}) 2000.

(** A cancelled order of table 3. *)
Definition orderCancelled : Order := mkOrder "x" 3 9 cancelled None 500.

(** An in-memory store for the examples: the list of orders itself. *)
Definition countStatus (st : OrderStatus) (os : list Order) : nat :=
  length (filter (λ o, o_status o = st) os).

#[global] Instance memoryStore : OrderService.API (list Order) unit := {|
  OrderService.getOrdersWithFilters := λ _ os, inr os;
  OrderService.getOrderStats := λ os,
    inr {| OrderService.pendingOrders := countStatus pending os;
           OrderService.preparingOrders := countStatus preparing os;
           OrderService.readyOrders := countStatus ready os;
           OrderService.deliveredOrders := countStatus delivered os;
           OrderService.cancelledOrders := countStatus cancelled os;
           OrderService.unpaidRevenue :=
             reduceSum amountOf (filter Grid.notPaid os);
           OrderService.paidRevenue :=
             reduceSum amountOf (filter Grid.isPaid os) |};
  OrderService.updateOrderStatus := λ orderId newStatus os,
    if bool_decide (Exists (λ o, o_id o = orderId) os) then
      inr ((λ o, if bool_decide (o_id o = orderId) then
                   {| o_id := o_id o; o_tableNumber := o_tableNumber o;
                      o_items := o_items o; o_totalAmount := o_totalAmount o;
                      o_status := newStatus; o_payment := o_payment o;
                      o_createdAt := o_createdAt o;
                      o_updatedAt := o_updatedAt o |}
                 else o) <$> os)
    else inl "unknown order";
  OrderService.deleteOrder := λ orderId os,
    inr (filter (λ o, o_id o ≠ orderId) os);
  OrderService.verifyLoyaltyDiscount := λ _ os, inr os
|}.

(** The order management view over that store, on either tab, mounted, with
    or without an operation in flight; the user will confirm both dialogs. *)
Definition viewState (tab : OrderManagement.TabType) (busy : bool)
    : OrderManagement.State (list Order) unit :=
  {| OrderManagement.orders := [order20; order15; orderCancelled];
     OrderManagement.stats := None;
     OrderManagement.loading := false;
     OrderManagement.filters := tt;
     OrderManagement.activeTab := tab;
     OrderManagement.isMounted := true;
     OrderManagement.isUpdating := busy;
     OrderManagement.store := [order20; order15; orderCancelled];
     OrderManagement.effects := [];
     OrderManagement.answers := [true; true] |}.

(** A serialiser for the examples, standing in for [JSON.stringify]. *)
Definition statusName (st : OrderStatus) : string :=
  match st with
  | pending => "pending" | confirmed => "confirmed"
  | preparing => "preparing" | ready => "ready"
  | delivered => "delivered" | cancelled => "cancelled"
  end.

#[global] Instance exampleJSON : BarOperations.JSON := {|
  BarOperations.JSON_stringify := λ records,
    String.concat ";"
      ((λ r : string * OrderStatus * Z,
          r.1.1 +:+ ":" +:+ statusName r.1.2 +:+ ":" +:+ pretty r.2)
         <$> records)
|}.

(** A menu with a drink, a shisha and a dish, and an open order of table 7
    with four line items: the drink, the shisha, the dish, and an item that
    is not on the menu. *)
Definition exampleMenu : list MenuItem :=
  [ {| m_id := "cola"; m_name := "Cola"; m_category := "drinks";
       m_price := 3 |};
    {| m_id := "apple"; m_name := "Double Apple"; m_category := "shisha";
       m_price := 15 |};
    {| m_id := "burger"; m_name := "Burger"; m_category := "food";
       m_price := 9 |} ].

Definition lineItem (ref : string) (n : Z) : CartItem :=
  {| menuItemId := ref; quantity := n; specialInstructions := None |}.

Definition barOrder : Order :=
  {| o_id := "o7"; o_tableNumber := 7;
     o_items := [lineItem "cola" 2; lineItem "apple" 1; lineItem "burger" 1;
                 lineItem "ghost" 1];
     o_totalAmount := 30; o_status := pending; o_payment := None;
     o_createdAt := 100; o_updatedAt := 100 |}.

(** The same order as a later snapshot delivers it: another total, the
    same id, status and update time. *)
Definition barOrderAgain : Order :=
  {| o_id := "o7"; o_tableNumber := 7;
     o_items := [lineItem "cola" 3];
     o_totalAmount := 9; o_status := pending; o_payment := None;
     o_createdAt := 100; o_updatedAt := 100 |}.

(** ** Order management: tabs, row actions and the initial load *)

Module OrderManagementView.

Import OrderService OrderManagement.

#[global] Instance TabType_eq_dec : EqDecision TabType.
Proof. solve_decision. Defined.

(** [inProgressStatuses] and [completedStatuses] *)
Definition inProgressStatuses : list OrderStatus :=
  [pending; confirmed; preparing; ready].
Definition completedStatuses : list OrderStatus := [delivered; cancelled].

(** [getFilteredOrders] *)
Definition getFilteredOrders (activeTab : TabType) (orders : list Order)
    : list Order :=
  let statusesToShow :=
    match activeTab with
    | inProgress => inProgressStatuses
    | completed => completedStatuses
    end in
  filter (λ order, o_status order ∈ statusesToShow) orders.

(** What the buttons of a row do when pressed. *)
Inductive RowAction :=
  | ShowDetails
  | PressTransition (newStatus : OrderStatus)
  | PressDelete.

#[global] Instance RowAction_eq_dec : EqDecision RowAction.
Proof. solve_decision. Defined.

(** [cond && <button/>] *)
Definition shown {A} (cond : bool) (buttons : list A) : list A :=
  if cond then buttons else [].

(** The action column of an order row: the details button, then the buttons
    of the active tab. *)
Definition rowActions (activeTab : TabType) (order : Order) : list RowAction :=
  [ShowDetails]
  ++ shown (bool_decide (activeTab = inProgress))
       (shown (bool_decide (o_status order = pending))
          ([PressTransition confirmed]
           ++ shown (canDeleteOrder order) [PressDelete])
        ++ shown (bool_decide (o_status order = confirmed))
             [PressTransition preparing]
        ++ shown (bool_decide (o_status order = preparing))
             [PressTransition ready]
        ++ shown (bool_decide (o_status order = ready))
             [PressTransition delivered])
  ++ shown (bool_decide (activeTab = completed))
       (shown (bool_decide (o_status order = cancelled)) [PressDelete]).

(** [getTotalItems] *)
Definition getTotalItems (order : Order) : Z :=
  foldl (λ total item, (total + quantity item)%Z) 0%Z (o_items order).

(** [getTabStats] *)
Definition getTabStats (stats : option OrderStats) (activeTab : TabType)
    : nat * float :=
  match stats with
  | None => (0, 0%float)
  | Some stats =>
      match activeTab with
      | inProgress =>
          (pendingOrders stats + preparingOrders stats + readyOrders stats,
           unpaidRevenue stats)
      | completed =>
          (deliveredOrders stats + cancelledOrders stats, paidRevenue stats)
      end
  end.

Definition MSG_LOAD_ORDERS_FAILED : string :=
  "Fehler beim Laden der Bestellungen".

Section Component.

Context {Store Filters : Type} `{!API Store Filters}.

(** The effect that loads orders and stats when the component mounts or the
    filters change: both requests are sent, then each answer is handled on
    its own ([Promise.allSettled]). *)
Definition loadData : Handler (State Store Filters) unit :=
  λ s,
    if negb (isMounted s) then (tt, s)
    else
      (modify (setLoading true);;
       storeRead CallGetOrders (getOrdersWithFilters (filters s))
         ≫= λ ordersData : string + list Order,
       storeRead CallGetStats getOrderStats
         ≫= λ statsData : string + OrderStats,
       match ordersData with
       | inr value =>
           emit (ConsoleLog "Orders loaded successfully");;
           modify (setOrders value)
       | inl _ =>
           emit (ConsoleError "Error loading orders");;
           toast_error MSG_LOAD_ORDERS_FAILED
       end;;
       match statsData with
       | inr value => modify (setStats (Some value))
       | inl _ => emit (ConsoleError "Error loading stats")
       end;;
       modify (setLoading false)) s.

(** The handler a row action runs. *)
Definition press (order : Order) (a : RowAction)
    : Handler (State Store Filters) unit :=
  match a with
  | ShowDetails => mret tt
  | PressTransition newStatus =>
      OrderManagement.updateOrderStatus (o_id order) newStatus
  | PressDelete => OrderManagement.deleteOrder (o_id order)
  end.

(** Delete goes ahead to the store: the order is in the list and pending,
    nothing is in flight, and the user confirms both dialogs. *)
Definition deleteGoesAhead (orderId : string) (s : State Store Filters)
    : Prop :=
  ∃ order rest,
    List.find (λ o, bool_decide (o_id o = orderId)) (orders s) = Some order
    ∧ o_status order = pending
    ∧ isUpdating s = false
    ∧ answers s = true :: true :: rest.

(** The orders and the stats after a reload against [st]: the fresh ones
    when the request succeeds, the ones held before when it fails. *)
Definition reloadedOrders (fs : Filters) (st : Store) (held : list Order)
    : list Order :=
  match getOrdersWithFilters fs st with
  | inr fresh => fresh
  | inl _ => held
  end.

Definition reloadedStats (st : Store) (held : option OrderStats)
    : option OrderStats :=
  match getOrderStats st with
  | inr fresh => Some fresh
  | inl _ => held
  end.

(** The state [s'] a successful write leaves behind when it started in [s]
    and the store answered with [st]: the new store, orders and stats
    reloaded against it, the busy and loading flags down. *)
Definition refreshedAgainst (st : Store) (s s' : State Store Filters)
    : Prop :=
  store s' = st
  ∧ orders s' = reloadedOrders (filters s) st (orders s)
  ∧ stats s' = reloadedStats st (stats s)
  ∧ isUpdating s' = false
  ∧ loading s' = false.

(** A handler that leaves one reading of the state as it is. *)
Definition keeps {A X} (f : State Store Filters → X)
    (c : Handler (State Store Filters) A) : Prop :=
  ∀ s, f (c s).2 = f s.

End Component.

(** Modelled from the spec: the lifecycle pending, confirmed, preparing,
    ready, delivered, one step at a time; delivered and cancelled are
    final. *)
Definition nextStatus (st : OrderStatus) : option OrderStatus :=
  match st with
  | pending => Some confirmed
  | confirmed => Some preparing
  | preparing => Some ready
  | ready => Some delivered
  | delivered | cancelled => None
  end.

(** The statistics count the held orders by status. *)
Definition countsOf (stats : OrderStats) (orders : list Order) : Prop :=
  pendingOrders stats = countStatus pending orders
  ∧ preparingOrders stats = countStatus preparing orders
  ∧ readyOrders stats = countStatus ready orders
  ∧ deliveredOrders stats = countStatus delivered orders
  ∧ cancelledOrders stats = countStatus cancelled orders.

End OrderManagementView.

(** ** The grid component around [processTableData] *)

Module LiveGrid.

(** What a rejected request hands to [catch (e: unknown)]. *)
Inductive Thrown :=
  | ErrorObject (message : string)
  | StringValue (s : string)
  | ObjectWithMessage (message : string)
  | OtherValue.

Definition MSG_LOAD_FAILED : string := "Fehler beim Laden der Daten".

(** [handleError] *)
Definition handleError (e : Thrown) : string :=
  match e with
  | ErrorObject message => message
  | StringValue s => s
  | ObjectWithMessage message => message
  | OtherValue => MSG_LOAD_FAILED
  end.

Record GridState := {
  loading : bool;
  error : option string;
  tables : list Table;
  ordersToday : list Order;
  seatedReservations : list Reservation;
  stats : Grid.GridStats;
  tableStatuses : list Grid.TableStatus;
  lastUpdated : option Z
}.

(** The argument of [useState]. *)
Definition initialState : GridState :=
  {| loading := true;
     error := None;
     tables := [];
     ordersToday := [];
     seatedReservations := [];
     stats := {| Grid.totalTables := 0; Grid.available := 0;
                 Grid.occupied := 0; Grid.openBills := 0;
                 Grid.totalRevenue := 0 |};
     tableStatuses := [];
     lastUpdated := None |}.

(** What the three requests of [Promise.all] resolve to. *)
Record Fetched := {
  f_tables : list Table;
  f_orders : list Order;
  f_seated : list Reservation
}.

(** The three state updates of [loadData]: the one before the requests, the
    one after they all resolved (at clock reading [now]) and the one of the
    [catch] branch. *)
Definition loadStarted (prev : GridState) : GridState :=
  {| loading := true;
     error := None;
     tables := tables prev;
     ordersToday := ordersToday prev;
     seatedReservations := seatedReservations prev;
     stats := stats prev;
     tableStatuses := tableStatuses prev;
     lastUpdated := lastUpdated prev |}.

Definition loadSucceeded (f : Fetched) (now : Z) (prev : GridState)
    : GridState :=
  let processedData :=
    Grid.processTableData (f_tables f) (f_orders f) (f_seated f) in
  {| loading := false;
     error := error prev;
     tables := f_tables f;
     ordersToday := f_orders f;
     seatedReservations := f_seated f;
     stats := Grid.stats processedData;
     tableStatuses := Grid.tableStatuses processedData;
     lastUpdated := Some now |}.

Definition loadFailed (e : Thrown) (prev : GridState) : GridState :=
  {| loading := false;
     error := Some (handleError e);
     tables := tables prev;
     ordersToday := ordersToday prev;
     seatedReservations := seatedReservations prev;
     stats := stats prev;
     tableStatuses := tableStatuses prev;
     lastUpdated := lastUpdated prev |}.

(** [loadData] waits for the requests between its first update and its
    second, and loads may overlap (the refresh button, the interval): between
    the two updates of one call those of other calls may run. *)
Inductive step : GridState → GridState → Prop :=
  | load_starts s : step s (loadStarted s)
  | load_succeeds f now s : step s (loadSucceeded f now s)
  | load_fails e s : step s (loadFailed e s).


(** What the component renders. *)
Inductive View :=
  | LoadingView
  | ErrorView (description : string)
  | EmptyView
  | GridView (st : Grid.GridStats) (cards : list Grid.TableStatus)
             (updated : option Z).

(** The part of the render below the early returns for loading and error. *)
Definition renderData (s : GridState) : View :=
  if bool_decide (length (tables s) = 0) then EmptyView
  else GridView (stats s) (tableStatuses s) (lastUpdated s).

(** [state.error] as a condition: [null] and the empty string are falsy. *)
Definition render (s : GridState) : View :=
  if loading s then LoadingView
  else
    match error s with
    | Some description =>
        if bool_decide (description = "") then renderData s
        else ErrorView description
    | None => renderData s
    end.

(** What is drawn for the data of a load that succeeded at [now]. *)
Definition fresh (f : Fetched) (now : Z) : View :=
  let processedData :=
    Grid.processTableData (f_tables f) (f_orders f) (f_seated f) in
  if bool_decide (length (f_tables f) = 0) then EmptyView
  else GridView (Grid.stats processedData)
         (Grid.tableStatuses processedData) (Some now).

(** The stored cards and stats are those of the stored snapshot. *)
Definition consistent (s : GridState) : Prop :=
  let processedData :=
    Grid.processTableData (tables s) (ordersToday s) (seatedReservations s) in
  tableStatuses s = Grid.tableStatuses processedData
  ∧ stats s = Grid.stats processedData.

End LiveGrid.

(** ** The simpler grid: the order of the cards *)

Module SimpleGridView.

Import SimpleGrid.

(** [(a, b) => a.table.number - b.table.number] *)
Definition byTableNumber (a b : SimpleTableStatus) : Z :=
  (t_number (table a) - t_number (table b))%Z.

(** [tableStatuses.sort(...)], the array the cards are drawn from. *)
Definition cards (now : Z) (tables : list Table) (orders : list Order)
    : list SimpleTableStatus :=
  Array_sort byTableNumber (calculateTableStatuses now tables orders).

End SimpleGridView.

(** ** The bar view: priorities, card buttons and the per-order lock *)

Module BarControls.

Inductive Priority := urgent | high | normal.

#[global] Instance Priority_eq_dec : EqDecision Priority.
Proof. solve_decision. Defined.

(** [Math.floor((now.getTime() - orderTime.getTime()) / (1000 * 60))];
    [orderTime] is the date [safeToDateWithFallback] returns. *)
Definition diffMinutes (now orderTime : Z) : Z :=
  ((now - orderTime) `div` (1000 * 60))%Z.

(** [getOrderPriority] *)
Definition getOrderPriority (now orderTime : Z) : Priority :=
  let diffMinutes := diffMinutes now orderTime in
  if bool_decide (20 < diffMinutes)%Z then urgent
  else if bool_decide (10 < diffMinutes)%Z then high
  else normal.

(** How pressing a priority is: [normal], then [high], then [urgent]. *)
Definition pressure (p : Priority) : nat :=
  match p with normal => 0 | high => 1 | urgent => 2 end.

(** The two buttons of an order card. *)
Inductive CardButton := StartPreparing | Complete.


(** The status the handler behind a button asks the store for. *)
Definition requested (b : CardButton) : OrderStatus :=
  match b with StartPreparing => preparing | Complete => ready end.

Inductive Effect :=
  | UpdateOrderStatus (orderId : string) (newStatus : OrderStatus)
  | ToastSuccess (msg : string)
  | ToastError (msg : string)
  | ConsoleError (msg : string).

Definition MSG_COMPLETED : string := "Bestellung abgeschlossen".
Definition MSG_COMPLETE_FAILED : string :=
  "Fehler beim Abschließen der Bestellung".
Definition MSG_STARTED : string := "Zubereitung gestartet".
Definition MSG_START_FAILED : string := "Fehler beim Starten der Zubereitung".

(** A request that has been sent and not yet answered: the handler waits at
    its [await]. *)
Record Request := { button : CardButton; orderId : string }.

(** [completingOrders], the requests in flight and the effects so far. *)
Record Controls := {
  completingOrders : gset string;
  inFlight : list Request;
  effects : list Effect
}.

Definition initialControls : Controls :=
  {| completingOrders := ∅; inFlight := []; effects := [] |}.

(** A handler up to its [await]: the guard, the lock, the request. *)
Definition pressed (b : CardButton) (id : string) (s : Controls) : Controls :=
  if bool_decide (id ∈ completingOrders s) then s
  else
    {| completingOrders := completingOrders s ∪ {[ id ]};
       inFlight := inFlight s ++ [{| button := b; orderId := id |}];
       effects := effects s ++ [UpdateOrderStatus id (requested b)] |}.

(** [handleCompleteItem] and [handleStartPreparing], up to the [await]. *)
Definition handleCompleteItem (id : string) : Controls → Controls :=
  pressed Complete id.
Definition handleStartPreparing (id : string) : Controls → Controls :=
  pressed StartPreparing id.

(** The rest of a handler, once the store has answered its request (the
    [i]th in flight): the toast, or the console entry and the error toast,
    and in either case the release of the lock. *)
Definition answered (i : nat) (ok : bool) (s : Controls) : Controls :=
  match inFlight s !! i with
  | None => s
  | Some r =>
      {| completingOrders := completingOrders s ∖ {[ orderId r ]};
         inFlight := delete i (inFlight s);
         effects :=
           effects s
           ++ match button r, ok with
              | Complete, true => [ToastSuccess MSG_COMPLETED]
              | Complete, false =>
                  [ConsoleError "Error completing order";
                   ToastError MSG_COMPLETE_FAILED]
              | StartPreparing, true => [ToastSuccess MSG_STARTED]
              | StartPreparing, false =>
                  [ConsoleError "Error starting preparation";
                   ToastError MSG_START_FAILED]
              end |}
  end.

(** Presses and answers in any order. *)
Inductive step : Controls → Controls → Prop :=
  | press b id s : step s (pressed b id s)
  | answer i ok s : is_Some (inFlight s !! i) → step s (answered i ok s).

(** The orders with a request in flight. *)
Definition busy (s : Controls) : list string := orderId <$> inFlight s.

(** The lock is exact: an order is locked if and only if a request for it is
    in flight, and no order has two. *)
Definition locked_iff_busy (s : Controls) : Prop :=
  NoDup (busy s) ∧ ∀ id, id ∈ completingOrders s ↔ id ∈ busy s.

End BarControls.

(** ** The bar view: the debounced realtime listener *)

Module RealtimeListener.

(** [300], the delay of the debounce in milliseconds. *)
Definition DEBOUNCE : Z := 300.

Definition MSG_REALTIME_FAILED : string :=
  "Fehler bei der Echtzeitaktualisierung".

(** A pending [setTimeout]: when it is due and the orders its closure
    holds. *)
Record Timer := { due : Z; held : list Order }.

(** The two variables of the effect's closure, [isSubscribed] and
    [debounceTimeout]; the timers pending in the event loop, by handle, and
    the number of handles given out; the clock; and the record of what
    happened: the snapshots taken in, the calls of [callback] with their
    times, the toasts. *)
Record Listener := {
  isSubscribed : bool;
  debounceTimeout : option nat;
  timers : gmap nat Timer;
  handles : nat;
  clock : Z;
  received : list (Z * list Order);
  delivered : list (Z * list Order);
  toasts : list string
}.

(** The effect has just run: subscribed, no timer. *)
Definition subscribed : Listener :=
  {| isSubscribed := true; debounceTimeout := None; timers := ∅;
     handles := 0; clock := 0; received := []; delivered := [];
     toasts := [] |}.

(** [if (debounceTimeout) clearTimeout(debounceTimeout)]: a handle that has
    fired already clears nothing. *)
Definition clearTimeout (h : option nat) (pending : gmap nat Timer)
    : gmap nat Timer :=
  match h with
  | Some h => delete h pending
  | None => pending
  end.

(** The snapshot callback, run at time [t] with the orders of the
    snapshot. *)
Definition onSnapshot (t : Z) (orders : list Order) (s : Listener)
    : Listener :=
  if negb (isSubscribed s) then
    {| isSubscribed := isSubscribed s; debounceTimeout := debounceTimeout s;
       timers := timers s; handles := handles s; clock := t;
       received := received s; delivered := delivered s;
       toasts := toasts s |}
  else
    {| isSubscribed := isSubscribed s;
       debounceTimeout := Some (handles s);
       timers :=
         <[handles s := {| due := t + DEBOUNCE; held := orders |}]>
           (clearTimeout (debounceTimeout s) (timers s));
       handles := S (handles s);
       clock := t;
       received := received s ++ [(t, orders)];
       delivered := delivered s;
       toasts := toasts s |}.

(** The timer with handle [h] fires at time [t]: it leaves the event loop
    and runs its callback. *)
Definition timerFires (t : Z) (h : nat) (s : Listener) : Listener :=
  match timers s !! h with
  | None => s
  | Some timer =>
      {| isSubscribed := isSubscribed s; debounceTimeout := debounceTimeout s;
         timers := delete h (timers s); handles := handles s; clock := t;
         received := received s;
         delivered :=
           if negb (isSubscribed s) then delivered s
           else delivered s ++ [(t, held timer)];
         toasts := toasts s |}
  end.

(** The error callback of the snapshot listener. *)
Definition onError (s : Listener) : Listener :=
  if negb (isSubscribed s) then s
  else
    {| isSubscribed := isSubscribed s; debounceTimeout := debounceTimeout s;
       timers := timers s; handles := handles s; clock := clock s;
       received := received s; delivered := delivered s;
       toasts := toasts s ++ [MSG_REALTIME_FAILED] |}.

(** The cleanup the effect returns. *)
Definition cleanup (s : Listener) : Listener :=
  {| isSubscribed := false; debounceTimeout := debounceTimeout s;
     timers := clearTimeout (debounceTimeout s) (timers s);
     handles := handles s; clock := clock s;
     received := received s; delivered := delivered s;
     toasts := toasts s |}.

(** What can happen next: a snapshot or an error arrives, a pending timer
    that is due fires, the effect is cleaned up.  Time does not run
    backwards. *)
Inductive step : Listener → Listener → Prop :=
  | snapshot_arrives t orders s :
      (clock s ≤ t)%Z → step s (onSnapshot t orders s)
  | timer_fires t h timer s :
      (clock s ≤ t)%Z → timers s !! h = Some timer → (due timer ≤ t)%Z →
      step s (timerFires t h s)
  | error_arrives s : step s (onError s)
  | cleaned_up s : step s (cleanup s).

(** Every pending timer is the one [debounceTimeout] names; it holds the
    snapshot taken in last, [DEBOUNCE] before it is due; no call of
    [callback] is later than that snapshot. *)
Definition pendingOk (s : Listener) : Prop :=
  ∀ h timer, timers s !! h = Some timer →
    isSubscribed s = true
    ∧ debounceTimeout s = Some h
    ∧ last (received s) = Some (due timer - DEBOUNCE, held timer)%Z
    ∧ (due timer - DEBOUNCE ≤ clock s)%Z
    ∧ Forall (λ d, d.1 ≤ due timer - DEBOUNCE)%Z (delivered s).

(** The calls of [callback] lie in the past, each at least [DEBOUNCE] after
    the one before. *)
Definition deliveredOk (s : Listener) : Prop :=
  Forall (λ d, d.1 ≤ clock s)%Z (delivered s)
  ∧ StronglySorted (λ a b, a.1 + DEBOUNCE ≤ b.1)%Z (delivered s).

End RealtimeListener.

(** ** The Firebase module: configuration and lazily created instances *)

Module Firebase.

(** [import.meta.env]: a variable is unset or holds a string. *)
Record Env := {
  VITE_FIREBASE_API_KEY : option string;
  VITE_FIREBASE_AUTH_DOMAIN : option string;
  VITE_FIREBASE_PROJECT_ID : option string;
  VITE_FIREBASE_STORAGE_BUCKET : option string;
  VITE_FIREBASE_MESSAGING_SENDER_ID : option string;
  VITE_FIREBASE_APP_ID : option string
}.

Record Config := {
  apiKey : string;
  authDomain : string;
  projectId : string;
  storageBucket : string;
  messagingSenderId : string;
  appId : string
}.

(** [value || fallback]: an unset variable and the empty string are falsy. *)
Definition orElse (value : option string) (fallback : string) : string :=
  match value with
  | Some s => if bool_decide (s = "") then fallback else s
  | None => fallback
  end.

Definition firebaseConfig (env : Env) : Config :=
  {| apiKey := orElse (VITE_FIREBASE_API_KEY env) "demo-key";
     authDomain := orElse (VITE_FIREBASE_AUTH_DOMAIN env) "demo.firebaseapp.com";
     projectId := orElse (VITE_FIREBASE_PROJECT_ID env) "demo-project";
     storageBucket :=
       orElse (VITE_FIREBASE_STORAGE_BUCKET env) "demo.appspot.com";
     messagingSenderId :=
       orElse (VITE_FIREBASE_MESSAGING_SENDER_ID env) "123456789";
     appId := orElse (VITE_FIREBASE_APP_ID env) "demo-app-id" |}.

(** The instances the SDK hands out are told apart by a number. *)
Definition Instance := nat.

(** What the SDK answers during one call of a getter: [initializeApp]
    returns an app or throws; the three instance getters return an instance
    for an app; enabling persistence resolves ([None]) or rejects with an
    error code; enabling it for several tabs resolves or rejects. *)
Record Sdk := {
  initializeApp : Config → string + Instance;
  getAuth : Instance → Instance;
  getFirestore : Instance → Instance;
  getStorage : Instance → Instance;
  enableIndexedDbPersistence : Instance → option string;
  enableMultiTabIndexedDbPersistence : Instance → bool
}.

(** The calls into the SDK and the console lines. *)
Inductive Call :=
  | InitializeApp (config : Config) (ok : bool)
  | GetAuth (app : Instance)
  | GetFirestore (app : Instance)
  | GetStorage (app : Instance)
  | EnableIndexedDbPersistence (db : Instance)
  | EnableMultiTabIndexedDbPersistence (db : Instance)
  | ConsoleLog (msg : string)
  | ConsoleWarn (msg : string)
  | ConsoleError (msg : string).

(** The four module variables and the calls made so far. *)
Record Module := {
  app : option Instance;
  authInstance : option Instance;
  dbInstance : option Instance;
  storageInstance : option Instance;
  calls : list Call
}.

(** The module before anything ran. *)
Definition unloaded : Module :=
  {| app := None; authInstance := None; dbInstance := None;
     storageInstance := None; calls := [] |}.

Section Getters.

Context (env : Env) (sdk : Sdk).

(** [initializeFirebase] *)
Definition initializeFirebase (m : Module) : (string + Instance) * Module :=
  match app m with
  | Some a => (inr a, m)
  | None =>
      match initializeApp sdk (firebaseConfig env) with
      | inr a =>
          (inr a,
           {| app := Some a; authInstance := authInstance m;
              dbInstance := dbInstance m;
              storageInstance := storageInstance m;
              calls :=
                calls m
                ++ [InitializeApp (firebaseConfig env) true;
                    ConsoleLog "Firebase initialized successfully"] |})
      | inl error =>
          (inl error,
           {| app := None; authInstance := authInstance m;
              dbInstance := dbInstance m;
              storageInstance := storageInstance m;
              calls :=
                calls m
                ++ [InitializeApp (firebaseConfig env) false;
                    ConsoleError "Error initializing Firebase:"] |})
      end
  end.

(** [getFirebaseApp] *)
Definition getFirebaseApp (m : Module) : (string + Instance) * Module :=
  initializeFirebase m.

(** [getFirebaseAuth] *)
Definition getFirebaseAuth (m : Module) : (string + Instance) * Module :=
  match authInstance m with
  | Some a => (inr a, m)
  | None =>
      match getFirebaseApp m with
      | (inl error, m1) => (inl error, m1)
      | (inr firebaseApp, m1) =>
          let a := getAuth sdk firebaseApp in
          (inr a,
           {| app := app m1; authInstance := Some a;
              dbInstance := dbInstance m1;
              storageInstance := storageInstance m1;
              calls := calls m1 ++ [GetAuth firebaseApp] |})
      end
  end.

(** The handler given to [catch], and what it does when persistence could
    not be enabled. *)
Definition persistence (db : Instance) : list Call :=
  [EnableIndexedDbPersistence db]
  ++ match enableIndexedDbPersistence sdk db with
     | None => []
     | Some code =>
         if bool_decide (code = "failed-precondition") then
           [EnableMultiTabIndexedDbPersistence db]
           ++ (if enableMultiTabIndexedDbPersistence sdk db then
                 [ConsoleLog "Firestore multi-tab persistence enabled"]
               else
                 [ConsoleWarn
                    "Firestore persistence not available (multi-tab fallback failed):"])
         else [ConsoleWarn "Firestore persistence not available:"]
     end.

(** [getFirestoreDB] *)
Definition getFirestoreDB (m : Module) : (string + Instance) * Module :=
  match dbInstance m with
  | Some d => (inr d, m)
  | None =>
      match getFirebaseApp m with
      | (inl error, m1) => (inl error, m1)
      | (inr firebaseApp, m1) =>
          let d := getFirestore sdk firebaseApp in
          (inr d,
           {| app := app m1; authInstance := authInstance m1;
              dbInstance := Some d;
              storageInstance := storageInstance m1;
              calls := calls m1 ++ [GetFirestore firebaseApp]
                       ++ persistence d |})
      end
  end.

(** [getFirebaseStorage] *)
Definition getFirebaseStorage (m : Module) : (string + Instance) * Module :=
  match storageInstance m with
  | Some st => (inr st, m)
  | None =>
      match getFirebaseApp m with
      | (inl error, m1) => (inl error, m1)
      | (inr firebaseApp, m1) =>
          let st := getStorage sdk firebaseApp in
          (inr st,
           {| app := app m1; authInstance := authInstance m1;
              dbInstance := dbInstance m1;
              storageInstance := Some st;
              calls := calls m1 ++ [GetStorage firebaseApp] |})
      end
  end.

End Getters.

(** The four exported getters. *)
Inductive Getter := TheApp | TheAuth | TheDB | TheStorage.

#[global] Instance Getter_eq_dec : EqDecision Getter.
Proof. solve_decision. Defined.

Definition call (env : Env) (g : Getter) (sdk : Sdk)
    : Module → (string + Instance) * Module :=
  match g with
  | TheApp => getFirebaseApp env sdk
  | TheAuth => getFirebaseAuth env sdk
  | TheDB => getFirestoreDB env sdk
  | TheStorage => getFirebaseStorage env sdk
  end.

(** The module variable behind a getter. *)
Definition cached (g : Getter) (m : Module) : option Instance :=
  match g with
  | TheApp => app m
  | TheAuth => authInstance m
  | TheDB => dbInstance m
  | TheStorage => storageInstance m
  end.

(** A session: getters called one after the other, the SDK answering each
    call in its own way; what each call returned is recorded. *)
Definition Session : Type := list (Getter * (string + Instance)) * Module.

Definition sessionFrom (env : Env) (m : Module) (uses : list (Getter * Sdk))
    : Session :=
  foldl
    (λ (acc : Session) (use : Getter * Sdk),
       let '(r, m) := call env use.1 use.2 acc.2 in
       (acc.1 ++ [(use.1, r)], m))
    ([], m) uses.

Definition session (env : Env) (uses : list (Getter * Sdk)) : Session :=
  sessionFrom env unloaded uses.

(** The last line of the module, [export default getFirebaseApp()], runs
    when the module is imported: the import fails when [initializeApp]
    throws, and otherwise leaves the module with its app. *)
Definition imported (env : Env) (sdk : Sdk) : (string + Instance) * Module :=
  getFirebaseApp env sdk unloaded.

(** The call that creates the instance behind a getter. *)
Definition creates (g : Getter) (c : Call) : bool :=
  match g, c with
  | TheApp, InitializeApp _ true => true
  | TheAuth, GetAuth _ => true
  | TheDB, GetFirestore _ => true
  | TheStorage, GetStorage _ => true
  | _, _ => false
  end.

Definition callsInitializeApp (c : Call) : bool :=
  match c with
  | InitializeApp _ _ => true
  | _ => false
  end.

(** The app an instance was created for. *)
Definition createdFor (c : Call) : option Instance :=
  match c with
  | GetAuth a | GetFirestore a | GetStorage a => Some a
  | _ => None
  end.

Definition startsPersistence (c : Call) : bool :=
  match c with
  | EnableIndexedDbPersistence _ => true
  | _ => false
  end.

(** How often a kind of call was made. *)
Definition times (kind : Call → bool) (m : Module) : nat :=
  length (filter (λ c, kind c = true) (calls m)).

(** The number of creating calls made is 1 for a variable that is set and 0
    for one that is unset; persistence is started with the database
    instance. *)
Definition countedOnce (m : Module) : Prop :=
  (∀ g, times (creates g) m = if cached g m is Some _ then 1 else 0)
  ∧ times startsPersistence m = if dbInstance m is Some _ then 1 else 0.

(** The module as the import left it, with app [a]: [initializeApp] was
    called once, and every instance was created for [a]. *)
Definition settledOn (a : Instance) (m : Module) : Prop :=
  app m = Some a
  ∧ times callsInitializeApp m = 1
  ∧ ∀ c x, c ∈ calls m → createdFor c = Some x → x = a.

(** A field takes the value of its variable when that is set and not empty,
    and the demo value otherwise; it is never empty. *)
Definition takes (field : string) (variable : option string) (demo : string)
    : Prop :=
  field ≠ ""
  ∧ (∀ s, variable = Some s → s ≠ "" → field = s)
  ∧ (variable = None ∨ variable = Some "" → field = demo).

(** What a session has returned so far is what the module variables hold. *)
Definition sessionOk (acc : Session) : Prop :=
  countedOnce acc.2
  ∧ ∀ g h, (g, inr h) ∈ acc.1 → cached g acc.2 = Some h.

End Firebase.

(** ** Scenarios for the bar view and the Firebase module *)

(** A press on order a that has not been answered yet. *)
Definition waitingForA : BarControls.Controls :=
  BarControls.handleCompleteItem "a" BarControls.initialControls.

(** A listener that took in one snapshot at time 10. *)
Definition oneSnapshot : RealtimeListener.Listener :=
  RealtimeListener.onSnapshot 10 [barOrder] RealtimeListener.subscribed.

(** No variable set. *)
Definition noEnv : Firebase.Env :=
  {| Firebase.VITE_FIREBASE_API_KEY := None;
     Firebase.VITE_FIREBASE_AUTH_DOMAIN := None;
     Firebase.VITE_FIREBASE_PROJECT_ID := None;
     Firebase.VITE_FIREBASE_STORAGE_BUCKET := None;
     Firebase.VITE_FIREBASE_MESSAGING_SENDER_ID := None;
     Firebase.VITE_FIREBASE_APP_ID := None |}.

(** An SDK whose [initializeApp] answers [init]; a second tab holds the
    persistence lock. *)
Definition sdkWith (init : string + Firebase.Instance) : Firebase.Sdk :=
  {| Firebase.initializeApp := λ _, init;
     Firebase.getAuth := λ a, a + 10;
     Firebase.getFirestore := λ a, a + 20;
     Firebase.getStorage := λ a, a + 30;
     Firebase.enableIndexedDbPersistence := λ _, Some "failed-precondition";
     Firebase.enableMultiTabIndexedDbPersistence := λ _, true |}.

(** ** Specification-side definitions *)

(** A list of amounts added up as doubles, one after the other from the
    left, starting from [acc]: the addition of doubles is not associative,
    so the order of the additions is part of the result. *)
Fixpoint addFromLeft (acc : float) (l : list float) : float :=
  match l with
  | [] => acc
  | x :: l' => addFromLeft (acc + x)%float l'
  end.

(** The outstanding amount of a table in the words of the specification: the
    sum, over the orders of the table whose payment status is not paid, of
    the payment amount, or of the order total when there is no payment
    record; the orders are taken in the order of the order list. *)
Definition spec_outstanding (T : Table) (orders : list Order) : float :=
  addFromLeft 0
    (amountOf
       <$> filter (λ o, Grid.notPaid o ∧ o_tableNumber o = t_number T)
             orders).

(** An order of the table that the simpler grid looks at: pending,
    confirmed or preparing, or delivered and not paid. *)
Definition keptFor (T : Table) (o : Order) : Prop :=
  o_tableNumber o = t_number T
  ∧ (o_status o ∈ [pending; confirmed; preparing]
     ∨ o_status o = delivered ∧ paymentStatus o ≠ Some paid).

(** [a] is a newest one among the orders the simpler grid looks at. *)
Definition newestKept (T : Table) (orders : list Order) (a : Order) : Prop :=
  a ∈ orders ∧ keptFor T a
  ∧ ∀ b, b ∈ orders → keptFor T b → (o_createdAt b ≤ o_createdAt a)%Z.

(** Every timestamp of an order moved by [d] milliseconds: what a clock
    that is [d] behind would make of the order's age. *)
Definition shiftTime (d : Z) (o : Order) : Order :=
  {| o_id := o_id o; o_tableNumber := o_tableNumber o; o_items := o_items o;
     o_totalAmount := o_totalAmount o; o_status := o_status o;
     o_payment := o_payment o;
     o_createdAt := o_createdAt o + d; o_updatedAt := o_updatedAt o + d |}.

(** * Properties *)

(** ** Sums and sorting *)

Lemma foldl_sum_from {A} (f : A → float) (xs : list A) (a : float) :
  foldl (λ sum x, (sum + f x)%float) a xs = addFromLeft a (f <$> xs).
Proof.
  revert a. induction xs as [|x xs IH]; intros a; csimpl; [done|].
  by rewrite IH.
Qed.

(** The [reduce] of the code adds the amounts in the order of the array. *)
Lemma reduceSum_addFromLeft {A} (f : A → float) (xs : list A) :
  reduceSum f xs = addFromLeft 0 (f <$> xs).
Proof. unfold reduceSum. by rewrite foldl_sum_from. Qed.

Lemma insertBy_perm {A} (cmp : A → A → Z) x l :
  insertBy cmp x l ≡ₚ x :: l.
Proof.
  induction l as [|y l IH]; simpl; [done|].
  case_bool_decide; [done|].
  rewrite IH. apply Permutation_swap.
Qed.

Lemma Array_sort_perm {A} (cmp : A → A → Z) l : Array_sort cmp l ≡ₚ l.
Proof.
  induction l as [|x l IH]; simpl; [done|].
  rewrite insertBy_perm. by rewrite IH.
Qed.

(** The first element after sorting newest first is a newest element. *)
Lemma insertBy_head_newest x l a :
  head (insertBy SimpleGrid.newestFirst x l) = Some a →
  (∀ h, head l = Some h → ∀ b, b ∈ l → (o_createdAt b ≤ o_createdAt h)%Z) →
  ∀ b, b ∈ x :: l → (o_createdAt b ≤ o_createdAt a)%Z.
Proof.
  destruct l as [|y l]; simpl.
  - intros [= <-] _ b Hb. apply list_elem_of_singleton in Hb as ->. lia.
  - unfold SimpleGrid.newestFirst at 1.
    case_bool_decide as Hc; simpl; intros [= <-] Hmax b Hb.
    + apply elem_of_cons in Hb as [->|Hb]; [lia|].
      specialize (Hmax y eq_refl b Hb). lia.
    + apply elem_of_cons in Hb as [->|Hb]; [lia|].
      exact (Hmax y eq_refl b Hb).
Qed.

Lemma Array_sort_head_newest l a :
  head (Array_sort SimpleGrid.newestFirst l) = Some a →
  ∀ b, b ∈ l → (o_createdAt b ≤ o_createdAt a)%Z.
Proof.
  revert a. induction l as [|x l IH]; intros a; simpl.
  - intros _ b Hb. by apply elem_of_nil in Hb.
  - intros Ha b Hb.
    eapply insertBy_head_newest; [exact Ha| |].
    + intros h Hh b' Hb'. apply (IH h Hh).
      by rewrite <- (Array_sort_perm SimpleGrid.newestFirst l).
    + by rewrite (Array_sort_perm SimpleGrid.newestFirst l).
Qed.

Lemma Array_sort_head_elem {A} (cmp : A → A → Z) l a :
  head (Array_sort cmp l) = Some a → a ∈ l.
Proof.
  intros Ha. rewrite <- (Array_sort_perm cmp l).
  destruct (Array_sort cmp l); simplify_eq/=. apply list_elem_of_here.
Qed.

Lemma Array_sort_head_some {A} (cmp : A → A → Z) l :
  l ≠ [] → is_Some (head (Array_sort cmp l)).
Proof.
  intros Hl. destruct (Array_sort cmp l) as [|a s] eqn:E; [|by eexists].
  pose proof (Array_sort_perm cmp l) as Hp. rewrite E in Hp.
  symmetry in Hp. apply Permutation_nil_r in Hp. done.
Qed.

(** ** The grid with reservations *)

Section GridFacts.

Import Grid.

Lemma ordersMapOf_from (orders : list Order) (m : gmap Z (list Order)) n :
  default []
    (foldl
       (λ m o, <[o_tableNumber o := default [] (m !! o_tableNumber o) ++ [o]]> m)
       m orders !! n)
  = default [] (m !! n) ++ filter (λ o, o_tableNumber o = n) orders.
Proof.
  revert m. induction orders as [|o orders IH]; intros m; simpl.
  - by rewrite app_nil_r.
  - rewrite IH. destruct (decide (o_tableNumber o = n)) as [<-|Hne].
    + rewrite lookup_insert_eq. rewrite filter_cons_True by done.
      simpl. by rewrite <- app_assoc.
    + rewrite lookup_insert_ne by done. by rewrite filter_cons_False.
Qed.

(** The array stored for a table number holds the orders of that table, in
    their order of arrival. *)
Lemma ordersMapOf_lookup (orders : list Order) n :
  default [] (ordersMapOf orders !! n)
  = filter (λ o, o_tableNumber o = n) orders.
Proof. unfold ordersMapOf. by rewrite ordersMapOf_from, lookup_empty. Qed.

Lemma seatedMapOf_from (rs : list Reservation) (m : gmap Z bool) n :
  default false (foldl (λ m r, <[r_tableNumber r := true]> m) m rs !! n) = true
  ↔ default false (m !! n) = true ∨ ∃ r, r ∈ rs ∧ r_tableNumber r = n.
Proof.
  revert m. induction rs as [|r rs IH]; intros m; simpl.
  - split; [by left|]. intros [H|(r & Hr & _)]; [done|].
    by apply elem_of_nil in Hr.
  - rewrite IH. destruct (decide (r_tableNumber r = n)) as [<-|Hne].
    + rewrite lookup_insert_eq. simpl. split; [|by left].
      intros _. right. exists r. split; [apply list_elem_of_here|done].
    + rewrite lookup_insert_ne by done.
      split; (intros [H|(r' & Hr' & E)]; [by left|right]).
      * exists r'. split; [by apply list_elem_of_further|done].
      * apply elem_of_cons in Hr' as [->|Hr']; [done|]. by exists r'.
Qed.

(** A table is flagged seated exactly when a reservation of the list names
    its number. *)
Lemma seatedMapOf_lookup (rs : list Reservation) n :
  default false (seatedMapOf rs !! n) = true
  ↔ ∃ r, r ∈ rs ∧ r_tableNumber r = n.
Proof.
  unfold seatedMapOf. rewrite seatedMapOf_from, lookup_empty. simpl.
  split; [intros [?|?]; done|by right].
Qed.

Lemma processTableData_lookup tables orders reservations i T :
  tables !! i = Some T →
  tableStatuses (processTableData tables orders reservations) !! i
  = Some (tableStatusOf (seatedMapOf reservations) (ordersMapOf orders) T).
Proof. intros Hi. simpl. by rewrite list_lookup_fmap, Hi. Qed.

Lemma tableStatusOf_isOpenBill rs orders T :
  isOpenBill (tableStatusOf (seatedMapOf rs) (ordersMapOf orders) T) = true
  ↔ ∃ o, o ∈ orders ∧ o_tableNumber o = t_number T ∧ notPaid o.
Proof.
  simpl. rewrite bool_decide_eq_true, ordersMapOf_lookup, Exists_exists.
  split; intros (o & Ho & Hp).
  - apply list_elem_of_filter in Ho as [? ?]. by exists o.
  - destruct Hp. exists o. split; [by apply list_elem_of_filter|done].
Qed.

Lemma tableStatusOf_hasActiveOrder rs orders T :
  hasActiveOrder (tableStatusOf (seatedMapOf rs) (ordersMapOf orders) T) = true
  ↔ ∃ o, o ∈ orders ∧ o_tableNumber o = t_number T ∧ activeStatus o.
Proof.
  simpl. rewrite bool_decide_eq_true, ordersMapOf_lookup, Exists_exists.
  split; intros (o & Ho & Hp).
  - apply list_elem_of_filter in Ho as [? ?]. by exists o.
  - destruct Hp. exists o. split; [by apply list_elem_of_filter|done].
Qed.

Lemma tableStatusOf_isSeated rs orders T :
  isSeated (tableStatusOf (seatedMapOf rs) (ordersMapOf orders) T) = true
  ↔ ∃ r, r ∈ rs ∧ r_tableNumber r = t_number T.
Proof. simpl. apply seatedMapOf_lookup. Qed.

Lemma tableStatusOf_statusType sm om T :
  statusType (tableStatusOf sm om T)
  = if isOpenBill (tableStatusOf sm om T) then OPEN_BILL
    else if hasActiveOrder (tableStatusOf sm om T) then ACTIVE_ORDER
    else if isSeated (tableStatusOf sm om T) then SEATED
    else AVAILABLE.
Proof. reflexivity. Qed.

End GridFacts.

(** ** The simpler grid *)

Section SimpleGridFacts.

Import SimpleGrid.

Lemma keepsOrder_true T o :
  keepsOrder T o = true
  ↔ o_tableNumber o = t_number T
    ∧ ¬ (o_status o = delivered ∧ paymentStatus o = Some paid)
    ∧ o_status o ∈ [pending; confirmed; preparing; delivered].
Proof.
  unfold keepsOrder.
  case_bool_decide as H1; [split; [done|intros (? & _); done]|].
  case_bool_decide as H2; [split; [done|intros (_ & ? & _); done]|].
  rewrite orb_true_iff, !bool_decide_eq_true.
  split.
  - intros H. split_and!; [done..|]. set_solver.
  - intros (_ & _ & H). set_solver.
Qed.

Lemma calculateTableStatuses_lookup now tables orders i T :
  tables !! i = Some T →
  calculateTableStatuses now tables orders !! i
  = Some (simpleStatusOf now orders T).
Proof.
  intros Hi. unfold calculateTableStatuses. by rewrite list_lookup_fmap, Hi.
Qed.

(** The order the simpler grid looks at is one of the table's kept orders,
    and none of them is newer. *)
Lemma activeOrderOf_Some T orders a :
  activeOrderOf T orders = Some a →
  a ∈ orders ∧ keepsOrder T a = true
  ∧ ∀ b, b ∈ orders → keepsOrder T b = true →
         (o_createdAt b ≤ o_createdAt a)%Z.
Proof.
  unfold activeOrderOf, tableOrdersOf. intros Ha.
  pose proof (Array_sort_head_elem _ _ _ Ha) as Hin.
  apply list_elem_of_filter in Hin as [Hk Hin]. repeat split; [done..|].
  intros b Hb Hkb. eapply Array_sort_head_newest; [exact Ha|].
  by apply list_elem_of_filter.
Qed.

Lemma activeOrderOf_is_Some T orders :
  is_Some (activeOrderOf T orders)
  ↔ ∃ o, o ∈ orders ∧ keepsOrder T o = true.
Proof.
  split.
  - intros [a Ha]. apply activeOrderOf_Some in Ha as (? & ? & _). by exists a.
  - intros (o & Ho & Hk). apply Array_sort_head_some.
    intros E. assert (o ∈ tableOrdersOf T orders) as Hin
      by by apply list_elem_of_filter.
    rewrite E in Hin. by apply elem_of_nil in Hin.
Qed.

Lemma simpleStatusOf_statusType now orders T :
  statusType (simpleStatusOf now orders T)
  = if isOpenBill (simpleStatusOf now orders T) then OPEN_BILL
    else if hasActiveOrder (simpleStatusOf now orders T) then ACTIVE_ORDER
    else if isSeated (simpleStatusOf now orders T) then SEATED
    else AVAILABLE.
Proof. reflexivity. Qed.

Lemma simpleStatusOf_isOpenBill now orders T :
  isOpenBill (simpleStatusOf now orders T) = true
  ↔ ∃ a, activeOrderOf T orders = Some a
         ∧ o_status a = delivered
         ∧ (paymentStatus a = Some unpaid ∨ paymentStatus a = Some partial).
Proof.
  simpl. unfold openBillOrder. destruct (activeOrderOf T orders) as [a|].
  - rewrite andb_true_iff, orb_true_iff, !bool_decide_eq_true. naive_solver.
  - naive_solver.
Qed.

Lemma simpleStatusOf_hasActiveOrder now orders T :
  hasActiveOrder (simpleStatusOf now orders T) = true
  ↔ is_Some (activeOrderOf T orders)
    ∧ isOpenBill (simpleStatusOf now orders T) = false.
Proof.
  simpl. rewrite andb_true_iff, bool_decide_eq_true, negb_true_iff. done.
Qed.

Lemma simpleStatusOf_isSeated now orders T :
  isSeated (simpleStatusOf now orders T) = true
  ↔ hasActiveOrder (simpleStatusOf now orders T) = false
    ∧ isOpenBill (simpleStatusOf now orders T) = false
    ∧ ∃ o, o ∈ orders ∧ recentPaidOrder now T o.
Proof.
  simpl. rewrite !andb_true_iff, !negb_true_iff, bool_decide_eq_true.
  assert (0 < length (filter (recentPaidOrder now T) orders)
          ↔ ∃ o, o ∈ orders ∧ recentPaidOrder now T o) as ->; [|tauto].
  split.
  - destruct (filter _ orders) as [|o l] eqn:E; simpl; [lia|]. intros _.
    assert (o ∈ filter (recentPaidOrder now T) orders) as Ho
      by (rewrite E; apply list_elem_of_here).
    apply list_elem_of_filter in Ho as [? ?]. by exists o.
  - intros (o & Ho & Hr).
    assert (o ∈ filter (recentPaidOrder now T) orders) as Hin
      by by apply list_elem_of_filter.
    destruct (filter _ orders); [by apply elem_of_nil in Hin|simpl; lia].
Qed.

End SimpleGridFacts.

(** ** Open bills (C1) *)

(** With reservations: one order that is not paid makes the table an open
    bill, whatever its other orders are. *)
Lemma grid_open_bill tables orders reservations i T :
  tables !! i = Some T →
  (∃ o, o ∈ orders ∧ o_tableNumber o = t_number T ∧ Grid.notPaid o) →
  ∃ s, Grid.tableStatuses (Grid.processTableData tables orders reservations) !! i
       = Some s
       ∧ Grid.table s = T ∧ Grid.statusType s = OPEN_BILL.
Proof.
  intros Hi Ho. eexists. split; [by apply processTableData_lookup|].
  split; [done|]. rewrite tableStatusOf_statusType.
  apply tableStatusOf_isOpenBill with (rs := reservations) in Ho.
  by rewrite Ho.
Qed.

(** Without reservations: the newest kept order decides. *)
Lemma simple_open_bill_newest now tables orders i T a :
  tables !! i = Some T →
  SimpleGrid.activeOrderOf T orders = Some a →
  o_status a = delivered →
  paymentStatus a = Some unpaid ∨ paymentStatus a = Some partial →
  ∃ s, SimpleGrid.calculateTableStatuses now tables orders !! i = Some s
       ∧ SimpleGrid.table s = T ∧ SimpleGrid.statusType s = OPEN_BILL.
Proof.
  intros Hi Ha Hd Hp. eexists.
  split; [by apply calculateTableStatuses_lookup|]. split; [done|].
  rewrite simpleStatusOf_statusType.
  assert (SimpleGrid.isOpenBill (SimpleGrid.simpleStatusOf now orders T) = true)
    as -> by (apply simpleStatusOf_isOpenBill; eauto).
  done.
Qed.

Lemma simple_open_bill_needs_delivered now tables orders i T s :
  tables !! i = Some T →
  SimpleGrid.calculateTableStatuses now tables orders !! i = Some s →
  SimpleGrid.statusType s = OPEN_BILL →
  ∃ o, o ∈ orders ∧ o_tableNumber o = t_number T ∧ o_status o = delivered
       ∧ (paymentStatus o = Some unpaid ∨ paymentStatus o = Some partial).
Proof.
  intros Hi Hs. rewrite (calculateTableStatuses_lookup _ _ _ _ _ Hi) in Hs.
  injection Hs as <-. rewrite simpleStatusOf_statusType.
  destruct (SimpleGrid.isOpenBill _) eqn:Hob.
  - intros _. apply simpleStatusOf_isOpenBill in Hob as (a & Ha & Hd & Hp).
    apply activeOrderOf_Some in Ha as (Hin & Hk & _).
    apply keepsOrder_true in Hk as (Hn & _). by exists a.
  - by repeat case_match.
Qed.

(** C1 (as amended).  In [processTableData] a table with at least one order
    whose payment status is not paid (an order without a payment record
    counts) is classified open bill regardless of its other orders, and
    table 3 with a delivered and paid order of 20 and a pending order of 15
    is an open bill with amount 15.  In [calculateTableStatuses] a table is
    an open bill when its newest kept order is delivered with payment unpaid
    or partial, and only a table that has a delivered order with payment
    unpaid or partial can be one. *)
Theorem C1_open_bill :
  (∀ tables orders reservations i T,
     tables !! i = Some T →
     (∃ o, o ∈ orders ∧ o_tableNumber o = t_number T ∧ Grid.notPaid o) →
     ∃ s, Grid.tableStatuses
            (Grid.processTableData tables orders reservations) !! i = Some s
          ∧ Grid.table s = T ∧ Grid.statusType s = OPEN_BILL)
  ∧ (∀ reservations,
       (λ s, (Grid.statusType s, Grid.orderAmount s))
         <$> Grid.tableStatuses
               (Grid.processTableData [table3] [order20; order15] reservations)
       = [(OPEN_BILL, Some 15%float)])
  ∧ (∀ now tables orders i T a,
       tables !! i = Some T →
       SimpleGrid.activeOrderOf T orders = Some a →
       o_status a = delivered →
       paymentStatus a = Some unpaid ∨ paymentStatus a = Some partial →
       ∃ s, SimpleGrid.calculateTableStatuses now tables orders !! i = Some s
            ∧ SimpleGrid.table s = T ∧ SimpleGrid.statusType s = OPEN_BILL)
  ∧ (∀ now tables orders i T s,
       tables !! i = Some T →
       SimpleGrid.calculateTableStatuses now tables orders !! i = Some s →
       SimpleGrid.statusType s = OPEN_BILL →
       ∃ o, o ∈ orders ∧ o_tableNumber o = t_number T
            ∧ o_status o = delivered
            ∧ (paymentStatus o = Some unpaid ∨ paymentStatus o = Some partial)).
Proof.
  split_and!.
  - apply grid_open_bill.
  - intros reservations. by vm_compute.
  - apply simple_open_bill_newest.
  - apply simple_open_bill_needs_delivered.
Qed.

Lemma C1_open_bill_witness :
  ∃ s, Grid.tableStatuses
         (Grid.processTableData [table3] [order20; order15] []) !! 0 = Some s
       ∧ Grid.table s = table3 ∧ Grid.statusType s = OPEN_BILL.
Proof.
  apply (proj1 C1_open_bill [table3] [order20; order15] [] 0 table3).
  - reflexivity.
  - exists order15. split; [set_solver|]. split; [reflexivity|]. by intros [=].
Defined.

(** The claim read on [calculateTableStatuses]: table 3 has an order that is
    not paid, and the table is an active order, not an open bill. *)
Lemma C1_simple_grid_counterexample :
  (order15 ∈ [order20; order15]
   ∧ o_tableNumber order15 = t_number table3
   ∧ paymentStatus order15 ≠ Some paid)
  ∧ SimpleGrid.statusType
      <$> SimpleGrid.calculateTableStatuses 5000 [table3] [order20; order15]
    = [ACTIVE_ORDER].
Proof.
  split; [|by vm_compute].
  split; [set_solver|]. split; [done|]. by intros [=].
Qed.

(** ** Active orders (C2) *)

Lemma grid_active_order tables orders reservations i T :
  tables !! i = Some T →
  (∀ o, o ∈ orders → o_tableNumber o = t_number T → Grid.isPaid o) →
  (∃ o, o ∈ orders ∧ o_tableNumber o = t_number T
        ∧ o_status o ∈ [pending; confirmed; preparing; ready]) →
  ∃ s, Grid.tableStatuses (Grid.processTableData tables orders reservations) !! i
       = Some s
       ∧ Grid.table s = T ∧ Grid.statusType s = ACTIVE_ORDER.
Proof.
  intros Hi Hpaid (o & Ho & Hn & Hst). eexists.
  split; [by apply processTableData_lookup|]. split; [done|].
  rewrite tableStatusOf_statusType.
  destruct (Grid.isOpenBill _) eqn:Hob.
  { apply tableStatusOf_isOpenBill in Hob as (o' & Ho' & Hn' & Hnp).
    exfalso. apply Hnp. by apply Hpaid. }
  assert (Grid.hasActiveOrder
            (Grid.tableStatusOf (Grid.seatedMapOf reservations)
               (Grid.ordersMapOf orders) T) = true) as ->; [|done].
  apply tableStatusOf_hasActiveOrder. exists o. split_and!; [done..|].
  split; intros E; rewrite E in Hst; set_solver.
Qed.

Lemma simple_active_order now tables orders i T :
  tables !! i = Some T →
  (∀ o, o ∈ orders → o_tableNumber o = t_number T → Grid.isPaid o) →
  (∃ o, o ∈ orders ∧ o_tableNumber o = t_number T
        ∧ o_status o ∈ [pending; confirmed; preparing]) →
  ∃ s, SimpleGrid.calculateTableStatuses now tables orders !! i = Some s
       ∧ SimpleGrid.table s = T ∧ SimpleGrid.statusType s = ACTIVE_ORDER.
Proof.
  intros Hi Hpaid (o & Ho & Hn & Hst). eexists.
  split; [by apply calculateTableStatuses_lookup|]. split; [done|].
  rewrite simpleStatusOf_statusType.
  destruct (SimpleGrid.isOpenBill _) eqn:Hob.
  { apply simpleStatusOf_isOpenBill in Hob as (a & Ha & Hd & Hp).
    apply activeOrderOf_Some in Ha as (Hin & Hk & _).
    apply keepsOrder_true in Hk as (Hna & _).
    specialize (Hpaid a Hin Hna). unfold Grid.isPaid in Hpaid.
    rewrite Hpaid in Hp. by destruct Hp. }
  assert (SimpleGrid.hasActiveOrder (SimpleGrid.simpleStatusOf now orders T)
          = true) as ->; [|done].
  apply simpleStatusOf_hasActiveOrder. split; [|done].
  apply activeOrderOf_is_Some. exists o. split; [done|].
  apply keepsOrder_true. split_and!; [done| |set_solver].
  intros [E _]. rewrite E in Hst. set_solver.
Qed.

Lemma simple_ready_ignored now tables orders i T :
  tables !! i = Some T →
  (∀ o, o ∈ orders → o_tableNumber o = t_number T →
        o_status o = ready ∨ o_status o = cancelled) →
  ∃ s, SimpleGrid.calculateTableStatuses now tables orders !! i = Some s
       ∧ SimpleGrid.table s = T ∧ SimpleGrid.statusType s = AVAILABLE.
Proof.
  intros Hi Hall. eexists.
  split; [by apply calculateTableStatuses_lookup|]. split; [done|].
  assert (SimpleGrid.activeOrderOf T orders = None) as Hnone.
  { apply eq_None_not_Some. rewrite activeOrderOf_is_Some.
    intros (o & Ho & Hk). apply keepsOrder_true in Hk as (Hn & _ & Hst).
    destruct (Hall o Ho Hn) as [E|E]; rewrite E in Hst; set_solver. }
  rewrite simpleStatusOf_statusType.
  destruct (SimpleGrid.isOpenBill _) eqn:Hob.
  { apply simpleStatusOf_isOpenBill in Hob as (a & Ha & _). congruence. }
  destruct (SimpleGrid.hasActiveOrder _) eqn:Hact.
  { apply simpleStatusOf_hasActiveOrder in Hact as [[a Ha] _]. congruence. }
  destruct (SimpleGrid.isSeated _) eqn:Hseat; [|done].
  apply simpleStatusOf_isSeated in Hseat as (_ & _ & o & Ho & Hn & Hd & _).
  destruct (Hall o Ho Hn); congruence.
Qed.

(** C2 (as amended).  If every order of a table is paid and one of them is
    pending, confirmed, preparing or ready, [processTableData] classifies the
    table active order.  [calculateTableStatuses] does so when one of them is
    pending, confirmed or preparing; it ignores ready (and cancelled) orders:
    a table with only such orders is available. *)
Theorem C2_active_order :
  (∀ tables orders reservations i T,
     tables !! i = Some T →
     (∀ o, o ∈ orders → o_tableNumber o = t_number T → Grid.isPaid o) →
     (∃ o, o ∈ orders ∧ o_tableNumber o = t_number T
           ∧ o_status o ∈ [pending; confirmed; preparing; ready]) →
     ∃ s, Grid.tableStatuses
            (Grid.processTableData tables orders reservations) !! i = Some s
          ∧ Grid.table s = T ∧ Grid.statusType s = ACTIVE_ORDER)
  ∧ (∀ now tables orders i T,
       tables !! i = Some T →
       (∀ o, o ∈ orders → o_tableNumber o = t_number T → Grid.isPaid o) →
       (∃ o, o ∈ orders ∧ o_tableNumber o = t_number T
             ∧ o_status o ∈ [pending; confirmed; preparing]) →
       ∃ s, SimpleGrid.calculateTableStatuses now tables orders !! i = Some s
            ∧ SimpleGrid.table s = T ∧ SimpleGrid.statusType s = ACTIVE_ORDER)
  ∧ (∀ now tables orders i T,
       tables !! i = Some T →
       (∀ o, o ∈ orders → o_tableNumber o = t_number T →
             o_status o = ready ∨ o_status o = cancelled) →
       ∃ s, SimpleGrid.calculateTableStatuses now tables orders !! i = Some s
            ∧ SimpleGrid.table s = T ∧ SimpleGrid.statusType s = AVAILABLE).
Proof.
  split_and!.
  - apply grid_active_order.
  - apply simple_active_order.
  - apply simple_ready_ignored.
Qed.

Lemma C2_active_order_witness :
  ∃ s, Grid.tableStatuses
         (Grid.processTableData [table3] [order20; orderReadyPaid] []) !! 0
       = Some s
       ∧ Grid.table s = table3 ∧ Grid.statusType s = ACTIVE_ORDER.
Proof.
  apply (proj1 C2_active_order [table3] [order20; orderReadyPaid] [] 0 table3).
  - reflexivity.
  - intros o Ho _.
    apply elem_of_cons in Ho as [->|Ho]; [reflexivity|].
    apply list_elem_of_singleton in Ho as ->. reflexivity.
  - exists orderReadyPaid. split; [set_solver|]. split; [reflexivity|].
    set_solver.
Defined.

(** The claim read on [calculateTableStatuses]: every order of table 3 is
    paid and one is ready, and the table is available. *)
Lemma C2_simple_grid_counterexample :
  (∀ o, o ∈ [orderReadyPaid] → paymentStatus o = Some paid)
  ∧ (orderReadyPaid ∈ [orderReadyPaid]
     ∧ o_tableNumber orderReadyPaid = t_number table3
     ∧ o_status orderReadyPaid = ready)
  ∧ SimpleGrid.statusType
      <$> SimpleGrid.calculateTableStatuses 5000 [table3] [orderReadyPaid]
    = [AVAILABLE].
Proof.
  split_and!; [|set_solver|done|done|by vm_compute].
  intros o Ho. by apply list_elem_of_singleton in Ho as ->.
Qed.

(** ** Seated and available tables (C3) *)

Lemma grid_seated tables orders reservations i T :
  tables !! i = Some T →
  ∃ s, Grid.tableStatuses (Grid.processTableData tables orders reservations) !! i
       = Some s
       ∧ Grid.table s = T
       ∧ (Grid.hasActiveOrder s = false → Grid.isOpenBill s = false →
          (Grid.statusType s = SEATED
           ↔ ∃ r, r ∈ reservations ∧ r_tableNumber r = t_number T)
          ∧ (Grid.statusType s = AVAILABLE
             ↔ ¬ ∃ r, r ∈ reservations ∧ r_tableNumber r = t_number T)).
Proof.
  intros Hi. eexists. split; [by apply processTableData_lookup|].
  split; [done|]. intros Hact Hob.
  rewrite tableStatusOf_statusType, Hact, Hob.
  rewrite <- (tableStatusOf_isSeated reservations orders T).
  destruct (Grid.isSeated _); split; split; done.
Qed.

Lemma simple_seated now tables orders i T :
  tables !! i = Some T →
  ∃ s, SimpleGrid.calculateTableStatuses now tables orders !! i = Some s
       ∧ SimpleGrid.table s = T
       ∧ (SimpleGrid.hasActiveOrder s = false →
          SimpleGrid.isOpenBill s = false →
          (SimpleGrid.statusType s = SEATED
           ↔ ∃ o, o ∈ orders ∧ SimpleGrid.recentPaidOrder now T o)
          ∧ (SimpleGrid.statusType s = AVAILABLE
             ↔ ¬ ∃ o, o ∈ orders ∧ SimpleGrid.recentPaidOrder now T o)).
Proof.
  intros Hi. eexists. split; [by apply calculateTableStatuses_lookup|].
  split; [done|]. intros Hact Hob.
  rewrite simpleStatusOf_statusType, Hact, Hob.
  pose proof (simpleStatusOf_isSeated now orders T) as Hs.
  rewrite Hact, Hob in Hs.
  destruct (SimpleGrid.isSeated _); split; split; try done.
  - intros _. by apply Hs.
  - intros H. exfalso. by apply H, Hs.
  - intros H. assert (false = true) by (apply Hs; done). done.
  - intros _ H. assert (false = true) by (apply Hs; done). done.
Qed.

(** C3 (as amended).  For a table with no active order and no open bill:
    [processTableData] classifies it seated exactly when a reservation of the
    list it is given (the caller fetches today's reservations in state
    seated) names the table, and available otherwise;
    [calculateTableStatuses] classifies it seated exactly when the table has
    a delivered and paid order created less than two hours before the clock
    reading, and available otherwise. *)
Theorem C3_seated_or_available :
  (∀ tables orders reservations i T,
     tables !! i = Some T →
     ∃ s, Grid.tableStatuses
            (Grid.processTableData tables orders reservations) !! i = Some s
          ∧ Grid.table s = T
          ∧ (Grid.hasActiveOrder s = false → Grid.isOpenBill s = false →
             (Grid.statusType s = SEATED
              ↔ ∃ r, r ∈ reservations ∧ r_tableNumber r = t_number T)
             ∧ (Grid.statusType s = AVAILABLE
                ↔ ¬ ∃ r, r ∈ reservations ∧ r_tableNumber r = t_number T)))
  ∧ (∀ now tables orders i T,
       tables !! i = Some T →
       ∃ s, SimpleGrid.calculateTableStatuses now tables orders !! i = Some s
            ∧ SimpleGrid.table s = T
            ∧ (SimpleGrid.hasActiveOrder s = false →
               SimpleGrid.isOpenBill s = false →
               (SimpleGrid.statusType s = SEATED
                ↔ ∃ o, o ∈ orders ∧ SimpleGrid.recentPaidOrder now T o)
               ∧ (SimpleGrid.statusType s = AVAILABLE
                  ↔ ¬ ∃ o, o ∈ orders ∧ SimpleGrid.recentPaidOrder now T o))).
Proof. split; [apply grid_seated|apply simple_seated]. Qed.

Lemma C3_seated_or_available_witness :
  ∃ s, Grid.tableStatuses
         (Grid.processTableData [table3] [order20]
            [{| r_id := "r"; r_tableNumber := 3 |}]) !! 0 = Some s
       ∧ Grid.statusType s = SEATED.
Proof.
  destruct (proj1 C3_seated_or_available [table3] [order20]
              [{| r_id := "r"; r_tableNumber := 3 |}] 0 table3 eq_refl)
    as (s & Hs & _ & H).
  exists s. split; [exact Hs|].
  injection Hs as <-.
  apply (proj1 (H eq_refl eq_refl)).
  eexists. split; [apply list_elem_of_here|reflexivity].
Defined.

(** The claim read on [processTableData]: table 3 has no active order and no
    open bill, and a delivered and paid order created at the clock reading;
    without a reservation it is available, not seated. *)
Lemma C3_grid_counterexample :
  (order20 ∈ [order20] ∧ SimpleGrid.recentPaidOrder 1000 table3 order20)
  ∧ (λ s, (Grid.hasActiveOrder s, Grid.isOpenBill s, Grid.statusType s))
      <$> Grid.tableStatuses (Grid.processTableData [table3] [order20] [])
    = [(false, false, AVAILABLE)].
Proof.
  split; [|by vm_compute].
  split; [set_solver|]. by repeat split.
Qed.

(** ** Outstanding amounts (C4) *)

Lemma grid_order_amount tables orders reservations i T :
  tables !! i = Some T →
  ∃ s, Grid.tableStatuses (Grid.processTableData tables orders reservations) !! i
       = Some s
       ∧ Grid.table s = T
       ∧ Grid.orderAmount s
         = if (0 <? spec_outstanding T orders)%float
           then Some (spec_outstanding T orders) else None.
Proof.
  intros Hi. eexists. split; [by apply processTableData_lookup|].
  split; [done|]. simpl.
  by rewrite ordersMapOf_lookup, reduceSum_addFromLeft, list_filter_filter.
Qed.

Lemma keptFor_keepsOrder T o : keptFor T o ↔ SimpleGrid.keepsOrder T o = true.
Proof.
  rewrite keepsOrder_true. unfold keptFor.
  split.
  - intros (Ht & [Hst|[Hd Hp]]); (split; [done|]); split.
    + intros [Hd _]. rewrite Hd in Hst. set_solver.
    + set_solver.
    + by intros [_ ?].
    + rewrite Hd. set_solver.
  - intros (Ht & Hnot & Hst). split; [done|].
    destruct (decide (o_status o = delivered)) as [Hd|Hd].
    + right. split; [done|]. intros Hp. by apply Hnot.
    + left. set_solver.
Qed.

Lemma activeOrderOf_newestKept T orders a :
  SimpleGrid.activeOrderOf T orders = Some a → newestKept T orders a.
Proof.
  intros (Hin & Hk & Hnew)%activeOrderOf_Some.
  split; [done|]. split; [by apply keptFor_keepsOrder|].
  intros b Hb Hkb. apply Hnew; [done|]. by apply keptFor_keepsOrder.
Qed.

Lemma simple_order_amount now tables orders i T :
  tables !! i = Some T →
  ∃ s, SimpleGrid.calculateTableStatuses now tables orders !! i = Some s
       ∧ SimpleGrid.table s = T
       ∧ (SimpleGrid.orderAmount s = None
          ↔ ∀ o, o ∈ orders → ¬ keptFor T o)
       ∧ (∀ x, SimpleGrid.orderAmount s = Some x →
               ∃ a, newestKept T orders a ∧ x = o_totalAmount a)
       ∧ (∀ a, newestKept T orders a →
               (∀ b, b ∈ orders → keptFor T b →
                     b = a ∨ (o_createdAt b < o_createdAt a)%Z) →
               SimpleGrid.orderAmount s = Some (o_totalAmount a)).
Proof.
  intros Hi. eexists. split; [by apply calculateTableStatuses_lookup|].
  split; [done|]. simpl.
  pose proof (activeOrderOf_is_Some T orders) as Hsome.
  split_and!.
  - destruct (SimpleGrid.activeOrderOf T orders) as [a'|] eqn:Ha; simpl.
    + split; [done|]. intros Hno.
      apply activeOrderOf_newestKept in Ha as (Hin & Hk & _).
      by destruct (Hno a' Hin).
    + split; [|done]. intros _ o Ho Hk.
      assert (is_Some (None : option Order)) as [? [=]].
      apply Hsome. exists o. split; [done|]. by apply keptFor_keepsOrder.
  - intros x Hx.
    destruct (SimpleGrid.activeOrderOf T orders) as [a'|] eqn:Ha;
      simpl in Hx; [|done].
    injection Hx as <-. exists a'. split; [|done].
    by apply activeOrderOf_newestKept.
  - intros a (Hin & Hk & Hnew) Hstrict.
    destruct (SimpleGrid.activeOrderOf T orders) as [a'|] eqn:Ha; simpl.
    + apply activeOrderOf_newestKept in Ha as (Hin' & Hk' & Hnew').
      destruct (Hstrict a' Hin' Hk') as [->|Hlt]; [done|].
      specialize (Hnew' a Hin Hk). lia.
    + assert (is_Some (None : option Order)) as [? [=]].
      apply Hsome. exists a. split; [done|]. by apply keptFor_keepsOrder.
Qed.

(** C4 (as amended).  [processTableData] adds up, as doubles and in the
    order of the order list, the payment amounts (the order total when there
    is no payment record) of the table's orders whose payment status is not
    paid; it reports that sum when it is greater than 0 and no amount
    otherwise; a single delivered order with payment unpaid of amount 42
    yields 42.  [calculateTableStatuses] reports the total of a newest one of
    the table's kept orders instead: no amount exactly when the table has no
    kept order, and the total of the kept order that is newer than all the
    others when there is one. *)
Theorem C4_outstanding_amount :
  (∀ tables orders reservations i T,
     tables !! i = Some T →
     ∃ s, Grid.tableStatuses
            (Grid.processTableData tables orders reservations) !! i = Some s
          ∧ Grid.table s = T
          ∧ Grid.orderAmount s
            = if (0 <? spec_outstanding T orders)%float
              then Some (spec_outstanding T orders) else None)
  ∧ (∀ total created reservations,
       (λ s, (Grid.statusType s, Grid.orderAmount s))
         <$> Grid.tableStatuses
               (Grid.processTableData [mkTable 5]
                  [mkOrder "d" 5 total delivered
                     (Some {| pay_status := unpaid; pay_amount := 42 |})
                     created]
                  reservations)
       = [(OPEN_BILL, Some 42%float)])
  ∧ (∀ now tables orders i T,
       tables !! i = Some T →
       ∃ s, SimpleGrid.calculateTableStatuses now tables orders !! i = Some s
            ∧ SimpleGrid.table s = T
            ∧ (SimpleGrid.orderAmount s = None
               ↔ ∀ o, o ∈ orders → ¬ keptFor T o)
            ∧ (∀ x, SimpleGrid.orderAmount s = Some x →
                    ∃ a, newestKept T orders a ∧ x = o_totalAmount a)
            ∧ (∀ a, newestKept T orders a →
                    (∀ b, b ∈ orders → keptFor T b →
                          b = a ∨ (o_createdAt b < o_createdAt a)%Z) →
                    SimpleGrid.orderAmount s = Some (o_totalAmount a))).
Proof.
  split_and!.
  - apply grid_order_amount.
  - intros total created reservations. by vm_compute.
  - apply simple_order_amount.
Qed.

Lemma C4_outstanding_amount_witness :
  ∃ s, Grid.tableStatuses
         (Grid.processTableData [table3] [order20; order15] []) !! 0 = Some s
       ∧ Grid.orderAmount s = Some 15%float.
Proof.
  destruct (proj1 C4_outstanding_amount [table3] [order20; order15] [] 0 table3
              eq_refl) as (s & Hs & _ & Ha).
  exists s. split; [exact Hs|]. rewrite Ha. reflexivity.
Defined.

(** The claim read on [calculateTableStatuses]: table 5 has two delivered
    orders with payment unpaid, of amounts 42 and 10; the sum is 52 and the
    reported amount is 10, the total of the newer one.  And on
    [processTableData]: for table 3 with only its paid order the sum is 0 and
    no amount is reported. *)
Lemma C4_reported_amount_counterexample :
  (spec_outstanding (mkTable 5) [unpaid42; unpaid10] = 52%float
   ∧ SimpleGrid.orderAmount
       <$> SimpleGrid.calculateTableStatuses 5000 [mkTable 5]
             [unpaid42; unpaid10]
     = [Some 10%float])
  ∧ (spec_outstanding table3 [order20] = 0%float
     ∧ Grid.orderAmount
         <$> Grid.tableStatuses (Grid.processTableData [table3] [order20] [])
       = [None]).
Proof. repeat split; by vm_compute. Qed.

(** Amounts with cents are added as the doubles they are: three unpaid
    orders of 0.10, 0.20 and 0.30 are reported as 0.6000000000000001, and
    one more euro on top of 2^53 is lost. *)
Example amounts_are_doubles :
  Grid.orderAmount
    <$> Grid.tableStatuses
          (Grid.processTableData [mkTable 5]
             [mkOrder "p" 5 0.1 pending None 1; mkOrder "q" 5 0.2 pending None 2;
              mkOrder "r" 5 0.3 pending None 3] [])
  = [Some 0.6000000000000001%float]
  ∧ Grid.orderAmount
      <$> Grid.tableStatuses
            (Grid.processTableData [mkTable 5]
               [mkOrder "p" 5 9007199254740992 pending None 1;
                mkOrder "q" 5 1 pending None 2] [])
    = [Some 9007199254740992%float].
Proof. split; by vm_compute. Qed.

(** ** Dependence on the snapshot and on the clock (C5) *)

Lemma filter_fmap_respect {A} (P : A → Prop) `{!∀ x, Decision (P x)}
    (f : A → A) (l : list A) :
  (∀ x, P (f x) ↔ P x) → filter P (f <$> l) = f <$> filter P l.
Proof.
  intros HP. induction l as [|x l IH]; [done|]. csimpl.
  destruct (decide (P x)) as [Hx|Hx].
  - rewrite !filter_cons_True by (done || by apply HP). csimpl. by rewrite IH.
  - rewrite !filter_cons_False by (done || by rewrite HP). done.
Qed.

Lemma filter_ext_elem {A} (P Q : A → Prop)
    `{!∀ x, Decision (P x), !∀ x, Decision (Q x)} (l : list A) :
  (∀ x, x ∈ l → P x ↔ Q x) → filter P l = filter Q l.
Proof.
  induction l as [|x l IH]; intros Hext; [done|].
  assert (filter P l = filter Q l) as IH'.
  { apply IH. intros y Hy. apply Hext. by apply list_elem_of_further. }
  pose proof (Hext x (list_elem_of_here _ _)) as Hx.
  destruct (decide (P x)).
  - rewrite !filter_cons_True by (done || by apply Hx). by rewrite IH'.
  - rewrite !filter_cons_False by (done || by rewrite <- Hx). done.
Qed.

Section GridTimeless.

(** A change of the orders that leaves table number, status, payment and
    total of every order as they are. *)
Variable f : Order → Order.
Hypothesis f_tableNumber : ∀ o, o_tableNumber (f o) = o_tableNumber o.
Hypothesis f_status : ∀ o, o_status (f o) = o_status o.
Hypothesis f_payment : ∀ o, o_payment (f o) = o_payment o.
Hypothesis f_totalAmount : ∀ o, o_totalAmount (f o) = o_totalAmount o.

Lemma reduceSum_amountOf_fmap l :
  reduceSum amountOf (f <$> l) = reduceSum amountOf l.
Proof.
  rewrite !reduceSum_addFromLeft, <- list_fmap_compose. f_equal.
  apply list_fmap_ext. intros _ o _. unfold amountOf. simpl.
  by rewrite f_payment, f_totalAmount.
Qed.

Lemma notPaid_fmap o : Grid.notPaid (f o) ↔ Grid.notPaid o.
Proof. unfold Grid.notPaid, paymentStatus. by rewrite f_payment. Qed.

Lemma isPaid_fmap o : Grid.isPaid (f o) ↔ Grid.isPaid o.
Proof. unfold Grid.isPaid, paymentStatus. by rewrite f_payment. Qed.

Lemma tableStatusOf_fmap sm orders T :
  Grid.tableStatusOf sm (Grid.ordersMapOf (f <$> orders)) T
  = Grid.tableStatusOf sm (Grid.ordersMapOf orders) T.
Proof.
  unfold Grid.tableStatusOf. rewrite !ordersMapOf_lookup.
  rewrite (filter_fmap_respect (λ o, o_tableNumber o = t_number T))
    by (intros o; by rewrite f_tableNumber).
  rewrite (filter_fmap_respect Grid.notPaid) by apply notPaid_fmap.
  rewrite reduceSum_amountOf_fmap.
  set (l := filter (λ o, o_tableNumber o = t_number T) orders).
  assert (bool_decide (Exists Grid.activeStatus (f <$> l))
          = bool_decide (Exists Grid.activeStatus l)) as ->.
  { apply bool_decide_ext. rewrite Exists_fmap. apply Exists_proper; [|done].
    intros o. unfold Grid.activeStatus. simpl. by rewrite f_status. }
  assert (bool_decide (Exists Grid.notPaid (f <$> l))
          = bool_decide (Exists Grid.notPaid l)) as ->; [|done].
  apply bool_decide_ext. rewrite Exists_fmap. apply Exists_proper; [|done].
  intros o. apply notPaid_fmap.
Qed.

Lemma processTableData_fmap tables orders reservations :
  Grid.processTableData tables (f <$> orders) reservations
  = Grid.processTableData tables orders reservations.
Proof.
  unfold Grid.processTableData.
  rewrite (filter_fmap_respect Grid.isPaid) by apply isPaid_fmap.
  rewrite reduceSum_amountOf_fmap.
  assert (Grid.tableStatusOf (Grid.seatedMapOf reservations)
            (Grid.ordersMapOf (f <$> orders)) <$> tables
          = Grid.tableStatusOf (Grid.seatedMapOf reservations)
              (Grid.ordersMapOf orders) <$> tables) as ->; [|done].
  apply list_fmap_ext. intros _ T _. apply tableStatusOf_fmap.
Qed.

End GridTimeless.

Lemma simpleStatusOf_clock now1 now2 orders T :
  (∀ o, o ∈ orders → o_status o = delivered → paymentStatus o = Some paid →
        (now1 - o_createdAt o < SimpleGrid.TWO_HOURS)%Z
        ↔ (now2 - o_createdAt o < SimpleGrid.TWO_HOURS)%Z) →
  SimpleGrid.simpleStatusOf now1 orders T
  = SimpleGrid.simpleStatusOf now2 orders T.
Proof.
  intros H. unfold SimpleGrid.simpleStatusOf.
  rewrite (filter_ext_elem (SimpleGrid.recentPaidOrder now1 T)
             (SimpleGrid.recentPaidOrder now2 T)); [done|].
  intros o Ho. unfold SimpleGrid.recentPaidOrder.
  split; intros (? & ? & ? & ?); split_and!; try done; by apply (H o Ho).
Qed.

Lemma calculateTableStatuses_clock now1 now2 tables orders :
  (∀ o, o ∈ orders → o_status o = delivered → paymentStatus o = Some paid →
        (now1 - o_createdAt o < SimpleGrid.TWO_HOURS)%Z
        ↔ (now2 - o_createdAt o < SimpleGrid.TWO_HOURS)%Z) →
  SimpleGrid.calculateTableStatuses now1 tables orders
  = SimpleGrid.calculateTableStatuses now2 tables orders.
Proof.
  intros H. unfold SimpleGrid.calculateTableStatuses.
  apply list_fmap_ext. intros _ T _. by apply simpleStatusOf_clock.
Qed.

(** C5 (as amended).  [processTableData] is a function of the tables, orders
    and reservations it is given and of nothing else, and it never looks at a
    time: moving every order's timestamps by the same amount leaves statuses
    and stats as they are.  [calculateTableStatuses] also reads the clock:
    two runs on the same tables and orders give the same statuses and the
    same stats when the two clock readings agree, for every delivered and
    paid order, on whether it is less than two hours old. *)
Theorem C5_snapshot_determinism :
  (∀ d tables orders reservations,
     Grid.processTableData tables (shiftTime d <$> orders) reservations
     = Grid.processTableData tables orders reservations)
  ∧ (∀ now1 now2 tables orders,
       (∀ o, o ∈ orders → o_status o = delivered →
             paymentStatus o = Some paid →
             (now1 - o_createdAt o < SimpleGrid.TWO_HOURS)%Z
             ↔ (now2 - o_createdAt o < SimpleGrid.TWO_HOURS)%Z) →
       SimpleGrid.calculateTableStatuses now1 tables orders
       = SimpleGrid.calculateTableStatuses now2 tables orders
       ∧ SimpleGrid.calculateStats
           (SimpleGrid.calculateTableStatuses now1 tables orders)
         = SimpleGrid.calculateStats
             (SimpleGrid.calculateTableStatuses now2 tables orders)).
Proof.
  split.
  - intros d tables orders reservations. by apply processTableData_fmap.
  - intros now1 now2 tables orders H.
    by rewrite (calculateTableStatuses_clock now1 now2 tables orders H).
Qed.

Lemma C5_snapshot_determinism_witness :
  SimpleGrid.calculateTableStatuses 5000 [table3] [order20; order15]
  = SimpleGrid.calculateTableStatuses 6000 [table3] [order20; order15].
Proof.
  apply (proj2 C5_snapshot_determinism 5000%Z 6000%Z [table3]
           [order20; order15]).
  intros o Ho _ _.
  apply elem_of_cons in Ho as [->|Ho];
    [|apply list_elem_of_singleton in Ho as ->]; by vm_compute.
Defined.

(** The claim read on [calculateTableStatuses]: the same tables and orders,
    read at two clock times, give different statuses and different stats. *)
Lemma C5_clock_counterexample :
  SimpleGrid.statusType
    <$> SimpleGrid.calculateTableStatuses 5000 [table3] [order20] = [SEATED]
  ∧ SimpleGrid.statusType
      <$> SimpleGrid.calculateTableStatuses 50000000 [table3] [order20]
    = [AVAILABLE]
  ∧ SimpleGrid.calculateStats
      (SimpleGrid.calculateTableStatuses 5000 [table3] [order20])
    ≠ SimpleGrid.calculateStats
        (SimpleGrid.calculateTableStatuses 50000000 [table3] [order20]).
Proof. split_and!; by vm_compute. Qed.

(** ** Open bills in the simpler grid's statistics (C9) *)

Lemma simpleStatusOf_open_bill_flags now orders T :
  SimpleGrid.statusType (SimpleGrid.simpleStatusOf now orders T) = OPEN_BILL →
  SimpleGrid.isOpenBill (SimpleGrid.simpleStatusOf now orders T) = true
  ∧ SimpleGrid.hasActiveOrder (SimpleGrid.simpleStatusOf now orders T) = false
  ∧ SimpleGrid.isSeated (SimpleGrid.simpleStatusOf now orders T) = false.
Proof.
  rewrite simpleStatusOf_statusType.
  destruct (SimpleGrid.isOpenBill _) eqn:Hob; [|by repeat case_match].
  intros _. split; [done|].
  destruct (SimpleGrid.hasActiveOrder _) eqn:Hact.
  { apply simpleStatusOf_hasActiveOrder in Hact as [_ ?]. congruence. }
  split; [done|].
  destruct (SimpleGrid.isSeated _) eqn:Hseat; [|done].
  apply simpleStatusOf_isSeated in Hseat as (_ & ? & _). congruence.
Qed.

Lemma simpleStatusOf_occupied now orders T :
  SimpleGrid.occupiedStatus (SimpleGrid.simpleStatusOf now orders T)
  ↔ ¬ (SimpleGrid.statusType (SimpleGrid.simpleStatusOf now orders T) = OPEN_BILL
       ∨ SimpleGrid.statusType (SimpleGrid.simpleStatusOf now orders T)
         = AVAILABLE).
Proof.
  unfold SimpleGrid.occupiedStatus.
  pose proof (simpleStatusOf_open_bill_flags now orders T) as Hflags.
  rewrite simpleStatusOf_statusType in *.
  destruct (SimpleGrid.isOpenBill _).
  - destruct (Hflags eq_refl) as (_ & -> & ->). naive_solver.
  - destruct (SimpleGrid.hasActiveOrder _), (SimpleGrid.isSeated _);
      naive_solver.
Qed.

Lemma filter_complement_length {A} (P : A → Prop) `{!∀ x, Decision (P x)}
    (l : list A) :
  length l - length (filter P l) = length (filter (λ x, ¬ P x) l).
Proof.
  pose proof (filter_app_complement P l) as Hp.
  apply Permutation_length in Hp. rewrite length_app in Hp. lia.
Qed.

(** C9.  In the simpler grid a table classified open bill has neither the
    active-order nor the seated flag; [occupied] counts the tables with one
    of these flags and [available] is [totalTables] minus [occupied], so
    [available] counts the open-bill tables together with the available
    ones. *)
Theorem C9_open_bill_counted_available now tables orders :
  let statuses := SimpleGrid.calculateTableStatuses now tables orders in
  let st := SimpleGrid.calculateStats statuses in
  (∀ s, s ∈ statuses → SimpleGrid.statusType s = OPEN_BILL →
        SimpleGrid.hasActiveOrder s = false ∧ SimpleGrid.isSeated s = false)
  ∧ SimpleGrid.occupied st
    = length (filter (λ s, SimpleGrid.hasActiveOrder s = true
                           ∨ SimpleGrid.isSeated s = true) statuses)
  ∧ SimpleGrid.available st
    = SimpleGrid.totalTables st - SimpleGrid.occupied st
  ∧ SimpleGrid.available st
    = length (filter (λ s, SimpleGrid.statusType s = OPEN_BILL
                           ∨ SimpleGrid.statusType s = AVAILABLE) statuses).
Proof.
  intros statuses st. split_and!.
  - intros s Hs Hst. unfold statuses, SimpleGrid.calculateTableStatuses in Hs.
    apply list_elem_of_fmap in Hs as (T & -> & _).
    by apply simpleStatusOf_open_bill_flags in Hst as (_ & ? & ?).
  - simpl. f_equal. apply list_filter_iff. intros s.
    unfold SimpleGrid.occupiedStatus. rewrite orb_true_iff. done.
  - done.
  - simpl. rewrite filter_complement_length. f_equal.
    apply filter_ext_elem. intros s Hs.
    unfold statuses, SimpleGrid.calculateTableStatuses in Hs.
    apply list_elem_of_fmap in Hs as (T & -> & _).
    rewrite simpleStatusOf_occupied. split; [apply dec_stable|tauto].
Qed.

(** Table 5 with two delivered, unpaid orders is an open bill and is counted
    as available. *)
Example open_bill_table_counted_available :
  SimpleGrid.statusType
    <$> SimpleGrid.calculateTableStatuses 5000 [mkTable 5] [unpaid42; unpaid10]
  = [OPEN_BILL]
  ∧ SimpleGrid.calculateStats
      (SimpleGrid.calculateTableStatuses 5000 [mkTable 5] [unpaid42; unpaid10])
    = {| SimpleGrid.totalTables := 1; SimpleGrid.available := 1;
         SimpleGrid.occupied := 0; SimpleGrid.openBills := 1;
         SimpleGrid.totalRevenue := 10 |}.
Proof. split; by vm_compute. Qed.

(** ** The busy flag and the delete guard (C6, C7) *)

Section OrderManagementFacts.

Import OrderService OrderManagement.

Context {Store Filters : Type} `{!API Store Filters}.

Implicit Types s : State Store Filters.

#[local] Abbreviation growing := (grows (Store := Store) (Filters := Filters)).

Lemma refusedWith_unchanged msg s s' :
  refusedWith msg s s' →
  orders s' = orders s ∧ stats s' = stats s ∧ store s' = store s
  ∧ isUpdating s' = isUpdating s
  ∧ effects s' = effects s ++ [ToastError msg].
Proof. by intros ->. Qed.

Lemma updateOrderStatus_busy s orderId newStatus :
  isUpdating s = true →
  refusedWith MSG_BUSY s (exec (updateOrderStatus orderId newStatus) s).
Proof. intros Hb. unfold exec, updateOrderStatus. by rewrite Hb. Qed.

Lemma verifyLoyaltyDiscount_busy s orderId :
  isUpdating s = true →
  refusedWith MSG_BUSY s (exec (verifyLoyaltyDiscount orderId) s).
Proof. intros Hb. unfold exec, verifyLoyaltyDiscount. by rewrite Hb. Qed.

Lemma deleteOrder_busy s orderId :
  isUpdating s = true →
  let s' := exec (deleteOrder orderId) s in
  orders s' = orders s ∧ stats s' = stats s ∧ store s' = store s
  ∧ isUpdating s' = true
  ∧ ∃ es, effects s' = effects s ++ es ∧ Forall (λ e, ¬ isStoreCall e) es.
Proof.
  intros Hb. unfold exec, deleteOrder.
  destruct (List.find _ (orders s)) as [order|].
  - destruct (canDeleteOrder order); simpl.
    + unfold mbind, Handler_bind, window_confirm.
      destruct (default false (head (answers s))); simpl.
      * rewrite Hb. simpl. split_and!; [done..|].
        eexists [_; _]. rewrite <- app_assoc. split; [done|].
        repeat constructor; by intros [].
      * split_and!; [done..|]. eexists [_]. split; [done|].
        repeat constructor; by intros [].
    + split_and!; [done..|]. eexists [_]. split; [done|].
      repeat constructor; by intros [].
  - simpl. split_and!; [done..|]. exists []. by rewrite app_nil_r.
Qed.

Lemma deleteOrder_not_pending s orderId order :
  List.find (λ o, bool_decide (o_id o = orderId)) (orders s) = Some order →
  o_status order ≠ pending →
  refusedWith MSG_NOT_DELETABLE s (exec (deleteOrder orderId) s).
Proof.
  intros Hf Hst. unfold exec, deleteOrder. rewrite Hf.
  unfold canDeleteOrder. by rewrite bool_decide_eq_false_2.
Qed.

(** The delete button the completed view shows for a cancelled order calls
    the same handler, and is refused like any other order that is not
    pending. *)
Lemma purge_button_refused s order :
  activeTab s = completed →
  deleteButtonShown (activeTab s) order = true →
  List.find (λ o, bool_decide (o_id o = o_id order)) (orders s) = Some order →
  deleteRefused s order.
Proof.
  intros -> Hshown Hf. apply bool_decide_eq_true in Hshown.
  eapply deleteOrder_not_pending; [exact Hf|]. by rewrite Hshown.
Qed.

Lemma grows_ret {A} (a : A) : growing (mret a : Handler _ A).
Proof. intros s. exists []. simpl. by rewrite app_nil_r. Qed.

Lemma grows_bind {A B} (c : Handler (State Store Filters) A)
    (k : A → Handler (State Store Filters) B) :
  growing c → (∀ a, growing (k a)) → growing (c ≫= k).
Proof.
  intros Hc Hk s. unfold mbind, Handler_bind.
  destruct (Hc s) as [es1 H1]. destruct (c s) as [a s1]. simpl in H1.
  destruct (Hk a s1) as [es2 H2]. exists (es1 ++ es2).
  by rewrite H2, H1, app_assoc.
Qed.

Lemma grows_modify (f : State Store Filters → State Store Filters) :
  (∀ s, effects (f s) = effects s) → growing (modify f).
Proof. intros Hf s. exists []. simpl. by rewrite Hf, app_nil_r. Qed.

Lemma grows_emit e : growing (emit e).
Proof. intros s. by exists [e]. Qed.

Lemma grows_when b (c : Handler (State Store Filters) unit) :
  growing c → growing (when b c).
Proof. destruct b; [done|]. intros _. apply grows_ret. Qed.

Lemma grows_storeRead {A} c (run : Store → string + A) :
  growing (storeRead c run).
Proof. intros s. by exists [Store_call c]. Qed.

Lemma grows_loadOrders mounted fs : growing (loadOrders mounted fs).
Proof.
  unfold loadOrders. destruct mounted; simpl; [|apply grows_ret].
  repeat (apply grows_bind; [|intros ?]);
    try apply grows_emit; try (by apply grows_modify);
    try apply grows_storeRead.
  case_match; repeat (apply grows_bind; [|intros ?]);
    try apply grows_emit; by apply grows_modify.
Qed.

Lemma grows_loadStats mounted : growing (loadStats mounted).
Proof.
  unfold loadStats. destruct mounted; simpl; [|apply grows_ret].
  apply grows_bind; [apply grows_storeRead|]. intros [?|?].
  - apply grows_emit.
  - by apply grows_modify.
Qed.

(** Once the flag is taken the write is the first thing sent. *)
Lemma guardedWrite_calls mounted fs c run onSuccess failLog failToast s :
  ∃ es, effects (exec (guardedWrite mounted fs c run onSuccess failLog
                         failToast) s)
        = effects s ++ Store_call c :: es.
Proof.
  unfold exec, guardedWrite.
  unfold mbind at 1 2. unfold Handler_bind at 1 2. simpl.
  unfold storeWrite. simpl.
  set (s1 := setEffects (effects s ++ [Store_call c]) (setIsUpdating true s)).
  assert (∀ ok s2, effects s2 = effects s ++ [Store_call c] →
    ∃ es, effects
            (((if ok : bool then
                 when mounted
                   (emit onSuccess;; loadOrders mounted fs;; loadStats mounted)
               else
                 when mounted
                   (emit (ConsoleError failLog);; toast_error failToast));;
              when mounted (modify (setIsUpdating false))) s2).2
          = effects s ++ Store_call c :: es) as Hrest.
  { intros ok s2 E.
    assert (grows
              ((if ok then
                  when mounted
                    (emit onSuccess;; loadOrders mounted fs;;
                     loadStats mounted)
                else
                  when mounted
                    (emit (ConsoleError failLog);; toast_error failToast));;
               when mounted (modify (setIsUpdating false)))) as Hg.
    { apply grows_bind; [|intros _; by apply grows_when, grows_modify].
      destruct ok; apply grows_when;
        repeat (apply grows_bind; [|intros ?]);
        first [apply grows_emit|apply grows_loadOrders|apply grows_loadStats]. }
    destruct (Hg s2) as [es Hes]. exists es.
    by rewrite Hes, E, <- app_assoc. }
  destruct (run (store s)) as [msg|store'];
    [apply (Hrest false)|apply (Hrest true)]; done.
Qed.

(** Once the flag is free, a transition sends its write to the store. *)
Lemma updateOrderStatus_idle s orderId newStatus :
  isUpdating s = false →
  ∃ es, effects (exec (updateOrderStatus orderId newStatus) s)
        = effects s ++ Store_call (CallUpdateStatus orderId newStatus) :: es.
Proof.
  intros Hb. unfold exec, updateOrderStatus. rewrite Hb.
  apply guardedWrite_calls.
Qed.

(** C6.  While an operation is in flight (the busy flag is set), a status
    transition is refused before any call to the store: orders, stats and
    store stay as they are and the error toast is raised.  Loyalty
    verification is refused the same way, and delete never reaches the store
    either. *)
Theorem C6_busy_flag_rejects s orderId newStatus :
  isUpdating s = true →
  (let s' := exec (updateOrderStatus orderId newStatus) s in
   orders s' = orders s ∧ stats s' = stats s ∧ store s' = store s
   ∧ effects s' = effects s ++ [ToastError MSG_BUSY])
  ∧ (let s' := exec (verifyLoyaltyDiscount orderId) s in
     orders s' = orders s ∧ stats s' = stats s ∧ store s' = store s
     ∧ effects s' = effects s ++ [ToastError MSG_BUSY])
  ∧ (let s' := exec (deleteOrder orderId) s in
     orders s' = orders s ∧ stats s' = stats s ∧ store s' = store s
     ∧ ∃ es, effects s' = effects s ++ es
             ∧ Forall (λ e, ¬ isStoreCall e) es).
Proof.
  intros Hb.
  pose proof (updateOrderStatus_busy s orderId newStatus Hb) as Hu.
  pose proof (verifyLoyaltyDiscount_busy s orderId Hb) as Hv.
  destruct (deleteOrder_busy s orderId Hb) as (Ho & Hs & Hst & _ & He).
  unfold refusedWith in Hu, Hv.
  split; [by rewrite Hu|]. split; [by rewrite Hv|]. done.
Qed.

(** Delete on an order that is not pending (confirmed, preparing, ready,
    delivered or cancelled) never reaches the store and raises the error
    toast; the state is otherwise as it was. *)
Theorem C7_delete_only_pending s orderId order :
  List.find (λ o, bool_decide (o_id o = orderId)) (orders s) = Some order →
  o_status order ≠ pending →
  let s' := exec (deleteOrder orderId) s in
  s' = setEffects (effects s ++ [ToastError MSG_NOT_DELETABLE]) s
  ∧ store s' = store s ∧ orders s' = orders s ∧ stats s' = stats s
  ∧ effects s' = effects s ++ [ToastError MSG_NOT_DELETABLE].
Proof.
  intros Hf Hst s'. unfold s'.
  by rewrite (deleteOrder_not_pending s orderId order Hf Hst).
Qed.

End OrderManagementFacts.

Lemma C6_busy_flag_rejects_witness :
  OrderManagement.store
    (exec (OrderManagement.updateOrderStatus "b" confirmed)
       (viewState OrderManagement.inProgress true))
  = [order20; order15; orderCancelled]
  ∧ OrderManagement.effects
      (exec (OrderManagement.updateOrderStatus "b" confirmed)
         (viewState OrderManagement.inProgress true))
    = [OrderManagement.ToastError OrderManagement.MSG_BUSY].
Proof.
  destruct (C6_busy_flag_rejects (viewState OrderManagement.inProgress true)
              "b" confirmed eq_refl) as ((_ & _ & Hstore & Heff) & _).
  split; [exact Hstore|exact Heff].
Defined.

Lemma C7_delete_only_pending_witness :
  OrderManagement.store
    (exec (OrderManagement.deleteOrder "a")
       (viewState OrderManagement.completed false))
  = [order20; order15; orderCancelled]
  ∧ OrderManagement.effects
      (exec (OrderManagement.deleteOrder "a")
         (viewState OrderManagement.completed false))
    = [OrderManagement.ToastError OrderManagement.MSG_NOT_DELETABLE].
Proof.
  destruct (C7_delete_only_pending (viewState OrderManagement.completed false)
              "a" order20 eq_refl) as (_ & Hstore & _ & _ & Heff).
  - discriminate.
  - split; [exact Hstore|exact Heff].
Defined.

(** C7.  The purge of a cancelled order, run on the code: the completed view
    draws the delete button for the cancelled order, nothing is in flight
    and the user would confirm both dialogs; pressing the button leaves the
    order in the store and raises the error toast of the guard, which admits
    pending orders only. *)
Theorem C7_purge_is_refused :
  let s := viewState OrderManagement.completed false in
  OrderManagement.deleteButtonShown (OrderManagement.activeTab s)
    orderCancelled = true
  ∧ OrderManagement.isUpdating s = false
  ∧ OrderManagement.answers s = [true; true]
  ∧ OrderManagement.store
      (exec (OrderManagement.deleteOrder (o_id orderCancelled)) s)
    = [order20; order15; orderCancelled]
  ∧ OrderManagement.effects
      (exec (OrderManagement.deleteOrder (o_id orderCancelled)) s)
    = [OrderManagement.ToastError OrderManagement.MSG_NOT_DELETABLE].
Proof.
  intros s.
  assert (OrderManagement.deleteRefused s orderCancelled) as Hr
    by (apply purge_button_refused; reflexivity).
  split_and!; [reflexivity..| |]; by rewrite Hr.
Qed.

(** With the flag free, a confirmed delete of the pending order reaches the
    store and removes the order; a transition updates it. *)
Example delete_pending_goes_through :
  OrderManagement.store
    (exec (OrderManagement.deleteOrder "b")
       (viewState OrderManagement.inProgress false))
  = [order20; orderCancelled]
  ∧ OrderManagement.Store_call (OrderManagement.CallDelete "b")
    ∈ OrderManagement.effects
        (exec (OrderManagement.deleteOrder "b")
           (viewState OrderManagement.inProgress false)).
Proof. split; [by vm_compute|]. vm_compute. set_solver. Qed.

Example transition_goes_through :
  o_status
    <$> OrderManagement.store
          (exec (OrderManagement.updateOrderStatus "b" confirmed)
             (viewState OrderManagement.inProgress false))
  = [delivered; confirmed; cancelled]
  ∧ OrderManagement.isUpdating
      (exec (OrderManagement.updateOrderStatus "b" confirmed)
         (viewState OrderManagement.inProgress false))
    = false.
Proof. split; by vm_compute. Qed.

(** ** Bar operations: suppressed snapshots and excluded items (C8, C10) *)

Section BarOperationsFacts.

Import BarOperations.

Lemma menuItemsMapOf_from (menuItems : list MenuItem)
    (m : gmap string MenuItem) k :
  foldl (λ m item, <[m_id item := item]> m) m menuItems !! k = None
  ↔ m !! k = None ∧ ∀ item, item ∈ menuItems → m_id item ≠ k.
Proof.
  revert m. induction menuItems as [|x l IH]; intros m; simpl.
  - split; [|by intros [? _]]. intros ?. split; [done|].
    intros item Hi. by apply elem_of_nil in Hi.
  - rewrite IH, lookup_insert_None. split.
    + intros [[Hm Hx] Hl]. split; [done|]. intros item Hi.
      apply elem_of_cons in Hi as [->|Hi]; [done|by apply Hl].
    + intros [Hm Hl]. split_and!; [done| |].
      * apply Hl, list_elem_of_here.
      * intros item Hi. by apply Hl, list_elem_of_further.
Qed.

(** An id is missing from the map exactly when no menu item carries it. *)
Lemma menuItemsMapOf_None menuItems k :
  menuItemsMapOf menuItems !! k = None
  ↔ ∀ item, item ∈ menuItems → m_id item ≠ k.
Proof.
  unfold menuItemsMapOf. rewrite menuItemsMapOf_from, lookup_empty. tauto.
Qed.

Lemma categorizeItems_from m order items acc :
  foldl (categorizeItem m order) acc items
  = {| drinks := drinks acc ++ entriesOf_items (drinkItem m) order items;
       shisha := shisha acc ++ entriesOf_items (shishaItem m) order items;
       warned := warned acc ++ omap (missingItem m) items |}.
Proof.
  revert acc. induction items as [|i items IH]; intros acc; simpl.
  - rewrite !app_nil_r. by destruct acc.
  - rewrite IH. unfold categorizeItem, entriesOf_items, drinkItem, shishaItem,
      missingItem. simpl.
    destruct (m !! menuItemId i) as [mi|]; simpl.
    + repeat case_bool_decide; repeat case_guard; simpl;
        try done; by rewrite <- app_assoc.
    + by rewrite <- app_assoc.
Qed.

Lemma categorize_from m orders acc :
  foldl (λ acc order, foldl (categorizeItem m order) acc (o_items order))
    acc orders
  = {| drinks := drinks acc ++ (orders ≫= entriesOf (drinkItem m));
       shisha := shisha acc ++ (orders ≫= entriesOf (shishaItem m));
       warned :=
         warned acc ++ (orders ≫= λ o, omap (missingItem m) (o_items o)) |}.
Proof.
  revert acc. induction orders as [|o orders IH]; intros acc; csimpl.
  - rewrite !app_nil_r. by destruct acc.
  - rewrite IH, categorizeItems_from. simpl. by rewrite <- !app_assoc.
Qed.

(** The two loops, read as a selection over the line items. *)
Lemma categorize_spec m orders :
  categorize m orders
  = {| drinks := orders ≫= entriesOf (drinkItem m);
       shisha := orders ≫= entriesOf (shishaItem m);
       warned := orders ≫= (λ o, omap (missingItem m) (o_items o)) |}.
Proof. unfold categorize. by rewrite categorize_from. Qed.

Lemma drinkItem_Some m i mi :
  drinkItem m i = Some mi
  ↔ m !! menuItemId i = Some mi ∧ m_category mi ∈ DRINKS.
Proof.
  unfold drinkItem. destruct (m !! menuItemId i) as [x|]; simpl.
  - case_guard; simpl; naive_solver.
  - naive_solver.
Qed.

Lemma shishaItem_Some m i mi :
  shishaItem m i = Some mi
  ↔ m !! menuItemId i = Some mi
    ∧ (m_category mi ∉ DRINKS) ∧ m_category mi ∈ SHISHA.
Proof.
  unfold shishaItem. destruct (m !! menuItemId i) as [x|]; simpl.
  - repeat (case_guard; simpl); naive_solver.
  - naive_solver.
Qed.

Lemma elem_of_entries pick orders e :
  e ∈ orders ≫= entriesOf pick
  → pick (currentItem e).1 = Some (currentItem e).2
    ∧ owi_order e ∈ orders ∧ (currentItem e).1 ∈ o_items (owi_order e).
Proof.
  intros He. apply list_elem_of_bind in He as (o & He & Ho).
  unfold entriesOf, entriesOf_items in He.
  apply list_elem_of_omap in He as (i & Hi & Hp).
  destruct (pick i) as [mi|] eqn:E; simplify_eq/=. done.
Qed.

Lemma length_entries pick orders :
  length (orders ≫= entriesOf pick)
  = length (filter (λ i, is_Some (pick i)) (orders ≫= o_items)).
Proof.
  induction orders as [|o orders IH]; [done|]. csimpl.
  rewrite filter_app, !length_app, IH. f_equal.
  unfold entriesOf, entriesOf_items.
  induction (o_items o) as [|i items IHi]; [done|]. csimpl.
  destruct (pick i) as [mi|] eqn:E; simpl.
  - rewrite filter_cons_True by (rewrite E; by eexists). simpl. by rewrite IHi.
  - rewrite filter_cons_False by (rewrite E; by intros [? ?]). done.
Qed.

Section WithJSON.

Context `{!JSON}.

Lemma processOrdersWithMenuItems_same_hash orders menuItems s :
  ordersHashOf orders = lastProcessedOrdersRef s →
  processOrdersWithMenuItems orders menuItems s = s.
Proof.
  intros Hh. unfold processOrdersWithMenuItems.
  destruct (isProcessingRef s); [done|]. by rewrite bool_decide_eq_true_2.
Qed.

Lemma processOrdersWithMenuItems_recomputes orders menuItems s :
  isProcessingRef s = false →
  ordersHashOf orders ≠ lastProcessedOrdersRef s →
  processOrdersWithMenuItems orders menuItems s
  = {| isProcessingRef := true;
       lastProcessedOrdersRef := ordersHashOf orders;
       drinkOrders := drinks (categorize (menuItemsMapOf menuItems) orders);
       shishaOrders := shisha (categorize (menuItemsMapOf menuItems) orders);
       timers := timers s ++ [100];
       warnings :=
         warnings s ++ warned (categorize (menuItemsMapOf menuItems) orders) |}.
Proof.
  intros Hp Hh. unfold processOrdersWithMenuItems.
  by rewrite Hp, bool_decide_eq_false_2.
Qed.

(** C8.  A snapshot whose records have the id, status and update time of the
    records of the snapshot processed last is not processed again: the
    state, the drinks and shisha lists in it, stays as it is.  The state
    changes only when nothing is being processed and the fingerprint
    differs from the one processed last. *)
Theorem C8_unchanged_fingerprint_skips orders menuItems s :
  (∀ lastOrders,
     lastProcessedOrdersRef s = ordersHashOf lastOrders →
     fingerprintOf orders = fingerprintOf lastOrders →
     processOrdersWithMenuItems orders menuItems s = s)
  ∧ (processOrdersWithMenuItems orders menuItems s ≠ s
     ↔ isProcessingRef s = false
       ∧ ordersHashOf orders ≠ lastProcessedOrdersRef s).
Proof.
  split.
  - intros lastOrders Hl Hf. apply processOrdersWithMenuItems_same_hash.
    rewrite Hl. unfold ordersHashOf. by rewrite Hf.
  - split.
    + intros Hne. destruct (isProcessingRef s) eqn:Hp.
      { destruct Hne. unfold processOrdersWithMenuItems. by rewrite Hp. }
      split; [done|]. intros Hh. apply Hne.
      by apply processOrdersWithMenuItems_same_hash.
    + intros [Hp Hh] E.
      rewrite (processOrdersWithMenuItems_recomputes _ _ _ Hp Hh) in E.
      apply (f_equal isProcessingRef) in E. simpl in E. congruence.
Qed.

(** C10.  When the orders are processed, a line item whose id no menu item
    carries, or whose menu item has a category outside the drinks and the
    shisha categories, yields no entry of the drinks list or of the shisha
    list, and so does not count in [totalOrders]; the only trace is the
    console warning for an id that is not on the menu. *)
Theorem C10_unlisted_items_excluded orders menuItems s :
  isProcessingRef s = false →
  ordersHashOf orders ≠ lastProcessedOrdersRef s →
  let m := menuItemsMapOf menuItems in
  let s' := processOrdersWithMenuItems orders menuItems s in
  drinkOrders s' = orders ≫= entriesOf (drinkItem m)
  ∧ shishaOrders s' = orders ≫= entriesOf (shishaItem m)
  ∧ (∀ i,
       (∀ item, item ∈ menuItems → m_id item ≠ menuItemId i)
       ∨ (∃ mi, m !! menuItemId i = Some mi
                ∧ (m_category mi ∉ DRINKS) ∧ (m_category mi ∉ SHISHA)) →
       ∀ e, e ∈ drinkOrders s' ++ shishaOrders s' → (currentItem e).1 ≠ i)
  ∧ totalOrders s'
    = length (filter (λ i, is_Some (drinkItem m i)) (orders ≫= o_items))
      + length (filter (λ i, is_Some (shishaItem m i)) (orders ≫= o_items))
  ∧ warnings s'
    = warnings s ++ (orders ≫= λ o, omap (missingItem m) (o_items o)).
Proof.
  intros Hp Hh m s'. unfold s'.
  rewrite (processOrdersWithMenuItems_recomputes _ _ _ Hp Hh).
  fold m. rewrite categorize_spec. unfold totalOrders. simpl.
  split_and!; [done|done| |by rewrite !length_entries|done].
  intros i Hi e He <-.
  assert (∃ mi, m !! menuItemId (currentItem e).1 = Some mi
                ∧ (m_category mi ∈ DRINKS ∨ m_category mi ∈ SHISHA))
    as (mi & Hm & Hc).
  { apply elem_of_app in He as [He|He];
      apply elem_of_entries in He as (Hpick & _).
    - apply drinkItem_Some in Hpick. naive_solver.
    - apply shishaItem_Some in Hpick. naive_solver. }
  destruct Hi as [Hnone|(mi' & Hm' & Hnd & Hns)].
  - apply menuItemsMapOf_None in Hnone. unfold m in Hm. congruence.
  - assert (mi' = mi) as -> by congruence. tauto.
Qed.

Lemma categorize_listedOnly m orders :
  Forall (λ e, m_category (currentItem e).2 ∈ DRINKS)
    (drinks (categorize m orders))
  ∧ Forall (λ e, m_category (currentItem e).2 ∈ SHISHA
                 ∧ m_category (currentItem e).2 ∉ DRINKS)
      (shisha (categorize m orders)).
Proof.
  rewrite categorize_spec. simpl. split; apply Forall_forall; intros e He;
    apply elem_of_entries in He as (Hpick & _).
  - by apply drinkItem_Some in Hpick as [_ ?].
  - by apply shishaItem_Some in Hpick as (_ & ? & ?).
Qed.

Lemma step_listedOnly s s' : step s s' → listedOnly s → listedOnly s'.
Proof.
  intros [orders menuItems s0|s0] Hinv; [|done].
  unfold processOrdersWithMenuItems.
  destruct (isProcessingRef s0); [done|].
  case_bool_decide; [done|]. apply categorize_listedOnly.
Qed.

(** Whatever snapshots and menus arrive, and whenever the timer fires, the
    two lists hold only line items of their own categories. *)
Theorem reachable_listedOnly s :
  rtc step initialState s → listedOnly s.
Proof.
  intros Hr.
  assert (∀ s0, rtc step s0 s → listedOnly s0 → listedOnly s) as Hgen.
  { clear Hr. intros s0 Hr. induction Hr as [|s0 s1 s2 Hs _ IH]; [done|].
    intros Hinv. by apply IH, (step_listedOnly s0). }
  apply (Hgen initialState Hr). by split; constructor.
Qed.

End WithJSON.

End BarOperationsFacts.

Lemma reachable_listedOnly_witness :
  BarOperations.listedOnly
    (BarOperations.timerFires
       (BarOperations.processOrdersWithMenuItems [barOrder] exampleMenu
          BarOperations.initialState)).
Proof.
  apply reachable_listedOnly.
  eapply rtc_l; [apply BarOperations.step_process|].
  eapply rtc_l; [apply BarOperations.step_timer|]. apply rtc_refl.
Defined.

Lemma C8_unchanged_fingerprint_skips_witness :
  let s1 :=
    BarOperations.timerFires
      (BarOperations.processOrdersWithMenuItems [barOrder] exampleMenu
         BarOperations.initialState) in
  BarOperations.processOrdersWithMenuItems [barOrderAgain] exampleMenu s1 = s1.
Proof.
  intros s1.
  apply (proj1 (C8_unchanged_fingerprint_skips [barOrderAgain] exampleMenu s1)
           [barOrder]); reflexivity.
Defined.

Lemma C10_unlisted_items_excluded_witness :
  BarOperations.totalOrders
    (BarOperations.processOrdersWithMenuItems [barOrder] exampleMenu
       BarOperations.initialState) = 2
  ∧ BarOperations.warnings
      (BarOperations.processOrdersWithMenuItems [barOrder] exampleMenu
         BarOperations.initialState) = ["ghost"].
Proof.
  destruct (C10_unlisted_items_excluded [barOrder] exampleMenu
              BarOperations.initialState eq_refl)
    as (_ & _ & _ & Htotal & Hwarn).
  - vm_compute. discriminate.
  - split; [rewrite Htotal|rewrite Hwarn]; by vm_compute.
Defined.

(** The order of table 7 at the bar: the drink and the shisha are listed,
    the dish and the unknown item are not. *)
Example bar_order_listed :
  let s' :=
    BarOperations.processOrdersWithMenuItems [barOrder] exampleMenu
      BarOperations.initialState in
  (λ e, menuItemId (BarOperations.currentItem e).1)
    <$> BarOperations.drinkOrders s' = ["cola"]
  ∧ (λ e, menuItemId (BarOperations.currentItem e).1)
      <$> BarOperations.shishaOrders s' = ["apple"]
  ∧ BarOperations.isProcessingRef s' = true.
Proof. by vm_compute. Qed.

(** * Further properties *)

(** ** Order management: tabs and row actions *)

Section OrderManagementViewFacts.

Import OrderService OrderManagement OrderManagementView.

Lemma completed_iff_not_inProgress (st : OrderStatus) :
  st ∈ completedStatuses ↔ ¬ st ∈ inProgressStatuses.
Proof. destruct st; unfold completedStatuses, inProgressStatuses; set_solver. Qed.

(** Every order is on exactly one of the two tabs: the tabs together show
    the orders, each once, and no order is on both. *)
Theorem tabs_partition_orders (orders : list Order) :
  getFilteredOrders inProgress orders ++ getFilteredOrders completed orders
    ≡ₚ orders
  ∧ length (getFilteredOrders inProgress orders)
    + length (getFilteredOrders completed orders) = length orders
  ∧ ∀ o, o ∈ getFilteredOrders inProgress orders →
         o ∈ getFilteredOrders completed orders → False.
Proof.
  assert (getFilteredOrders completed orders
          = filter (λ o, ¬ o_status o ∈ inProgressStatuses) orders) as Hc.
  { apply list_filter_iff. intros o. apply completed_iff_not_inProgress. }
  assert (getFilteredOrders inProgress orders ++ getFilteredOrders completed orders
            ≡ₚ orders) as Hp.
  { rewrite Hc. apply filter_app_complement. }
  split_and!; [done| |].
  - apply Permutation_length in Hp. by rewrite length_app in Hp.
  - intros o Hi Hco. rewrite Hc in Hco.
    apply list_elem_of_filter in Hi as [Hi _].
    apply list_elem_of_filter in Hco as [Hco _]. done.
Qed.

(** A row offers a transition exactly on the in-progress tab, and then
    exactly the next step of the lifecycle: never a step back, never a step
    skipped, never a cancellation. *)
Theorem row_offers_next_step (activeTab : TabType) (order : Order)
    (newStatus : OrderStatus) :
  PressTransition newStatus ∈ rowActions activeTab order
  ↔ activeTab = inProgress ∧ nextStatus (o_status order) = Some newStatus.
Proof.
  unfold rowActions, canDeleteOrder.
  destruct activeTab, (o_status order), newStatus; simpl;
    (split; [intros H; try (by split); exfalso; set_solver
            |intros [? ?]; try done; set_solver]).
Qed.

End OrderManagementViewFacts.

(** ** Order management: what the handlers leave behind *)

Section OrderManagementHandlerFacts.

Import OrderService OrderManagement OrderManagementView.

Context {Store Filters : Type} `{!API Store Filters}.

Implicit Types s : State Store Filters.

#[local] Abbreviation keeping :=
  (keeps (Store := Store) (Filters := Filters)).

Lemma keeps_ret {A X} (f : State Store Filters → X) (a : A) :
  keeping f (mret a : Handler _ A).
Proof. by intros s. Qed.

Lemma keeps_bind {A B X} (f : State Store Filters → X)
    (c : Handler (State Store Filters) A)
    (k : A → Handler (State Store Filters) B) :
  keeping f c → (∀ a, keeping f (k a)) → keeping f (c ≫= k).
Proof.
  intros Hc Hk s. unfold mbind, Handler_bind.
  specialize (Hc s). destruct (c s) as [a s1]. simpl in Hc.
  by rewrite Hk.
Qed.

Lemma keeps_modify {X} (f : State Store Filters → X) g :
  (∀ s, f (g s) = f s) → keeping f (modify g).
Proof. intros Hg s. apply Hg. Qed.

Lemma keeps_emit {X} (f : State Store Filters → X) e :
  (∀ s es, f (setEffects es s) = f s) → keeping f (emit e).
Proof. intros Hf s. apply Hf. Qed.

Lemma keeps_storeRead {A X} (f : State Store Filters → X) c
    (run : Store → string + A) :
  (∀ s es, f (setEffects es s) = f s) → keeping f (storeRead c run).
Proof. intros Hf s. apply Hf. Qed.

Lemma keeps_when {X} (f : State Store Filters → X) b
    (c : Handler (State Store Filters) unit) :
  keeping f c → keeping f (when b c).
Proof. destruct b; [done|]. intros _. apply keeps_ret. Qed.

(** A reading that neither the effects, nor the loading flag, nor the
    orders, nor the stats enter is untouched by the two loads. *)
Lemma keeps_loadOrders {X} (f : State Store Filters → X) mounted fs :
  (∀ s es, f (setEffects es s) = f s) →
  (∀ s b, f (setLoading b s) = f s) →
  (∀ s os, f (setOrders os s) = f s) →
  keeping f (loadOrders mounted fs).
Proof.
  intros He Hl Ho. unfold loadOrders. destruct mounted; simpl;
    [|apply keeps_ret].
  repeat (apply keeps_bind; [|intros ?]);
    try (by apply keeps_emit); try (by apply keeps_modify);
    try (by apply keeps_storeRead).
  case_match; repeat (apply keeps_bind; [|intros ?]);
    try (by apply keeps_emit); by apply keeps_modify.
Qed.

Lemma keeps_loadStats {X} (f : State Store Filters → X) mounted :
  (∀ s es, f (setEffects es s) = f s) →
  (∀ s st, f (setStats st s) = f s) →
  keeping f (loadStats mounted).
Proof.
  intros He Hs. unfold loadStats. destruct mounted; simpl; [|apply keeps_ret].
  apply keeps_bind; [by apply keeps_storeRead|]. intros [?|?].
  - by apply keeps_emit.
  - by apply keeps_modify.
Qed.

(** The block behind the busy flag hands the flag back when the component
    is mounted, whatever the store answers. *)
Lemma guardedWrite_releases fs c run onSuccess failLog failToast s :
  isUpdating
    (exec (guardedWrite true fs c run onSuccess failLog failToast) s) = false.
Proof.
  unfold exec, guardedWrite, mbind, Handler_bind, when. simpl.
  repeat (match goal with
          | |- context [let '(_, _) := ?x in _] => destruct x
          end; simpl).
  done.
Qed.

Lemma guardedWrite_failure fs c run onSuccess failLog failToast s msg :
  run (store s) = inl msg →
  exec (guardedWrite true fs c run onSuccess failLog failToast) s
  = setIsUpdating false
      (setEffects
         (effects s ++ [Store_call c; ConsoleError failLog;
                        ToastError failToast]) s).
Proof.
  intros Hrun. unfold exec, guardedWrite, mbind, Handler_bind, when,
    storeWrite, modify, emit, toast_error. simpl. rewrite Hrun. simpl.
  by rewrite <- !app_assoc.
Qed.

Lemma guardedWrite_success fs c run onSuccess failLog failToast s store' :
  run (store s) = inr store' →
  let s' := exec (guardedWrite true fs c run onSuccess failLog failToast) s in
  store s' = store'
  ∧ orders s' = reloadedOrders fs store' (orders s)
  ∧ stats s' = reloadedStats store' (stats s)
  ∧ isUpdating s' = false
  ∧ loading s' = false
  ∧ ∃ es, effects s'
          = effects s ++ [Store_call c; onSuccess] ++ es
            ++ [Store_call CallGetStats]
            ++ match getOrderStats store' with
               | inr _ => []
               | inl _ => [ConsoleError "Error loading stats"]
               end
    ∧ Store_call CallGetOrders ∈ es
    ∧ Forall (λ e, ¬ isStoreCall e ∨ e = Store_call CallGetOrders) es.
Proof.
  intros Hrun. unfold exec, guardedWrite, loadOrders, loadStats,
    reloadedOrders, reloadedStats.
  unfold mbind, Handler_bind, when, storeWrite, modify, emit, toast_error,
    storeRead.
  simpl. rewrite Hrun. simpl.
  destruct (getOrdersWithFilters fs store') as [m1|os]; simpl;
    destruct (getOrderStats store') as [m2|st]; simpl;
    (split_and!; [done..|]); rewrite <- !app_assoc; simpl;
    first [eexists [_; _; _; _]; split; [reflexivity|]
          |eexists [_; _; _]; split; [reflexivity|]];
    (split; [set_solver|]);
    repeat constructor; simpl; tauto.
Qed.

(** A handler of a mounted component leaves the busy flag as it found it:
    a free flag is free again when the handler is done, whatever the store
    answers and whatever the user answers. *)
Theorem handlers_hand_back_flag s orderId newStatus :
  isMounted s = true →
  isUpdating (exec (updateOrderStatus orderId newStatus) s) = isUpdating s
  ∧ isUpdating (exec (deleteOrder orderId) s) = isUpdating s
  ∧ isUpdating (exec (verifyLoyaltyDiscount orderId) s) = isUpdating s.
Proof.
  intros Hm. split_and!.
  - unfold exec, updateOrderStatus. destruct (isUpdating s) eqn:Hb; [done|].
    rewrite Hm. apply guardedWrite_releases.
  - unfold exec, deleteOrder.
    destruct (List.find _ (orders s)) as [order|]; [|done].
    destruct (canDeleteOrder order); simpl; [|done].
    unfold mbind, Handler_bind, window_confirm.
    destruct (default false (head (answers s))); simpl; [|done].
    destruct (isUpdating s) eqn:Hb; simpl; [done|].
    destruct (default false (head (tail (answers s)))); simpl; [|done].
    rewrite Hm.
    apply guardedWrite_releases.
  - unfold exec, verifyLoyaltyDiscount. destruct (isUpdating s) eqn:Hb; [done|].
    rewrite Hm. apply guardedWrite_releases.
Qed.

Lemma setIsUpdating_idle s es :
  isUpdating s = false →
  setIsUpdating false (setEffects es s) = setEffects es s.
Proof. destruct s. simpl. by intros ->. Qed.

Lemma deleteOrder_goes_ahead s orderId :
  deleteGoesAhead orderId s →
  ∃ rest,
    answers s = true :: true :: rest
    ∧ exec (deleteOrder orderId) s
      = exec (guardedWrite (isMounted s) (filters s) (CallDelete orderId)
                (OrderService.deleteOrder orderId) (ToastSuccess MSG_DELETED)
                "Error deleting order" MSG_DELETE_FAILED)
          (setEffects
             (effects s ++ [Confirm MSG_CONFIRM_DELETE true;
                            Confirm MSG_CONFIRM_DELETE_AGAIN true])
             (setAnswers rest s)).
Proof.
  intros (order & rest & Hf & Hst & Hb & Ha). exists rest. split; [done|].
  unfold exec, deleteOrder. rewrite Hf. unfold canDeleteOrder.
  rewrite (bool_decide_eq_true_2 _ Hst). simpl.
  unfold mbind, Handler_bind, window_confirm. rewrite Ha. simpl.
  rewrite Hb. simpl. by rewrite <- app_assoc.
Qed.

(** A write the store rejects leaves orders, stats and store as they were:
    the state is the one before, with the request, the console entry and the
    error toast added to the effects, and nothing is reloaded. *)
Theorem rejected_write_keeps_state s orderId newStatus msg :
  isMounted s = true →
  isUpdating s = false →
  (OrderService.updateOrderStatus orderId newStatus (store s) = inl msg →
   exec (updateOrderStatus orderId newStatus) s
   = setEffects
       (effects s ++ [Store_call (CallUpdateStatus orderId newStatus);
                      ConsoleError "Error updating order status";
                      ToastError MSG_STATUS_FAILED]) s)
  ∧ (OrderService.verifyLoyaltyDiscount orderId (store s) = inl msg →
     exec (verifyLoyaltyDiscount orderId) s
     = setEffects
         (effects s ++ [Store_call (CallVerifyLoyalty orderId);
                        ConsoleError "Error verifying loyalty discount";
                        ToastError MSG_LOYALTY_FAILED]) s)
  ∧ (deleteGoesAhead orderId s →
     OrderService.deleteOrder orderId (store s) = inl msg →
     let s' := exec (deleteOrder orderId) s in
     orders s' = orders s ∧ stats s' = stats s ∧ store s' = store s
     ∧ effects s'
       = effects s ++ [Confirm MSG_CONFIRM_DELETE true;
                       Confirm MSG_CONFIRM_DELETE_AGAIN true;
                       Store_call (CallDelete orderId);
                       ConsoleError "Error deleting order";
                       ToastError MSG_DELETE_FAILED]).
Proof.
  intros Hm Hb. split_and!.
  - intros Hrun. unfold updateOrderStatus, exec. rewrite Hb, Hm.
    rewrite <- (setIsUpdating_idle s _ Hb).
    by apply guardedWrite_failure with (msg := msg).
  - intros Hrun. unfold verifyLoyaltyDiscount, exec. rewrite Hb, Hm.
    rewrite <- (setIsUpdating_idle s _ Hb).
    by apply guardedWrite_failure with (msg := msg).
  - intros Hgo Hrun s'. unfold s'.
    destruct (deleteOrder_goes_ahead s orderId Hgo) as (rest & _ & ->).
    rewrite Hm. erewrite guardedWrite_failure by exact Hrun.
    simpl. by rewrite <- app_assoc.
Qed.

(** A write the store accepts is followed by a reload of orders and stats
    against the new store; each of the two reloads may fail on its own and
    then leaves what was held before.  The busy flag is handed back. *)
Theorem accepted_write_refreshes s orderId newStatus store' :
  isMounted s = true →
  isUpdating s = false →
  (OrderService.updateOrderStatus orderId newStatus (store s) = inr store' →
   refreshedAgainst store' s (exec (updateOrderStatus orderId newStatus) s))
  ∧ (OrderService.verifyLoyaltyDiscount orderId (store s) = inr store' →
     refreshedAgainst store' s (exec (verifyLoyaltyDiscount orderId) s))
  ∧ (deleteGoesAhead orderId s →
     OrderService.deleteOrder orderId (store s) = inr store' →
     refreshedAgainst store' s (exec (deleteOrder orderId) s)).
Proof.
  intros Hm Hb. unfold refreshedAgainst. split_and!.
  - intros Hrun. unfold updateOrderStatus, exec. rewrite Hb, Hm.
    destruct (guardedWrite_success (filters s)
                (CallUpdateStatus orderId newStatus)
                (OrderService.updateOrderStatus orderId newStatus)
                (ToastSuccess MSG_STATUS_UPDATED)
                "Error updating order status" MSG_STATUS_FAILED s store' Hrun)
      as (? & ? & ? & ? & ? & _). done.
  - intros Hrun. unfold verifyLoyaltyDiscount, exec. rewrite Hb, Hm.
    destruct (guardedWrite_success (filters s) (CallVerifyLoyalty orderId)
                (OrderService.verifyLoyaltyDiscount orderId)
                (ConsoleLog MSG_LOYALTY_OK)
                "Error verifying loyalty discount" MSG_LOYALTY_FAILED
                s store' Hrun)
      as (? & ? & ? & ? & ? & _). done.
  - intros Hgo Hrun.
    destruct (deleteOrder_goes_ahead s orderId Hgo) as (rest & _ & ->).
    rewrite Hm.
    destruct (guardedWrite_success (filters s) (CallDelete orderId)
                (OrderService.deleteOrder orderId) (ToastSuccess MSG_DELETED)
                "Error deleting order" MSG_DELETE_FAILED
                (setEffects
                   (effects s ++ [Confirm MSG_CONFIRM_DELETE true;
                                  Confirm MSG_CONFIRM_DELETE_AGAIN true])
                   (setAnswers rest s)) store' Hrun)
      as (? & ? & ? & ? & ? & _). done.
Qed.

(** Delete reaches the store exactly when the order is listed and pending,
    nothing is in flight and the user confirms twice; in every other case
    (unknown id, other status, a dialog declined, busy) orders, stats and
    store stay as they are and no request is sent. *)
Theorem deleteOrder_reaches_store_iff s orderId :
  let s' := exec (deleteOrder orderId) s in
  (deleteGoesAhead orderId s →
   ∃ es, effects s'
         = effects s ++ [Confirm MSG_CONFIRM_DELETE true;
                         Confirm MSG_CONFIRM_DELETE_AGAIN true;
                         Store_call (CallDelete orderId)] ++ es)
  ∧ (¬ deleteGoesAhead orderId s →
     orders s' = orders s ∧ stats s' = stats s ∧ store s' = store s
     ∧ ∃ es, effects s' = effects s ++ es
             ∧ Forall (λ e, ¬ isStoreCall e) es).
Proof.
  intros s'. unfold s'. split.
  - intros Hgo.
    destruct (deleteOrder_goes_ahead s orderId Hgo) as (rest & _ & ->).
    destruct (guardedWrite_calls (isMounted s) (filters s) (CallDelete orderId)
                (OrderService.deleteOrder orderId) (ToastSuccess MSG_DELETED)
                "Error deleting order" MSG_DELETE_FAILED
                (setEffects
                   (effects s ++ [Confirm MSG_CONFIRM_DELETE true;
                                  Confirm MSG_CONFIRM_DELETE_AGAIN true])
                   (setAnswers rest s))) as [es Hes].
    exists es. rewrite Hes. simpl. by rewrite <- app_assoc.
  - intros Hno. unfold exec, deleteOrder.
    destruct (List.find _ (orders s)) as [order|] eqn:Hf.
    + destruct (canDeleteOrder order) eqn:Hc; simpl.
      * unfold mbind, Handler_bind, window_confirm.
        destruct (answers s) as [|[] [|[] rest]] eqn:Ha; simpl;
          try (split_and!; [done..|]; eexists [_]; split; [done|];
               repeat constructor; by intros []).
        -- destruct (isUpdating s) eqn:Hb; simpl.
           ++ split_and!; [done..|]. eexists [_; _].
              rewrite <- app_assoc. split; [done|].
              repeat constructor; by intros [].
           ++ split_and!; [done..|]. eexists [_; _].
              rewrite <- app_assoc. split; [done|].
              repeat constructor; by intros [].
        -- destruct (isUpdating s) eqn:Hb; simpl.
           ++ split_and!; [done..|]. eexists [_; _].
              rewrite <- app_assoc. split; [done|].
              repeat constructor; by intros [].
           ++ destruct Hno. exists order, rest.
              apply bool_decide_eq_true in Hc. done.
        -- destruct (isUpdating s) eqn:Hb; simpl.
           ++ split_and!; [done..|]. eexists [_; _].
              rewrite <- app_assoc. split; [done|].
              repeat constructor; by intros [].
           ++ split_and!; [done..|]. eexists [_; _].
              rewrite <- app_assoc. split; [done|].
              repeat constructor; by intros [].
      * split_and!; [done..|]. eexists [_]. split; [done|].
        repeat constructor; by intros [].
    + simpl. split_and!; [done..|]. exists []. by rewrite app_nil_r.
Qed.

(** The initial load handles the two answers independently: orders and
    stats are each replaced when their own request succeeds and kept when it
    fails; only a failed orders request raises a toast; the loading flag is
    down afterwards and the store is only read. *)
Theorem loadData_settles_each s :
  isMounted s = true →
  let s' := exec loadData s in
  orders s' = reloadedOrders (filters s) (store s) (orders s)
  ∧ stats s' = reloadedStats (store s) (stats s)
  ∧ loading s' = false
  ∧ store s' = store s
  ∧ ∃ es, effects s' = effects s ++ es
          ∧ (∀ m, ToastError m ∈ es
                  ↔ m = MSG_LOAD_ORDERS_FAILED
                    ∧ ∃ msg, getOrdersWithFilters (filters s) (store s)
                             = inl msg)
          ∧ Forall (λ e, isStoreCall e →
                         e = Store_call CallGetOrders
                         ∨ e = Store_call CallGetStats) es.
Proof.
  intros Hm s'. unfold s', exec, loadData, reloadedOrders, reloadedStats.
  rewrite Hm. simpl.
  unfold mbind, Handler_bind, modify, emit, toast_error, storeRead. simpl.
  destruct (getOrdersWithFilters (filters s) (store s)) as [m1|os]; simpl;
    destruct (getOrderStats (store s)) as [m2|st]; simpl;
    (split_and!; [done..|]); eexists;
    (split; [rewrite <- !app_assoc; simpl; reflexivity|]);
    (split; [intros m; split;
               [intros Hin; repeat (apply elem_of_cons in Hin as [Hin|Hin];
                                    [simplify_eq; eauto|]);
                by apply elem_of_nil in Hin
               |intros [-> [msg ?]]; simplify_eq; set_solver]
            |repeat (apply Forall_cons_2;
                       [simpl; try (by intros []); intros _;
                        first [by left|by right]|]);
             apply Forall_nil_2]).
Qed.

End OrderManagementHandlerFacts.

Lemma handlers_hand_back_flag_witness :
  OrderManagement.isUpdating
    (exec (OrderManagement.deleteOrder "b")
       (viewState OrderManagement.inProgress false)) = false.
Proof.
  destruct (handlers_hand_back_flag (viewState OrderManagement.inProgress false)
              "b" confirmed eq_refl) as (_ & H & _).
  exact H.
Defined.

Lemma rejected_write_keeps_state_witness :
  exec (OrderManagement.updateOrderStatus "nobody" confirmed)
    (viewState OrderManagement.inProgress false)
  = OrderManagement.setEffects
      [OrderManagement.Store_call
         (OrderManagement.CallUpdateStatus "nobody" confirmed);
       OrderManagement.ConsoleError "Error updating order status";
       OrderManagement.ToastError OrderManagement.MSG_STATUS_FAILED]
      (viewState OrderManagement.inProgress false).
Proof.
  apply (proj1 (rejected_write_keeps_state
                  (viewState OrderManagement.inProgress false)
                  "nobody" confirmed "unknown order" eq_refl eq_refl)).
  by vm_compute.
Defined.

Lemma accepted_write_refreshes_witness :
  OrderManagementView.refreshedAgainst
    [order20; mkOrder "b" 3 15 confirmed None 2000; orderCancelled]
    (viewState OrderManagement.inProgress false)
    (exec (OrderManagement.updateOrderStatus "b" confirmed)
       (viewState OrderManagement.inProgress false)).
Proof.
  apply (proj1 (accepted_write_refreshes
                  (viewState OrderManagement.inProgress false) "b" confirmed
                  [order20; mkOrder "b" 3 15 confirmed None 2000;
                   orderCancelled] eq_refl eq_refl)).
  by vm_compute.
Defined.

Lemma loadData_settles_each_witness :
  OrderManagement.orders
    (exec OrderManagementView.loadData
       (viewState OrderManagement.inProgress false))
  = [order20; order15; orderCancelled]
  ∧ OrderManagement.loading
      (exec OrderManagementView.loadData
         (viewState OrderManagement.inProgress false)) = false.
Proof.
  destruct (loadData_settles_each (viewState OrderManagement.inProgress false)
              eq_refl) as (Ho & _ & Hl & _).
  split; [exact Ho|exact Hl].
Defined.

(** ** The grids: what a table's status depends on *)

Lemma filter_filter_implied {A} (P Q : A → Prop)
    `{!∀ x, Decision (P x), !∀ x, Decision (Q x)} (l : list A) :
  (∀ x, P x → Q x) → filter P (filter Q l) = filter P l.
Proof.
  intros HPQ. rewrite list_filter_filter. apply list_filter_iff.
  intros x. split; [by intros [? _]|auto].
Qed.

Lemma tableOrdersOf_own T (orders : list Order) :
  SimpleGrid.tableOrdersOf T
    (filter (λ o, o_tableNumber o = t_number T) orders)
  = SimpleGrid.tableOrdersOf T orders.
Proof.
  unfold SimpleGrid.tableOrdersOf. apply filter_filter_implied.
  intros o Hk. by apply keepsOrder_true in Hk as (? & _).
Qed.

Lemma recentPaid_own now T (orders : list Order) :
  filter (SimpleGrid.recentPaidOrder now T)
    (filter (λ o, o_tableNumber o = t_number T) orders)
  = filter (SimpleGrid.recentPaidOrder now T) orders.
Proof. apply filter_filter_implied. by intros o (? & _). Qed.

Lemma simpleStatusOf_own now T (orders : list Order) :
  SimpleGrid.simpleStatusOf now
    (filter (λ o, o_tableNumber o = t_number T) orders) T
  = SimpleGrid.simpleStatusOf now orders T.
Proof.
  unfold SimpleGrid.simpleStatusOf, SimpleGrid.activeOrderOf.
  by rewrite tableOrdersOf_own, recentPaid_own.
Qed.

(** In both grids the card of a table depends only on the orders placed for
    that table's number (and, in the grid with reservations, on whether some
    reservation names that number): orders and reservations of other tables
    never change it. *)
Theorem table_card_is_local T (orders orders' : list Order) :
  filter (λ o, o_tableNumber o = t_number T) orders
  = filter (λ o, o_tableNumber o = t_number T) orders' →
  (∀ rs rs',
     ((∃ r, r ∈ rs ∧ r_tableNumber r = t_number T)
      ↔ ∃ r, r ∈ rs' ∧ r_tableNumber r = t_number T) →
     Grid.tableStatusOf (Grid.seatedMapOf rs) (Grid.ordersMapOf orders) T
     = Grid.tableStatusOf (Grid.seatedMapOf rs') (Grid.ordersMapOf orders') T)
  ∧ ∀ now, SimpleGrid.simpleStatusOf now orders T
           = SimpleGrid.simpleStatusOf now orders' T.
Proof.
  intros Hown. split.
  - intros rs rs' Hrs. unfold Grid.tableStatusOf.
    rewrite !ordersMapOf_lookup, Hown.
    assert (default false (Grid.seatedMapOf rs !! t_number T)
            = default false (Grid.seatedMapOf rs' !! t_number T)) as ->; [|done].
    pose proof (seatedMapOf_lookup rs (t_number T)) as H1.
    pose proof (seatedMapOf_lookup rs' (t_number T)) as H2.
    destruct (default false (Grid.seatedMapOf rs !! _)),
             (default false (Grid.seatedMapOf rs' !! _)); try done.
    + symmetry. apply H2, Hrs, H1. done.
    + apply H1, Hrs, H2. done.
  - intros now. by rewrite <- (simpleStatusOf_own now T orders), Hown,
                           simpleStatusOf_own.
Qed.

Lemma table_card_is_local_witness :
  SimpleGrid.simpleStatusOf 5000 [order20; order15] table3
  = SimpleGrid.simpleStatusOf 5000
      [mkOrder "far" 7 99 pending None 4000; order20; order15] table3.
Proof.
  apply (table_card_is_local table3 [order20; order15]
           [mkOrder "far" 7 99 pending None 4000; order20; order15]).
  reflexivity.
Defined.

Lemma length_by_statusType (l : list Grid.TableStatus) :
  length l
  = length (filter (λ t, Grid.statusType t = AVAILABLE) l)
    + (length (filter (λ t, Grid.statusType t = OPEN_BILL) l)
       + length (filter (λ t, Grid.statusType t = ACTIVE_ORDER) l)
       + length (filter (λ t, Grid.statusType t = SEATED) l)).
Proof.
  induction l as [|t l IH]; [done|].
  destruct (Grid.statusType t) eqn:E;
    repeat (first [rewrite filter_cons_True by congruence
                  |rewrite filter_cons_False by congruence]);
    simpl; lia.
Qed.

(** In the grid with reservations [occupied] counts the tables with an open
    bill, an active order or a seated reservation, so every open bill is an
    occupied table there. *)
Theorem grid_occupied_breakdown tables orders reservations :
  let processedData := Grid.processTableData tables orders reservations in
  let count st :=
    length (filter (λ t, Grid.statusType t = st)
              (Grid.tableStatuses processedData)) in
  Grid.occupied (Grid.stats processedData)
  = count OPEN_BILL + count ACTIVE_ORDER + count SEATED
  ∧ Grid.openBills (Grid.stats processedData)
    ≤ Grid.occupied (Grid.stats processedData).
Proof.
  intros processedData count. unfold count, processedData. simpl.
  pose proof (length_by_statusType
                (Grid.tableStatusOf (Grid.seatedMapOf reservations)
                   (Grid.ordersMapOf orders) <$> tables)) as Hlen.
  rewrite length_fmap in Hlen. lia.
Qed.

(** ** The grid component: loading, failure and what is drawn *)

Section LiveGridFacts.

Import LiveGrid.

Lemma step_consistent s s' : step s s' → consistent s → consistent s'.
Proof. intros [] Hc; unfold consistent in *; simpl; done. Qed.

(** However loads start, succeed and fail, and in whatever order their
    updates interleave, the cards and statistics held by the component are
    those [processTableData] gives for the tables, orders and reservations
    it holds. *)
Theorem shown_grid_matches_snapshot s :
  rtc step initialState s → consistent s.
Proof.
  revert s. apply rtc_ind_r; [by vm_compute|].
  intros s1 s2 _ Hstep IH. by eapply step_consistent.
Qed.




End LiveGridFacts.

Lemma shown_grid_matches_snapshot_witness :
  LiveGrid.consistent
    (LiveGrid.loadSucceeded
       {| LiveGrid.f_tables := [table3];
          LiveGrid.f_orders := [order20; order15];
          LiveGrid.f_seated := [] |} 5000
       (LiveGrid.loadStarted LiveGrid.initialState)).
Proof.
  apply shown_grid_matches_snapshot.
  eapply rtc_l; [apply LiveGrid.load_starts|].
  eapply rtc_l; [apply LiveGrid.load_succeeds|]. apply rtc_refl.
Defined.

(** ** Sorting by a numeric key *)

Section SortByKey.

Context {A : Type} (key : A → Z).

#[local] Abbreviation byKey := (λ a b : A, (key a - key b)%Z).

Lemma insertBy_sorted x l :
  StronglySorted (λ a b, (key a ≤ key b)%Z) l →
  StronglySorted (λ a b, (key a ≤ key b)%Z) (insertBy byKey x l).
Proof.
  induction 1 as [|y l Hl IH Hy]; simpl.
  - repeat constructor.
  - case_bool_decide as Hxy.
    + constructor; [by constructor|]. constructor; [lia|].
      eapply Forall_impl; [exact Hy|]. simpl. intros z Hz. lia.
    + constructor; [done|].
      rewrite (insertBy_perm byKey x l). constructor; [lia|done].
Qed.

Lemma Array_sort_sorted l :
  StronglySorted (λ a b, (key a ≤ key b)%Z) (Array_sort byKey l).
Proof.
  induction l as [|x l IH]; simpl; [constructor|by apply insertBy_sorted].
Qed.

Lemma insertBy_filter_key x l n :
  filter (λ a, key a = n) (insertBy byKey x l)
  = filter (λ a, key a = n) (x :: l).
Proof.
  induction l as [|y l IH]; simpl; [done|].
  case_bool_decide as Hxy; [done|].
  destruct (decide (key x = n)) as [Hx|Hx].
  - rewrite (filter_cons_False _ y) by lia.
    rewrite IH. rewrite !(filter_cons_True _ x) by done.
    by rewrite (filter_cons_False _ y) by lia.
  - destruct (decide (key y = n)) as [Hy|Hy].
    + rewrite (filter_cons_True _ y) by done. rewrite IH.
      rewrite !(filter_cons_False _ x) by done.
      by rewrite (filter_cons_True _ y) by done.
    + rewrite (filter_cons_False _ y) by done. rewrite IH.
      rewrite !(filter_cons_False _ x) by done.
      by rewrite (filter_cons_False _ y) by done.
Qed.

(** The sort is stable: elements with the same key keep their order. *)
Lemma Array_sort_stable l n :
  filter (λ a, key a = n) (Array_sort byKey l) = filter (λ a, key a = n) l.
Proof.
  induction l as [|x l IH]; simpl; [done|].
  rewrite insertBy_filter_key.
  destruct (decide (key x = n)).
  - rewrite !(filter_cons_True _ x) by done. by rewrite IH.
  - rewrite !(filter_cons_False _ x) by done. by rewrite IH.
Qed.

End SortByKey.

(** ** The simpler grid: the cards *)

Section SimpleGridViewFacts.

Import SimpleGrid SimpleGridView.

(** The simpler grid draws one card per table, in ascending order of table
    number whatever the order of the tables it was given; cards of tables
    sharing a number keep the order of the table list. *)
Theorem cards_in_table_order now tables orders :
  cards now tables orders ≡ₚ calculateTableStatuses now tables orders
  ∧ length (cards now tables orders) = length tables
  ∧ StronglySorted
      (λ a b, (t_number (table a) ≤ t_number (table b))%Z)
      (cards now tables orders)
  ∧ ∀ n, filter (λ c, t_number (table c) = n) (cards now tables orders)
         = simpleStatusOf now orders
             <$> filter (λ T, t_number T = n) tables.
Proof.
  unfold cards. split_and!.
  - apply Array_sort_perm.
  - rewrite (Array_sort_perm byTableNumber _).
    unfold calculateTableStatuses. by rewrite length_fmap.
  - apply (Array_sort_sorted (λ c, t_number (table c))).
  - intros n.
    rewrite (Array_sort_stable (λ c, t_number (table c))).
    unfold calculateTableStatuses.
    induction tables as [|T ts IH]; [done|]. csimpl.
    destruct (decide (t_number T = n)).
    + rewrite !filter_cons_True by done. csimpl. by rewrite IH.
    + rewrite !filter_cons_False by done. done.
Qed.

Lemma keepsOrder_not_ready T o :
  keepsOrder T o = true → o_status o ≠ ready ∧ o_status o ≠ cancelled.
Proof.
  intros Hk. apply keepsOrder_true in Hk as (_ & _ & Hst).
  split; intros E; rewrite E in Hst; set_solver.
Qed.

(** Orders that are ready or cancelled are invisible to the simpler grid:
    leaving them out of the order list changes no card and no statistic. *)
Theorem ready_and_cancelled_invisible now tables orders :
  let visible :=
    filter (λ o, o_status o ≠ ready ∧ o_status o ≠ cancelled) orders in
  calculateTableStatuses now tables visible
  = calculateTableStatuses now tables orders
  ∧ calculateStats (calculateTableStatuses now tables visible)
    = calculateStats (calculateTableStatuses now tables orders).
Proof.
  intros visible.
  assert (calculateTableStatuses now tables visible
          = calculateTableStatuses now tables orders) as E; [|by rewrite E].
  unfold calculateTableStatuses. apply list_fmap_ext. intros _ T _.
  unfold simpleStatusOf, activeOrderOf, tableOrdersOf, visible.
  rewrite !filter_filter_implied; [done| |].
  - intros o (_ & -> & _). done.
  - intros o. apply keepsOrder_not_ready.
Qed.

End SimpleGridViewFacts.

(** ** Order management: the tab badge against the rows *)

Section TabStatsFacts.

Import OrderService OrderManagement OrderManagementView.

Lemma length_getFilteredOrders (orders : list Order) :
  length (getFilteredOrders inProgress orders)
  = countStatus pending orders + countStatus confirmed orders
    + countStatus preparing orders + countStatus ready orders
  ∧ length (getFilteredOrders completed orders)
    = countStatus delivered orders + countStatus cancelled orders.
Proof.
  unfold getFilteredOrders, countStatus, inProgressStatuses, completedStatuses.
  induction orders as [|o orders [IH1 IH2]]; [done|].
  destruct (o_status o) eqn:E;
    repeat (first [rewrite filter_cons_True by (rewrite ?E; set_solver)
                  |rewrite filter_cons_False by (rewrite ?E; set_solver)]);
    simpl; lia.
Qed.

(** When the statistics count the orders the view holds, the badge of the
    completed tab is the number of its rows, while the badge of the
    in-progress tab leaves out the confirmed orders: it is the number of
    rows less the confirmed ones.  Without statistics both badges are 0. *)
Theorem tab_badge_vs_rows stats (orders : list Order) :
  countsOf stats orders →
  (getTabStats (Some stats) completed).1
  = length (getFilteredOrders completed orders)
  ∧ (getTabStats (Some stats) inProgress).1 + countStatus confirmed orders
    = length (getFilteredOrders inProgress orders)
  ∧ ∀ tab, getTabStats None tab = (0, 0%float).
Proof.
  intros (Hp & Hpr & Hr & Hd & Hc).
  destruct (length_getFilteredOrders orders) as [H1 H2].
  simpl. rewrite H1, H2, Hp, Hpr, Hr, Hd, Hc. split_and!; [done|lia|done].
Qed.

End TabStatsFacts.

Lemma tab_badge_vs_rows_witness :
  (OrderManagementView.getTabStats
     (Some {| OrderService.pendingOrders := 1;
              OrderService.preparingOrders := 0;
              OrderService.readyOrders := 0;
              OrderService.deliveredOrders := 1;
              OrderService.cancelledOrders := 0;
              OrderService.unpaidRevenue := 15;
              OrderService.paidRevenue := 20 |})
     OrderManagement.inProgress).1
  + countStatus confirmed
      [order20; order15; mkOrder "c" 4 8 confirmed None 2500]
  = length (OrderManagementView.getFilteredOrders OrderManagement.inProgress
              [order20; order15; mkOrder "c" 4 8 confirmed None 2500]).
Proof.
  refine (proj1 (proj2 (tab_badge_vs_rows _ _ _))).
  by vm_compute.
Defined.

(** ** The bar view: priorities *)

Section BarControlsFacts.

Import BarControls.

Lemma diffMinutes_gt now orderTime (m : Z) :
  (m < diffMinutes now orderTime ↔ (m + 1) * 60000 ≤ now - orderTime)%Z.
Proof.
  unfold diffMinutes. change (1000 * 60)%Z with 60000%Z.
  pose proof (Z.div_mod (now - orderTime) 60000 ltac:(lia)) as Hd.
  pose proof (Z.mod_pos_bound (now - orderTime) 60000 ltac:(lia)) as Hm.
  split; intros H; nia.
Qed.

(** An order is urgent from 21 full minutes of waiting on and high from 11
    full minutes on: 20 minutes and 59 seconds are still high, 10 minutes
    and 59 seconds still normal, and so is an order dated in the future.  As
    the clock advances the priority never gets less pressing. *)
Theorem priority_thresholds now orderTime :
  (getOrderPriority now orderTime = urgent
   ↔ 21 * 60000 ≤ now - orderTime)%Z
  ∧ (getOrderPriority now orderTime = high
     ↔ 11 * 60000 ≤ now - orderTime < 21 * 60000)%Z
  ∧ (getOrderPriority now orderTime = normal
     ↔ now - orderTime < 11 * 60000)%Z
  ∧ ∀ later, (now ≤ later)%Z →
             pressure (getOrderPriority now orderTime)
             ≤ pressure (getOrderPriority later orderTime).
Proof.
  assert (∀ n, (getOrderPriority n orderTime = urgent
                ↔ 21 * 60000 ≤ n - orderTime)%Z
               ∧ (getOrderPriority n orderTime = high
                  ↔ 11 * 60000 ≤ n - orderTime < 21 * 60000)%Z
               ∧ (getOrderPriority n orderTime = normal
                  ↔ n - orderTime < 11 * 60000)%Z) as Hth.
  { intros n. unfold getOrderPriority.
    pose proof (diffMinutes_gt n orderTime 20) as H20.
    pose proof (diffMinutes_gt n orderTime 10) as H10.
    repeat case_bool_decide; split_and!; split; intros; try done; lia. }
  destruct (Hth now) as (Hu & Hh & Hn). split_and!; [done..|].
  intros later Hle. destruct (Hth later) as (Hu' & Hh' & Hn').
  destruct (getOrderPriority now orderTime) eqn:E,
           (getOrderPriority later orderTime) eqn:E'; simpl; try lia.
  - assert (21 * 60000 ≤ now - orderTime)%Z by by apply Hu.
    assert (11 * 60000 ≤ later - orderTime < 21 * 60000)%Z by by apply Hh'.
    lia.
  - assert (21 * 60000 ≤ now - orderTime)%Z by by apply Hu.
    assert (later - orderTime < 11 * 60000)%Z by by apply Hn'. lia.
  - assert (11 * 60000 ≤ now - orderTime < 21 * 60000)%Z by by apply Hh.
    assert (later - orderTime < 11 * 60000)%Z by by apply Hn'. lia.
Qed.

(** ** The bar view: buttons and the per-order lock *)


Lemma busy_pressed b id s :
  busy (pressed b id s)
  = if bool_decide (id ∈ completingOrders s) then busy s else busy s ++ [id].
Proof.
  unfold pressed, busy. case_bool_decide; simpl; [done|].
  by rewrite fmap_app.
Qed.

Lemma step_locked_iff_busy s s' :
  step s s' → locked_iff_busy s → locked_iff_busy s'.
Proof.
  intros [b id s0|i ok s0 [r Hr]] [Hnd Hlock]; unfold locked_iff_busy.
  - rewrite busy_pressed. unfold pressed.
    case_bool_decide as Hin; [done|]. simpl. split.
    + apply NoDup_app. split_and!; [done| |apply NoDup_singleton].
      intros x Hx ->%list_elem_of_singleton. by apply Hin, Hlock.
    + intros x. rewrite elem_of_union, elem_of_singleton, elem_of_app,
        list_elem_of_singleton, Hlock. done.
  - unfold answered, busy in *. rewrite Hr. simpl.
    rewrite list_fmap_delete.
    assert ((orderId <$> inFlight s0) !! i = Some (orderId r)) as Hi
      by by rewrite list_lookup_fmap, Hr.
    pose proof (delete_take_drop (orderId <$> inFlight s0) i) as Hdel.
    pose proof (take_drop_middle _ _ _ Hi) as Hmid.
    rewrite <- Hmid in Hnd.
    apply NoDup_app in Hnd as (Hnd1 & Hdis & Hnd2).
    apply NoDup_cons in Hnd2 as (Hnot & Hnd2).
    rewrite Hdel. split.
    + apply NoDup_app. split_and!; [done| |done].
      intros x Hx1 Hx2. apply (Hdis x Hx1). by apply list_elem_of_further.
    + intros x. rewrite elem_of_difference, elem_of_singleton, Hlock.
      rewrite <- Hmid at 1. rewrite !elem_of_app, elem_of_cons.
      split.
      * intros [[H1|[->|H3]] Hne]; [by left|done|by right].
      * intros [H1|H3]; (split; [tauto|]); intros ->.
        -- apply (Hdis _ H1). apply list_elem_of_here.
        -- done.
Qed.

Lemma reachable_locked_iff_busy s :
  rtc step initialControls s → locked_iff_busy s.
Proof.
  revert s. apply rtc_ind_r.
  - split; [constructor|]. intros id. unfold busy. simpl. set_solver.
  - intros s1 s2 _ Hstep IH. by eapply step_locked_iff_busy.
Qed.

(** Whatever is pressed and whenever the store answers, at most one request
    per order is in flight.  Pressing either button of an order with a
    request in flight sends nothing and changes nothing; pressing a button
    of any other order sends its request at once, however many other orders
    are waiting. *)
Theorem one_request_per_order s :
  rtc step initialControls s →
  NoDup (busy s)
  ∧ ∀ b id,
      (id ∈ busy s → pressed b id s = s)
      ∧ (id ∉ busy s →
         effects (pressed b id s)
         = effects s ++ [UpdateOrderStatus id (requested b)]
         ∧ busy (pressed b id s) = busy s ++ [id]).
Proof.
  intros [Hnd Hlock]%reachable_locked_iff_busy.
  split; [done|]. intros b id. split.
  - intros Hin. unfold pressed. by rewrite bool_decide_eq_true_2 by by apply Hlock.
  - intros Hnot. rewrite busy_pressed. unfold pressed.
    rewrite bool_decide_eq_false_2 by by rewrite Hlock. done.
Qed.

(** Once the store has answered, with success or failure, the order is free
    again and the other orders in flight stay locked. *)
Theorem answer_frees_order s i r ok :
  rtc step initialControls s →
  inFlight s !! i = Some r →
  (orderId r ∉ busy (answered i ok s))
  ∧ (∀ id, id ≠ orderId r → id ∈ busy s → id ∈ busy (answered i ok s))
  ∧ ∃ msg, effects (answered i ok s) = effects s ++ msg
           ∧ ∀ e, e ∈ msg → ∀ id st, e ≠ UpdateOrderStatus id st.
Proof.
  intros Hinv%reachable_locked_iff_busy Hi.
  assert (locked_iff_busy (answered i ok s)) as [Hnd' Hlock'].
  { eapply step_locked_iff_busy; [|exact Hinv]. by constructor. }
  destruct Hinv as [Hnd Hlock].
  split_and!.
  - rewrite <- Hlock'. unfold answered. rewrite Hi. simpl. set_solver.
  - intros id Hne Hin. rewrite <- Hlock'. unfold answered. rewrite Hi. simpl.
    apply Hlock in Hin. set_solver.
  - unfold answered. rewrite Hi. simpl. eexists. split; [done|].
    intros e He id st ->. destruct (button r), ok; set_solver.
Qed.

End BarControlsFacts.

(** ** The bar view: the debounced realtime listener *)

Section RealtimeListenerFacts.

Import RealtimeListener.

Lemma clearTimeout_empty s :
  pendingOk s → clearTimeout (debounceTimeout s) (timers s) = ∅.
Proof.
  intros Hp. apply map_empty. intros h. unfold clearTimeout.
  destruct (debounceTimeout s) as [h0|] eqn:Hd.
  - destruct (decide (h = h0)) as [->|Hne]; [by rewrite lookup_delete_eq|].
    rewrite lookup_delete_ne by done.
    destruct (timers s !! h) as [timer|] eqn:Ht; [|done].
    destruct (Hp h timer Ht) as (_ & Hd' & _). congruence.
  - destruct (timers s !! h) as [timer|] eqn:Ht; [|done].
    destruct (Hp h timer Ht) as (_ & Hd' & _). congruence.
Qed.

Lemma delete_pending_empty s h timer :
  pendingOk s → timers s !! h = Some timer → delete h (timers s) = ∅.
Proof.
  intros Hp Ht. destruct (Hp h timer Ht) as (_ & Hd & _).
  rewrite <- (clearTimeout_empty s Hp). by rewrite Hd.
Qed.

Lemma unsubscribed_no_timer s :
  pendingOk s → isSubscribed s = false → timers s = ∅.
Proof.
  intros Hp Hs. apply map_empty. intros h.
  destruct (timers s !! h) as [timer|] eqn:Ht; [|done].
  destruct (Hp h timer Ht) as (Hs' & _). congruence.
Qed.

Lemma step_invariant s s' :
  step s s' → pendingOk s ∧ deliveredOk s → pendingOk s' ∧ deliveredOk s'.
Proof.
  intros Hstep [Hp [Hpast Hsp]].
  destruct Hstep as [t orders s Ht|t h timer s Ht Hh Hdue|s|s].
  - unfold onSnapshot. destruct (isSubscribed s) eqn:Hs; simpl.
    + split.
      * intros h timer. simpl. rewrite (clearTimeout_empty s Hp).
        rewrite insert_empty. intros [<- <-]%lookup_singleton_Some. simpl.
        split_and!; [done|done| |lia|].
        -- rewrite last_snoc. do 2 f_equal. lia.
        -- eapply Forall_impl; [exact Hpast|]. simpl. intros d Hd. lia.
      * split; simpl; [|done].
        eapply Forall_impl; [exact Hpast|]. simpl. intros d Hd. lia.
    + split.
      * intros h timer. simpl. rewrite (unsubscribed_no_timer s Hp Hs).
        by rewrite lookup_empty.
      * split; simpl; [|done].
        eapply Forall_impl; [exact Hpast|]. simpl. intros d Hd. lia.
  - unfold timerFires. rewrite Hh.
    destruct (Hp h timer Hh) as (Hs & _ & _ & _ & Hbefore).
    rewrite Hs. simpl. split.
    + intros h' timer'. simpl. rewrite (delete_pending_empty s h timer Hp Hh).
      by rewrite lookup_empty.
    + split; simpl.
      * apply Forall_app. split.
        -- eapply Forall_impl; [exact Hpast|]. simpl. intros d Hd. lia.
        -- repeat constructor. simpl. lia.
      * apply StronglySorted_app_2; [|done|repeat constructor].
        intros a b Ha ->%list_elem_of_singleton. simpl.
        rewrite Forall_forall in Hbefore. specialize (Hbefore a Ha).
        simpl in Hbefore. lia.
  - unfold onError.
    destruct (isSubscribed s) eqn:Hs; simpl; [|by split].
    split; [|by split]. intros h timer Hh. simpl in Hh.
    destruct (Hp h timer Hh) as (? & ? & ? & ? & ?). simpl. done.
  - split; [|by split]. intros h timer. simpl.
    rewrite (clearTimeout_empty s Hp). by rewrite lookup_empty.
Qed.

Lemma reachable_invariant s :
  rtc step subscribed s → pendingOk s ∧ deliveredOk s.
Proof.
  revert s. apply rtc_ind_r.
  - split; [intros h timer; simpl; by rewrite lookup_empty|].
    split; simpl; constructor.
  - intros s1 s2 _ Hstep IH. by eapply step_invariant.
Qed.

(** Every call of [callback] hands over the snapshot that was taken in last,
    and not before 300 ms have passed since it came in: a snapshot that is
    followed by another within the delay is never handed over. *)
Theorem callback_gets_latest_snapshot s s' :
  rtc step subscribed s → step s s' →
  delivered s' = delivered s
  ∨ ∃ t t0 orders,
      delivered s' = delivered s ++ [(t, orders)]
      ∧ last (received s) = Some (t0, orders)
      ∧ (t0 + DEBOUNCE ≤ t)%Z.
Proof.
  intros [Hp _]%reachable_invariant Hstep.
  destruct Hstep as [t orders s Ht|t h timer s Ht Hh Hdue|s|s].
  - left. unfold onSnapshot. by destruct (isSubscribed s).
  - right. unfold timerFires. rewrite Hh.
    destruct (Hp h timer Hh) as (Hs & _ & Hlast & _). rewrite Hs. simpl.
    exists t, (due timer - DEBOUNCE)%Z, (held timer).
    split_and!; [done|done|lia].
  - left. unfold onError. by destruct (isSubscribed s).
  - by left.
Qed.

(** However fast the snapshots come in, two calls of [callback] are never
    less than 300 ms apart, and at most one timer is pending at any time. *)
Theorem callbacks_are_spaced s :
  rtc step subscribed s →
  StronglySorted (λ a b, a.1 + DEBOUNCE ≤ b.1)%Z (delivered s)
  ∧ ∀ h1 h2, is_Some (timers s !! h1) → is_Some (timers s !! h2) → h1 = h2.
Proof.
  intros [Hp [_ Hsp]]%reachable_invariant. split; [done|].
  intros h1 h2 [t1 H1] [t2 H2].
  destruct (Hp h1 t1 H1) as (_ & E1 & _).
  destruct (Hp h2 t2 H2) as (_ & E2 & _). congruence.
Qed.

Lemma step_unsubscribed s s' :
  step s s' → isSubscribed s = false →
  isSubscribed s' = false
  ∧ delivered s' = delivered s ∧ toasts s' = toasts s
  ∧ received s' = received s.
Proof.
  intros [t orders s0 Ht|t h timer s0 Ht Hh Hdue|s0|s0] Hs.
  - unfold onSnapshot. by rewrite Hs.
  - unfold timerFires. by rewrite Hh, Hs.
  - unfold onError. by rewrite Hs.
  - done.
Qed.

(** After the cleanup nothing gets through any more: whatever snapshots,
    errors and timers still arrive, no call of [callback] and no toast is
    added, and no timer is left pending. *)
Theorem nothing_after_cleanup s s' :
  rtc step subscribed s → rtc step (cleanup s) s' →
  delivered s' = delivered s ∧ toasts s' = toasts s ∧ timers s' = ∅.
Proof.
  intros Hr Hafter.
  assert (rtc step subscribed s') as Hr'.
  { etrans; [exact Hr|]. eapply rtc_l; [apply cleaned_up|exact Hafter]. }
  assert (isSubscribed s' = false
          ∧ delivered s' = delivered s ∧ toasts s' = toasts s) as (Hs & ? & ?).
  { revert s' Hafter Hr'.
    apply (rtc_ind_r (λ s', _ → isSubscribed s' = false
                            ∧ delivered s' = delivered s
                            ∧ toasts s' = toasts s)); [done|].
    intros s1 s2 Hr1 Hstep IH _.
    destruct IH as (Hs1 & Hd1 & Ht1).
    { etrans; [exact Hr|]. eapply rtc_l; [apply cleaned_up|exact Hr1]. }
    destruct (step_unsubscribed s1 s2 Hstep Hs1) as (? & ? & ? & _).
    split_and!; congruence. }
  split_and!; [done..|].
  apply unsubscribed_no_timer; [|done]. by apply reachable_invariant.
Qed.

End RealtimeListenerFacts.

(** ** The Firebase module *)

Section FirebaseFacts.

Import Firebase.

Lemma orElse_spec value fallback :
  fallback ≠ "" →
  orElse value fallback ≠ ""
  ∧ (∀ s, value = Some s → s ≠ "" → orElse value fallback = s)
  ∧ (value = None ∨ value = Some "" → orElse value fallback = fallback).
Proof.
  intros Hf. unfold orElse. destruct value as [s|].
  - case_bool_decide as E.
    + subst. split_and!; [done|by intros ? [= <-]|done].
    + split_and!; [done|by intros ? [= <-]|by intros [|[= ->]]].
  - split_and!; [done|done|done].
Qed.

(** Whatever the environment holds, every field of the configuration takes
    the value of its variable when that is set to a non-empty string, and
    its demo value when the variable is unset or empty; so no field is ever
    empty. *)
Theorem firebaseConfig_never_blank env :
  let c := firebaseConfig env in
  takes (apiKey c) (VITE_FIREBASE_API_KEY env) "demo-key"
  ∧ takes (authDomain c) (VITE_FIREBASE_AUTH_DOMAIN env) "demo.firebaseapp.com"
  ∧ takes (projectId c) (VITE_FIREBASE_PROJECT_ID env) "demo-project"
  ∧ takes (storageBucket c) (VITE_FIREBASE_STORAGE_BUCKET env)
      "demo.appspot.com"
  ∧ takes (messagingSenderId c) (VITE_FIREBASE_MESSAGING_SENDER_ID env)
      "123456789"
  ∧ takes (appId c) (VITE_FIREBASE_APP_ID env) "demo-app-id".
Proof.
  intros c. unfold c, firebaseConfig, takes. simpl.
  split_and!; by apply orElse_spec.
Qed.

(** A call changes no module variable that is set, sets the one behind its
    getter when it succeeds, and creates an instance only for a variable
    that was unset. *)
Lemma call_cached env g sdk m :
  let '(r, m') := call env g sdk m in
  (∀ g' h, cached g' m = Some h → cached g' m' = Some h)
  ∧ (∀ h, r = inr h → cached g m' = Some h)
  ∧ (∀ h, cached g m = Some h → r = inr h ∧ m' = m).
Proof.
  destruct g; simpl;
    unfold getFirebaseApp, getFirebaseAuth, getFirestoreDB,
      getFirebaseStorage, getFirebaseApp, initializeFirebase;
    destruct (app m) eqn:Ha, (authInstance m) eqn:Hau,
             (dbInstance m) eqn:Hd, (storageInstance m) eqn:Hs;
    try destruct (initializeApp sdk (firebaseConfig env));
    simpl;
    (split_and!;
     [intros []; simpl; congruence
     |intros ?; congruence
     |intros ?; try congruence; by intros [= <-]]).
Qed.

Lemma times_app kind m (l : list Call) (cs : list Call) :
  calls m = l ++ cs →
  times kind m
  = length (filter (λ c, kind c = true) l)
    + length (filter (λ c, kind c = true) cs).
Proof. unfold times. intros ->. by rewrite filter_app, length_app. Qed.

Lemma persistence_counts sdk d :
  (∀ g, length (filter (λ c, creates g c = true) (persistence sdk d)) = 0)
  ∧ length (filter (λ c, startsPersistence c = true) (persistence sdk d)) = 1.
Proof.
  unfold persistence.
  split; [intros g|];
    destruct (enableIndexedDbPersistence sdk d) as [code|];
    try case_bool_decide;
    try destruct (enableMultiTabIndexedDbPersistence sdk d);
    try destruct g; reflexivity.
Qed.

Lemma length_filter_kind (kind : Call → bool) c (l : list Call) :
  length (filter (λ c, kind c = true) (c :: l))
  = (if kind c then 1 else 0) + length (filter (λ c, kind c = true) l).
Proof.
  destruct (kind c) eqn:E.
  - by rewrite filter_cons_True.
  - rewrite filter_cons_False; [done|]. by rewrite E.
Qed.

Lemma call_countedOnce env g sdk m :
  countedOnce m → countedOnce (call env g sdk m).2.
Proof.
  intros [Hc Hp].
  pose proof (Hc TheApp) as H1. pose proof (Hc TheAuth) as H2.
  pose proof (Hc TheDB) as H3. pose proof (Hc TheStorage) as H4.
  clear Hc. unfold countedOnce, times, cached in *.
  destruct g; unfold call;
    unfold getFirebaseApp, getFirebaseAuth, getFirestoreDB,
      getFirebaseStorage, getFirebaseApp, initializeFirebase;
    destruct (app m) eqn:Ha, (authInstance m) eqn:Hau,
             (dbInstance m) eqn:Hd, (storageInstance m) eqn:Hs;
    try destruct (initializeApp sdk (firebaseConfig env));
    cbn [fst snd app authInstance dbInstance storageInstance calls];
    (split; [intros g'; destruct g'|]);
    cbn [fst snd app authInstance dbInstance storageInstance calls];
    rewrite ?Ha, ?Hau, ?Hd, ?Hs;
    rewrite ?filter_app, ?length_app;
    rewrite ?length_filter_kind, ?filter_nil;
    rewrite ?(proj1 (persistence_counts sdk _)),
            ?(proj2 (persistence_counts sdk _));
    rewrite ?H1, ?H2, ?H3, ?H4, ?Hp;
    unfold creates, startsPersistence; simpl; lia.
Qed.

Lemma session_step env use acc :
  sessionOk acc →
  sessionOk (let '(r, m) := call env use.1 use.2 acc.2 in
             (acc.1 ++ [(use.1, r)], m)).
Proof.
  intros [Hcount Hres].
  pose proof (call_countedOnce env use.1 use.2 acc.2 Hcount) as Hcount'.
  pose proof (call_cached env use.1 use.2 acc.2) as Hcached.
  destruct (call env use.1 use.2 acc.2) as [r m'].
  destruct Hcached as (Hkeep & Hset & _).
  split; [done|]. simpl. intros g h [Hin|Hin]%elem_of_app.
  - by apply Hkeep, Hres.
  - apply list_elem_of_singleton in Hin as [= -> <-]. by apply Hset.
Qed.

Lemma session_ok env uses : sessionOk (session env uses).
Proof.
  unfold session, sessionFrom.
  assert (sessionOk ([], unloaded)) as Hinit.
  { split.
    - split; [intros []|]; reflexivity.
    - intros g h Hin. by apply elem_of_nil in Hin. }
  revert Hinit. generalize (([], unloaded) : Session).
  induction uses as [|use uses IH]; intros acc Hacc; simpl; [done|].
  apply IH. by apply session_step.
Qed.

(** In every session, whatever the SDK answers, each instance is created at
    most once: [initializeApp] succeeds at most once, [getAuth],
    [getFirestore] and [getStorage] are called at most once each and
    persistence is started at most once; and every successful call of a
    getter returns the same instance as the one before. *)
Theorem instances_created_once env uses :
  (∀ g, times (creates g) (session env uses).2 ≤ 1)
  ∧ times startsPersistence (session env uses).2 ≤ 1
  ∧ ∀ g h h',
      (g, inr h) ∈ (session env uses).1 →
      (g, inr h') ∈ (session env uses).1 → h = h'.
Proof.
  destruct (session_ok env uses) as [[Hc Hp] Hres]. split_and!.
  - intros g. rewrite Hc. destruct (cached g _); lia.
  - rewrite Hp. destruct (dbInstance _); lia.
  - intros g h h' H1 H2. apply Hres in H1, H2. congruence.
Qed.

Lemma call_settledOn env a g sdk m :
  settledOn a m →
  settledOn a (call env g sdk m).2
  ∧ (g = TheApp → (call env g sdk m).1 = inr a).
Proof.
  intros (Ha & Hn & Hfor). unfold settledOn, times in *.
  destruct g; unfold call, getFirebaseApp, getFirebaseAuth, getFirestoreDB,
    getFirebaseStorage, getFirebaseApp, initializeFirebase;
    rewrite Ha;
    [|destruct (authInstance m)|destruct (dbInstance m)
     |destruct (storageInstance m)];
    cbn [fst snd app calls];
    (split; [|by try done]);
    (split_and!; [done| |]);
    rewrite ?filter_app, ?length_app, ?length_filter_kind, ?filter_nil;
    try done.
  - simpl. lia.
  - intros c x [Hc| ->%list_elem_of_singleton]%elem_of_app; [by eauto|].
    by intros [= <-].
  - rewrite Hn.
    assert (length (filter (λ c, callsInitializeApp c = true)
                      (persistence sdk (getFirestore sdk a))) = 0) as ->.
    { unfold persistence.
      destruct (enableIndexedDbPersistence sdk _) as [code|];
        try case_bool_decide;
        try destruct (enableMultiTabIndexedDbPersistence sdk _); reflexivity. }
    simpl. lia.
  - intros c x [Hc|[->%list_elem_of_singleton|Hc]%elem_of_app]%elem_of_app.
    + by eauto.
    + by intros [= <-].
    + unfold persistence in Hc.
      destruct (enableIndexedDbPersistence sdk _) as [code|];
        try case_bool_decide;
        try destruct (enableMultiTabIndexedDbPersistence sdk _);
        set_solver.
  - simpl. lia.
  - intros c x [Hc| ->%list_elem_of_singleton]%elem_of_app; [by eauto|].
    by intros [= <-].
Qed.

Lemma uses_keep_settledOn env a uses (acc : Session) :
  settledOn a acc.2 →
  (∀ r, (TheApp, r) ∈ acc.1 → r = inr a) →
  let out :=
    foldl
      (λ (acc : Session) (use : Getter * Sdk),
         let '(r, m) := call env use.1 use.2 acc.2 in
         (acc.1 ++ [(use.1, r)], m))
      acc uses in
  settledOn a out.2 ∧ ∀ r, (TheApp, r) ∈ out.1 → r = inr a.
Proof.
  revert acc. induction uses as [|use uses IH]; intros acc Hm Hrs; simpl;
    [done|].
  destruct (call_settledOn env a use.1 use.2 acc.2 Hm) as [Hm' Hr'].
  destruct (call env use.1 use.2 acc.2) as [r m'] eqn:Hcall. simpl in *.
  apply IH; simpl; [done|].
  intros r0 [Hin| [= Hg <-]%list_elem_of_singleton]%elem_of_app.
  - by apply Hrs.
  - by apply Hr'.
Qed.

(** Once the import of the module has succeeded, [initializeApp] is never
    called again, whatever getters are called afterwards and whatever the
    SDK would answer: the app stays the one of the import,
    [getFirebaseApp] always returns it, and every instance is created for
    it. *)
Theorem import_settles_the_app env sdk a uses :
  (imported env sdk).1 = inr a →
  let after := sessionFrom env (imported env sdk).2 uses in
  app after.2 = Some a
  ∧ times callsInitializeApp after.2 = 1
  ∧ (∀ c x, c ∈ calls after.2 → createdFor c = Some x → x = a)
  ∧ ∀ r, (TheApp, r) ∈ after.1 → r = inr a.
Proof.
  intros Himp after.
  assert (settledOn a (imported env sdk).2) as Hstart.
  { unfold imported, getFirebaseApp, initializeFirebase in *. simpl in *.
    destruct (initializeApp sdk (firebaseConfig env)) as [error|a'];
      simplify_eq/=.
    split_and!; [done|reflexivity|].
    intros c x Hc. set_solver. }
  destruct (uses_keep_settledOn env a uses ([], (imported env sdk).2))
    as [(? & ? & ?) ?]; simpl; [done| |done].
  intros r Hr. by apply elem_of_nil in Hr.
Qed.

(** Persistence never stands in the way of the database: once the app is
    there, [getFirestoreDB] returns the instance whatever becomes of
    persistence, and the fallback for several tabs is tried exactly when the
    first attempt is rejected with the code failed-precondition. *)
Theorem persistence_never_blocks env sdk m a :
  app m = Some a → dbInstance m = None →
  let d := getFirestore sdk a in
  (getFirestoreDB env sdk m).1 = inr d
  ∧ dbInstance (getFirestoreDB env sdk m).2 = Some d
  ∧ (EnableMultiTabIndexedDbPersistence d
       ∈ drop (length (calls m)) (calls (getFirestoreDB env sdk m).2)
     ↔ enableIndexedDbPersistence sdk d = Some "failed-precondition").
Proof.
  intros Ha Hd d. unfold getFirestoreDB, getFirebaseApp, initializeFirebase.
  rewrite Hd, Ha. simpl. split_and!; [done..|].
  rewrite drop_app_length. fold d. unfold persistence.
  destruct (enableIndexedDbPersistence sdk d) as [code|].
  - case_bool_decide as E.
    + subst. destruct (enableMultiTabIndexedDbPersistence sdk d);
        split; intros; try done; set_solver.
    + split; [|by intros [= ->]]. set_solver.
  - split; [|done]. set_solver.
Qed.

End FirebaseFacts.

(** ** Worked instances *)

Lemma one_request_per_order_witness :
  BarControls.handleStartPreparing "a" waitingForA = waitingForA.
Proof.
  destruct (one_request_per_order waitingForA) as [_ H].
  - apply rtc_once. apply BarControls.press.
  - apply (H BarControls.StartPreparing "a"). vm_compute.
    apply list_elem_of_here.
Defined.

Lemma answer_frees_order_witness :
  "a" ∉ BarControls.busy (BarControls.answered 0 false waitingForA).
Proof.
  destruct (answer_frees_order waitingForA 0
              {| BarControls.button := BarControls.Complete;
                 BarControls.orderId := "a" |} false) as (H & _).
  - apply rtc_once. apply BarControls.press.
  - reflexivity.
  - exact H.
Defined.

Lemma callback_gets_latest_snapshot_witness :
  RealtimeListener.delivered (RealtimeListener.timerFires 400 0 oneSnapshot)
  = RealtimeListener.delivered oneSnapshot
  ∨ ∃ t t0 orders,
      RealtimeListener.delivered (RealtimeListener.timerFires 400 0 oneSnapshot)
      = RealtimeListener.delivered oneSnapshot ++ [(t, orders)]
      ∧ last (RealtimeListener.received oneSnapshot) = Some (t0, orders)
      ∧ (t0 + RealtimeListener.DEBOUNCE ≤ t)%Z.
Proof.
  apply callback_gets_latest_snapshot.
  - apply rtc_once. apply RealtimeListener.snapshot_arrives. simpl. lia.
  - eapply RealtimeListener.timer_fires.
    + simpl. lia.
    + reflexivity.
    + simpl. unfold RealtimeListener.DEBOUNCE. lia.
Defined.

Lemma callbacks_are_spaced_witness :
  StronglySorted (λ a b, a.1 + RealtimeListener.DEBOUNCE ≤ b.1)%Z
    (RealtimeListener.delivered oneSnapshot)
  ∧ ∀ h1 h2,
      is_Some (RealtimeListener.timers oneSnapshot !! h1) →
      is_Some (RealtimeListener.timers oneSnapshot !! h2) → h1 = h2.
Proof.
  apply callbacks_are_spaced.
  apply rtc_once. apply RealtimeListener.snapshot_arrives. simpl. lia.
Defined.

Lemma nothing_after_cleanup_witness :
  RealtimeListener.delivered
    (RealtimeListener.onSnapshot 20 [barOrderAgain]
       (RealtimeListener.cleanup oneSnapshot))
  = RealtimeListener.delivered oneSnapshot
  ∧ RealtimeListener.toasts
      (RealtimeListener.onSnapshot 20 [barOrderAgain]
         (RealtimeListener.cleanup oneSnapshot))
    = RealtimeListener.toasts oneSnapshot
  ∧ RealtimeListener.timers
      (RealtimeListener.onSnapshot 20 [barOrderAgain]
         (RealtimeListener.cleanup oneSnapshot)) = ∅.
Proof.
  apply nothing_after_cleanup.
  - apply rtc_once. apply RealtimeListener.snapshot_arrives. simpl. lia.
  - apply rtc_once. apply RealtimeListener.snapshot_arrives. simpl. lia.
Defined.

Lemma import_settles_the_app_witness :
  Firebase.app
    (Firebase.sessionFrom noEnv
       (Firebase.imported noEnv (sdkWith (inr 1))).2
       [(Firebase.TheAuth, sdkWith (inl "no network"));
        (Firebase.TheDB, sdkWith (inr 2))]).2 = Some 1.
Proof.
  destruct (import_settles_the_app noEnv (sdkWith (inr 1)) 1
              [(Firebase.TheAuth, sdkWith (inl "no network"));
               (Firebase.TheDB, sdkWith (inr 2))] eq_refl) as (H & _).
  exact H.
Defined.

Lemma persistence_never_blocks_witness :
  (Firebase.getFirestoreDB noEnv (sdkWith (inr 1))
     (Firebase.getFirebaseApp noEnv (sdkWith (inr 1)) Firebase.unloaded).2).1
  = inr 21.
Proof.
  destruct (persistence_never_blocks noEnv (sdkWith (inr 1))
              (Firebase.getFirebaseApp noEnv (sdkWith (inr 1))
                 Firebase.unloaded).2 1 eq_refl eq_refl) as (H & _).
  exact H.
Defined.

(** A burst of three snapshots within 300 ms reaches [callback] once, with
    the last of them. *)
Example burst_is_delivered_once :
  RealtimeListener.delivered
    (RealtimeListener.timerFires 450 2
       (RealtimeListener.onSnapshot 120 [barOrderAgain]
          (RealtimeListener.onSnapshot 60 [barOrder; barOrderAgain]
             oneSnapshot)))
  = [(450%Z, [barOrderAgain])].
Proof. by vm_compute. Qed.

(** With no variable set the demo configuration is used; after the import
    the getters all work on the app of the import, whatever [initializeApp]
    would answer by then. *)
Example demo_session :
  Firebase.projectId (Firebase.firebaseConfig noEnv) = "demo-project"
  ∧ (Firebase.session noEnv
       [(Firebase.TheApp, sdkWith (inr 1));
        (Firebase.TheAuth, sdkWith (inl "no network"));
        (Firebase.TheDB, sdkWith (inr 2));
        (Firebase.TheAuth, sdkWith (inr 3))]).1
    = [(Firebase.TheApp, inr 1); (Firebase.TheAuth, inr 11);
       (Firebase.TheDB, inr 21); (Firebase.TheAuth, inr 11)].
Proof. split; by vm_compute. Qed.

(** Two loads overlap: the second fails before the first succeeds, and the
    error is drawn although the first load brought its tables. *)
Example overlapping_loads_show_error :
  LiveGrid.render
    (LiveGrid.loadSucceeded
       {| LiveGrid.f_tables := [table3];
          LiveGrid.f_orders := [order20; order15];
          LiveGrid.f_seated := [] |} 5000
       (LiveGrid.loadFailed (LiveGrid.ErrorObject "down")
          (LiveGrid.loadStarted
             (LiveGrid.loadStarted LiveGrid.initialState))))
  = LiveGrid.ErrorView "down".
Proof. reflexivity. Qed.
